(** * SmartExplainer: a shallow embedding of shapash/explainer/smart_explainer.py

    The explainer is a Python object whose methods read and assign
    attributes of [self].  It is modelled as a typed attribute store
    together with a state-and-exception monad: a method is a function from
    the store to an outcome (a value or a raised exception) and the store
    it leaves behind, so that what a call has already assigned when it
    raises stays visible. *)

From Stdlib Require Import QArith Qabs.
From stdpp Require Import gmap strings list fin_maps.

Close Scope Q_scope.
Local Open Scope string_scope.
Local Open Scope list_scope.
Local Open Scope Z_scope.

(** ** Exceptions and outcomes *)

Inductive exn : Type :=
| ValueError (msg : string)
| AssertionError (msg : string)
| AttributeError (name : string)
| TypeError (msg : string)
| IndexError (msg : string)
| KeyError (key : string)
| External (origin : string).

Inductive result (A : Type) : Type :=
| Ok (a : A)
| Raise (e : exn).
Arguments Ok {A} a.
Arguments Raise {A} e.

Definition is_ok {A} (r : result A) : bool :=
  match r with Ok _ => true | Raise _ => false end.

Definition result_bind {A B} (r : result A) (k : A -> result B) : result B :=
  match r with Ok a => k a | Raise e => Raise e end.

(** ** Tables *)

(** A pandas DataFrame: column labels, row labels and the cells, row by row. *)
Record DataFrame (A : Type) : Type := mkDataFrame {
  columns : list string;
  index : list Z;
  values : list (list A)
}.
Arguments mkDataFrame {A} columns index values.
Arguments columns {A} d.
Arguments index {A} d.
Arguments values {A} d.

(** The cells of the prediction set: numbers, text or a missing value. *)
Inductive cell : Type :=
| CNum (q : Q)
| CStr (s : string)
| CNaN.

Definition df_map {A B} (f : A -> B) (d : DataFrame A) : DataFrame B :=
  {| columns := columns d; index := index d; values := map (map f) (values d) |}.

(** The shape of a table, as [DataFrame.shape] reports it. *)
Definition shape {A} (d : DataFrame A) : nat * nat :=
  (length (index d), length (columns d)).

(** Regression data is one table; classification data is a list of tables,
    one per class. *)
Inductive Poly (A : Type) : Type :=
| One (a : A)
| Many (l : list A).
Arguments One {A} a.
Arguments Many {A} l.

Definition poly_map {A B} (f : A -> B) (p : Poly A) : Poly B :=
  match p with
  | One a => One (f a)
  | Many l => Many (map f l)
  end.

(** ** The mask algebra of SmartState *)

Module SmartState.

(** Modelled from the spec: SmartState.init_mask (smart_state.py is not
    among the sources).  An all-[value] mask with the shape of
    contrib_sorted. *)
Definition init_mask (contrib_sorted : DataFrame Q) (value : bool) : DataFrame bool :=
  df_map (fun _ => value) contrib_sorted.

(** Modelled from the spec: SmartState.hide_contributions.  False at every
    ranked position whose var_dict entry is one of the identifiers. *)
Definition hide_contributions (var_dict : DataFrame Z) (features_list : list Z)
  : DataFrame bool :=
  df_map (fun v => negb (bool_decide (v ∈ features_list))) var_dict.

(** Modelled from the spec: SmartState.cap_contributions.  False wherever
    abs(contribution) < threshold; a threshold < 0 is rejected as an
    invalid configuration. *)
Definition cap_contributions (contrib_sorted : DataFrame Q) (threshold : Q)
  : result (DataFrame bool) :=
  if negb (Qle_bool 0 threshold)
  then Raise (ValueError "threshold must be positive")
  else Ok (df_map (fun c => Qle_bool threshold (Qabs c)) contrib_sorted).

(** Modelled from the spec: SmartState.sign_contributions.  With positive
    requested, false wherever the contribution is <= 0; with negative
    requested, false wherever it is >= 0. *)
Definition sign_contributions (contrib_sorted : DataFrame Q) (positive : bool)
  : DataFrame bool :=
  df_map (fun c => if positive then negb (Qle_bool c 0) else negb (Qle_bool 0 c))
         contrib_sorted.

(** Modelled from the spec: the logical AND of two masks, cell by cell; the
    labels are those of the first. *)
Definition and_mask (m1 m2 : DataFrame bool) : DataFrame bool :=
  {| columns := columns m1; index := index m1;
     values := zip_with (zip_with andb) (values m1) (values m2) |}.

(** Modelled from the spec: SmartState.combine_masks.  The shape-preserving
    logical AND of a list of masks. *)
Definition combine_masks (masks : list (DataFrame bool)) : result (DataFrame bool) :=
  match masks with
  | [] => Raise (ValueError "combine_masks: no mask to combine")
  | m :: ms => Ok (foldl and_mask m ms)
  end.

(** Modelled from the spec: the first [k] true entries of a row, in rank
    order, stay true. *)
Fixpoint keep_first (k : nat) (row : list bool) : list bool :=
  match row with
  | [] => []
  | b :: row' =>
      match b, k with
      | false, _ => false :: keep_first k row'
      | true, O => false :: keep_first O row'
      | true, S k' => true :: keep_first k' row'
      end
  end.

(** Modelled from the spec: SmartState.cutoff_contributions.  Within each
    row only the first max_contrib true entries stay true; a
    max_contrib <= 0 is rejected as an invalid configuration. *)
Definition cutoff_contributions (mask : DataFrame bool) (max_contrib : Z)
  : result (DataFrame bool) :=
  if max_contrib <=? 0
  then Raise (ValueError "max_contrib must be strictly positive")
  else Ok {| columns := columns mask; index := index mask;
             values := map (keep_first (Z.to_nat max_contrib)) (values mask) |}.

(** Modelled from the spec: SmartState.compute_masked_contributions.  The
    contribution where the mask is true, an absent value elsewhere. *)
Definition compute_masked_contributions (contrib_sorted : DataFrame Q)
    (mask : DataFrame bool) : DataFrame (option Q) :=
  {| columns := columns contrib_sorted; index := index contrib_sorted;
     values := zip_with (zip_with (fun c (b : bool) => if b then Some c else None))
                        (values contrib_sorted) (values mask) |}.

End SmartState.

(** ** The state object: SmartState() or MultiDecorator(SmartState()) *)

(** [choose_state] builds one of two objects; both answer the same method
  names, the second by mapping the first over a list of tables. *)
Inductive State : Type :=
| PlainState   (* SmartState() *)
| MultiState.  (* MultiDecorator(SmartState()) *)

Fixpoint mapM {A B} (f : A -> result B) (l : list A) : result (list B) :=
match l with
| [] => Ok []
| a :: l' => result_bind (f a) (fun b => result_bind (mapM f l') (fun bs => Ok (b :: bs)))
end.

Module MultiDecorator.

Definition not_a_list : exn := ValueError "a list of tables is expected".
Definition not_a_table : exn := TypeError "a single table is expected".
Definition empty_list : exn := ValueError "the list of tables is empty".
Definition uneven_lists : exn := ValueError "the lists of tables differ in length".

(** Modelled from the spec: MultiDecorator (multi_decorator.py is not among
    the sources).  Every operation maps itself over the sequence in
    classification mode, preserving order and length; an empty sequence,
    sequences of different lengths and a representation that does not fit
    the state object are errors. *)
Definition call1 {A B} (st : State) (f : A -> result B) (x : Poly A) : result (Poly B) :=
  match st, x with
  | PlainState, One a => result_bind (f a) (fun b => Ok (One b))
  | PlainState, Many _ => Raise not_a_table
  | MultiState, One _ => Raise not_a_list
  | MultiState, Many [] => Raise empty_list
  | MultiState, Many l => result_bind (mapM f l) (fun bs => Ok (Many bs))
  end.

(** Modelled from the spec: MultiDecorator, for a method of two tables. *)
Definition call2 {A B C} (st : State) (f : A -> B -> result C)
    (x : Poly A) (y : Poly B) : result (Poly C) :=
  match st, x, y with
  | PlainState, One a, One b => result_bind (f a b) (fun c => Ok (One c))
  | PlainState, _, _ => Raise not_a_table
  | MultiState, Many [], _ => Raise empty_list
  | MultiState, Many la, Many lb =>
      if bool_decide (length la = length lb) then
        result_bind (mapM (fun ab : A * B => f ab.1 ab.2) (zip la lb))
                    (fun cs => Ok (Many cs))
      else Raise uneven_lists
  | MultiState, _, _ => Raise not_a_list
  end.

(** Modelled from the spec: MultiDecorator.  The lists of per-class tables,
    turned into one list per class: class [k] gets the [k]-th table of every
    list, in order. *)
Definition transpose {A} (n : nat) (ls : list (list A)) : list (list A) :=
  foldr (zip_with cons) (replicate n []) ls.

Definition as_one {A} (x : Poly A) : result A :=
  match x with One a => Ok a | Many _ => Raise not_a_table end.

Definition as_many {A} (x : Poly A) : result (list A) :=
  match x with Many l => Ok l | One _ => Raise not_a_list end.

(** Modelled from the spec: MultiDecorator, for a method whose argument is
    a list of (lists of) tables. *)
Definition call_list {A B} (st : State) (f : list A -> result B)
    (xs : list (Poly A)) : result (Poly B) :=
  match st with
  | PlainState =>
      result_bind (mapM as_one xs) (fun l => result_bind (f l) (fun b => Ok (One b)))
  | MultiState =>
      result_bind (mapM as_many xs) (fun ls =>
        match ls with
        | [] | [] :: _ => Raise empty_list
        | l :: _ =>
            result_bind (mapM f (transpose (length l) ls)) (fun bs => Ok (Many bs))
        end)
  end.

End MultiDecorator.

(** The masking methods of [self.state], as [filter] calls them. *)
Record MaskAlgebra : Type := {
init_mask : State -> Poly (DataFrame Q) -> bool -> result (Poly (DataFrame bool));
hide_contributions : State -> Poly (DataFrame Z) -> list Z -> result (Poly (DataFrame bool));
cap_contributions : State -> Poly (DataFrame Q) -> Q -> result (Poly (DataFrame bool));
sign_contributions : State -> Poly (DataFrame Q) -> bool -> result (Poly (DataFrame bool));
combine_masks : State -> list (Poly (DataFrame bool)) -> result (Poly (DataFrame bool));
cutoff_contributions : State -> Poly (DataFrame bool) -> Z -> result (Poly (DataFrame bool));
compute_masked_contributions :
  State -> Poly (DataFrame Q) -> Poly (DataFrame bool) -> result (Poly (DataFrame (option Q)))
}.

(** The masking methods as the spec describes them, on one table or lifted
  over the list by the decorator. *)
Definition smart_state : MaskAlgebra := {|
init_mask st c v :=
  MultiDecorator.call1 st (fun d => Ok (SmartState.init_mask d v)) c;
hide_contributions st vd l :=
  MultiDecorator.call1 st (fun d => Ok (SmartState.hide_contributions d l)) vd;
cap_contributions st c t :=
  MultiDecorator.call1 st (fun d => SmartState.cap_contributions d t) c;
sign_contributions st c p :=
  MultiDecorator.call1 st (fun d => Ok (SmartState.sign_contributions d p)) c;
combine_masks st ms :=
  MultiDecorator.call_list st SmartState.combine_masks ms;
cutoff_contributions st m k :=
  MultiDecorator.call1 st (fun d => SmartState.cutoff_contributions d k) m;
compute_masked_contributions st c m :=
  MultiDecorator.call2 st
    (fun d b => Ok (SmartState.compute_masked_contributions d b)) c m
|}.

(** ** The attributes of a SmartExplainer *)

(** [self.data]: the three ranked tables, and the summary [to_pandas] adds. *)
Record Data : Type := mkData {
contrib_sorted : Poly (DataFrame Q);
var_dict : Poly (DataFrame Z);
x_sorted : Poly (DataFrame cell);
summary : option (Poly (DataFrame cell))
}.

Definition set_summary (s : Poly (DataFrame cell)) (d : Data) : Data :=
{| contrib_sorted := contrib_sorted d; var_dict := var_dict d;
   x_sorted := x_sorted d; summary := Some s |}.

(** A feature named by its technical or display name, or by its column id. *)
Inductive feature_ref : Type :=
| ByName (s : string)
| ById (i : nat).

(** [self.mask_params]: the arguments of the last [filter]. *)
Record MaskParams : Type := mkMaskParams {
p_features_to_hide : option (list feature_ref);
p_threshold : option Q;
p_positive : option bool;
p_max_contrib : option Z
}.

(** A numpy array of two dimensions, row by row. *)
Abbreviation ndarray := (list (list Q)).

(** [self.local_neighbors], [self.features_stability] and
    [self.features_compacity]: dictionaries with fixed keys. *)
Record LocalNeighbors : Type := mkLocalNeighbors {
  norm_shap : ndarray
}.

Record Stability : Type := mkStability {
variability : ndarray;
amplitude : ndarray
}.

(** A float of a numpy array: a number, an infinity or NaN. *)
Inductive float64 : Type :=
| Finite (q : Q)
| PosInf
| NegInf
| NaN.

Record Compacity : Type := mkCompacity {
features_needed : list Z;
distance_reached : list float64
}.

(** One postprocessing rule: its 'type' entry and its 'rule' entry. *)
Record PostRule : Type := mkPostRule {
rule_type : string;
rule_body : list (string * string)
}.

Section Explainer.

(** The model, the SHAP explainer and the encoders are opaque objects. *)
Context {ModelObj ExplainerObj Encoder : Type}.

Inductive attr : Type :=
| x_init | x_pred | x_contrib_plot | y_pred
| preprocessing | postprocessing | postprocessing_modifications
| model | explainer | _case | _classes
| label_dict | inv_label_dict
| features_dict | inv_features_dict
| columns_dict | inv_columns_dict
| state | contributions | data
| features_imp | features_desc | title_story
| features_groups | contributions_groups | features_imp_groups
| x_pred_groups | data_groups | columns_dict_groups
| local_neighbors | features_stability | features_compacity
| mask | masked_contributions | mask_params
| proba_values.

Definition attr_name (a : attr) : string :=
  match a with
  | x_init => "x_init" | x_pred => "x_pred" | x_contrib_plot => "x_contrib_plot"
  | y_pred => "y_pred" | preprocessing => "preprocessing"
  | postprocessing => "postprocessing"
  | postprocessing_modifications => "postprocessing_modifications"
  | model => "model" | explainer => "explainer" | _case => "_case"
  | _classes => "_classes" | label_dict => "label_dict"
  | inv_label_dict => "inv_label_dict" | features_dict => "features_dict"
  | inv_features_dict => "inv_features_dict" | columns_dict => "columns_dict"
  | inv_columns_dict => "inv_columns_dict" | state => "state"
  | contributions => "contributions" | data => "data"
  | features_imp => "features_imp" | features_desc => "features_desc"
  | title_story => "title_story" | features_groups => "features_groups"
  | contributions_groups => "contributions_groups"
  | features_imp_groups => "features_imp_groups"
  | x_pred_groups => "x_pred_groups" | data_groups => "data_groups"
  | columns_dict_groups => "columns_dict_groups"
  | local_neighbors => "local_neighbors"
  | features_stability => "features_stability"
  | features_compacity => "features_compacity" | mask => "mask"
  | masked_contributions => "masked_contributions"
  | mask_params => "mask_params" | proba_values => "proba_values"
  end.

(** What each attribute holds; [option] is for a value that may be None. *)
Definition attr_type (a : attr) : Type :=
  match a with
  | x_init | x_pred | x_contrib_plot | x_pred_groups => DataFrame cell
  | y_pred => option (DataFrame cell)
  | preprocessing => option Encoder
  | postprocessing => option (gmap string PostRule)
  | postprocessing_modifications => bool
  | model => ModelObj
  | explainer => option ExplainerObj
  | _case => string
  | _classes => option (list Z)
  | label_dict => option (gmap Z string)
  | inv_label_dict => gmap string Z
  | features_dict | inv_features_dict => gmap string string
  | columns_dict | columns_dict_groups => gmap nat string
  | inv_columns_dict => gmap string nat
  | state => State
  | contributions | contributions_groups => Poly (DataFrame Q)
  | data | data_groups => Data
  | features_imp | features_imp_groups => option (Poly (list Q))
  | features_desc => gmap string nat
  | title_story => string
  | features_groups => option (gmap string (list string))
  | local_neighbors => option LocalNeighbors
  | features_stability => option Stability
  | features_compacity => option Compacity
  | mask => Poly (DataFrame bool)
  | masked_contributions => Poly (DataFrame (option Q))
  | mask_params => MaskParams
  | proba_values => DataFrame Q
  end.

Definition attr_eq_dec (a b : attr) : {a = b} + {a <> b}.
Proof. decide equality. Defined.

(** The object's [__dict__]: an attribute is absent until it is assigned. *)
Definition Obj : Type := forall a : attr, option (attr_type a).

Definition hasattr (self : Obj) (a : attr) : bool :=
  match self a with Some _ => true | None => false end.

Definition assign (a : attr) (v : attr_type a) (self : Obj) : Obj :=
  fun b =>
    match attr_eq_dec a b with
    | left e => Some (eq_rect a attr_type v b e)
    | right _ => self b
    end.

(** ** Methods: state passing with exceptions *)

Definition M (A : Type) : Type := Obj -> result A * Obj.

Definition ret {A} (a : A) : M A := fun self => (Ok a, self).

Definition raise {A} (e : exn) : M A := fun self => (Raise e, self).

Definition bind {A B} (m : M A) (k : A -> M B) : M B :=
  fun self =>
    match m self with
    | (Ok a, self') => k a self'
    | (Raise e, self') => (Raise e, self')
    end.

(** The outcome of a collaborator, which does not touch [self]. *)
Definition call {A} (r : result A) : M A := fun self => (r, self).

(** [self.a] and [self.a = v]. *)
Definition getattr (a : attr) : M (attr_type a) :=
  fun self =>
    match self a with
    | Some v => (Ok v, self)
    | None => (Raise (AttributeError (attr_name a)), self)
    end.

Definition setattr (a : attr) (v : attr_type a) : M unit :=
  fun self => (Ok tt, assign a v self).

End Explainer.

Arguments attr_type : clear implicits.
Arguments Obj : clear implicits.
Arguments M : clear implicits.

Declare Scope method_scope.
Delimit Scope method_scope with method.
Notation "x <- m ;; k" := (bind m (fun x => k))
(at level 100, m at next level, right associativity) : method_scope.
Notation "m ;;; k" := (bind m (fun _ => k))
(at level 100, right associativity) : method_scope.
(** ** Tables as pandas and numpy handle them *)

(** [d[name]]: the cells of a column. *)
Definition column {A} (d : DataFrame A) (name : string) : result (list A) :=
  match list_find (fun c => c = name) (columns d) with
  | Some (i, _) => Ok (omap (fun row : list A => row !! i) (values d))
  | None => Raise (KeyError name)
  end.

Definition cell_eqb (a b : cell) : bool :=
  match a, b with
  | CNum x, CNum y => Qeq_bool x y
  | CStr x, CStr y => String.eqb x y
  | _, _ => false
  end.

Fixpoint distinct (l : list cell) : list cell :=
  match l with
  | [] => []
  | c :: l' =>
      if existsb (cell_eqb c) l' then distinct l' else
        match c with CNaN => distinct l' | _ => c :: distinct l' end
  end.

(** [dict(d.nunique())]: the number of distinct values of each column. *)
Definition nunique (d : DataFrame cell) : gmap string nat :=
  foldl (fun acc (ic : nat * string) =>
           <[ic.2 := length (distinct (omap (fun row : list cell => row !! ic.1) (values d)))]> acc)
        ∅ (imap pair (columns d)).

(** [pd.concat([a, b], axis=1)]: the columns of both, row labels aligned. *)
Definition pd_concat (a b : DataFrame cell) : DataFrame cell :=
  if bool_decide (index a = index b) then
    {| columns := columns a ++ columns b; index := index a;
       values := zip_with app (values a) (values b) |}
  else
    let labels := index a ++ list_difference (index b) (index a) in
    let row_of (d : DataFrame cell) (lbl : Z) : list cell :=
      match list_find (fun l => l = lbl) (index d) with
      | Some (i, _) => default (replicate (length (columns d)) CNaN) (values d !! i)
      | None => replicate (length (columns d)) CNaN
      end in
    {| columns := columns a ++ columns b; index := labels;
       values := map (fun lbl => row_of a lbl ++ row_of b lbl) labels |}.

(** [np.zeros((n, f))]. *)
Definition np_zeros (n f : nat) : ndarray := replicate n (replicate f 0%Q).

(** [a[i, :] = v] on an array of [f] columns: [v] is broadcast when it has
    one element, and rejected when its length is neither 1 nor [f]. *)
Definition np_set_row (a : ndarray) (f i : nat) (v : list Q) : result ndarray :=
  if bool_decide (length a <= i)%nat then Raise (IndexError "index out of bounds")
  else if bool_decide (length v = f) then Ok (<[i:=v]> a)
  else match v with
       | [x] => Ok (<[i:=replicate f x]> a)
       | _ => Raise (ValueError "could not broadcast input array")
       end.

(** [np.clip(a, lo, hi)], element by element. *)
Definition clip1 (lo hi x : Q) : Q :=
  if Qle_bool x lo then lo else if Qle_bool hi x then hi else x.

(** On floats: an infinity goes to the bound on its side, and NaN stays
    NaN, every comparison with NaN being false. *)
Definition clip_float (lo hi : Q) (x : float64) : float64 :=
  match x with
  | Finite q => Finite (clip1 lo hi q)
  | PosInf => Finite hi
  | NegInf => Finite lo
  | NaN => NaN
  end.

Definition np_clip (a : list float64) (lo hi : Q) : list float64 :=
  map (clip_float lo hi) a.

Local Open Scope method_scope.

(** ** Collaborators

  Functions the module imports from the rest of the package and the
  methods of [self.state] outside the mask algebra.  None of them is among
  the sources; each is taken as it is called, a function that returns or
  raises. *)

Module SmartExplainer.

Section Methods.

Context {ModelObj ExplainerObj Encoder : Type}.

Abbreviation Self := (Obj ModelObj ExplainerObj Encoder).
Abbreviation Method := (M ModelObj ExplainerObj Encoder).

Definition Ranked : Type :=
  Poly (DataFrame Q) * Poly (DataFrame Z) * Poly (DataFrame cell).

Record Collaborators : Type := {
  lib_inverse_transform : DataFrame cell -> option Encoder -> result (DataFrame cell);
  lib_apply_postprocessing :
    DataFrame cell -> gmap string PostRule -> result (DataFrame cell);
  lib_adapt_contributions :
    string -> Poly (DataFrame Q) -> result (Poly (DataFrame Q));
  lib_shap_contributions :
    ModelObj -> DataFrame cell -> option ExplainerObj ->
    result (Poly (DataFrame Q) * option ExplainerObj);
  lib_check_explainer : option ExplainerObj -> result (option ExplainerObj);
  lib_check_model : ModelObj -> result (string * option (list Z));
  lib_check_label_dict :
    option (gmap Z string) -> string -> option (list Z) -> result unit;
  lib_check_ypred :
    DataFrame cell -> option (DataFrame cell) -> result (option (DataFrame cell));
  lib_check_contribution_object :
    string -> option (list Z) -> Poly (DataFrame Q) -> result unit;
  lib_check_postprocessing :
    DataFrame cell -> option (gmap string PostRule) -> result unit;
  lib_check_features_name :
    gmap nat string -> gmap string string -> list feature_ref -> result (list Z);
  lib_keep_right_contributions :
    option (DataFrame cell) -> Poly (DataFrame cell) -> string -> option (list Z) ->
    option (gmap Z string) -> option (DataFrame Q) ->
    result (DataFrame cell * DataFrame cell);
  lib_create_grouped_features_values :
    DataFrame cell -> DataFrame cell -> option Encoder ->
    option (gmap string (list string)) -> gmap string string ->
    result (DataFrame cell);
  lib_predict_proba :
    ModelObj -> DataFrame cell -> option (list Z) -> result (DataFrame Q);
  lib_predict : ModelObj -> DataFrame cell -> result (DataFrame cell);
  lib_find_neighbors :
    list Z -> DataFrame cell -> ModelObj -> string -> result (list ndarray);
  lib_shap_neighbors :
    ndarray -> DataFrame cell -> Poly (DataFrame Q) ->
    result (ndarray * list Q * list Q);
  lib_get_min_nb_features :
    list Z -> Poly (DataFrame Q) -> string -> Q -> result (list Z);
  lib_get_distance :
    list Z -> Poly (DataFrame Q) -> string -> Z -> result (list float64);
  (* [pd.api.types.is_numeric_dtype(x[key])]: pandas decides it from the
     dtype of the column, which the tables of this model do not carry. *)
  pd_is_numeric_dtype : DataFrame cell -> string -> bool;
  st_validate_contributions :
    State -> Poly (DataFrame Q) -> DataFrame cell -> result (Poly (DataFrame Q));
  st_inverse_transform_contributions :
    State -> Poly (DataFrame Q) -> Encoder -> result (Poly (DataFrame Q));
  st_check_contributions :
    State -> Poly (DataFrame Q) -> DataFrame cell -> result bool;
  st_rank_contributions :
    State -> Poly (DataFrame Q) -> DataFrame cell -> result Ranked;
  st_assign_contributions : State -> Ranked -> result Data;
  st_compute_grouped_contributions :
    State -> Poly (DataFrame Q) -> gmap string (list string) ->
    result (Poly (DataFrame Q));
  st_compute_features_import :
    State -> Poly (DataFrame Q) -> result (Poly (list Q));
  st_summarize :
    State -> Poly (DataFrame Q) -> Poly (DataFrame Z) -> Poly (DataFrame cell) ->
    Poly (DataFrame bool) -> gmap nat string -> gmap string string ->
    result (Poly (DataFrame cell))
}.

Variable lib : Collaborators.
Variable masks : MaskAlgebra.

(** *** Small Python idioms *)

(** [{v: k for k, v in d.items()}].  The order of the items is not kept by
    the finite map, so which key survives among equal values is the
    map's, not the insertion order's. *)
Definition dict_inverse `{Countable K, Countable V} (d : gmap K V) : gmap V K :=
  map_fold (fun k v acc => <[v:=k]> acc) ∅ d.

(** [{i: col for i, col in enumerate(cols)}]. *)
Definition enumerate_dict (cols : list string) : gmap nat string := map_seq 0 cols.

(** Truthiness of an optional dictionary, list or number. *)
Definition truthy_dict `{Countable K} {V} (d : option (gmap K V)) : bool :=
  match d with Some m => negb (bool_decide (m = ∅)) | None => false end.

Definition truthy_list {A} (l : option (list A)) : bool :=
  match l with Some (_ :: _) => true | _ => false end.

Definition truthy_Q (q : option Q) : bool :=
  match q with Some t => negb (Qeq_bool t 0) | None => false end.

Definition truthy_Z (z : option Z) : bool :=
  match z with Some k => negb (k =? 0) | None => false end.

Definition when (b : bool) (m : Method unit) : Method unit :=
  if b then m else ret tt.

(** *** SmartExplainer.choose_state *)
Definition choose_state (contribs : Poly (DataFrame Q)) : State :=
  match contribs with
  | Many _ => MultiState
  | One _ => PlainState
  end.

(** *** SmartExplainer.adapt_contributions *)
Definition adapt_contributions (contribs : Poly (DataFrame Q))
  : Method (Poly (DataFrame Q)) :=
  c <- getattr _case ;;
  call (lib_adapt_contributions lib c contribs).

(** *** SmartExplainer.validate_contributions *)
Definition validate_contributions (contribs : Poly (DataFrame Q))
  : Method (Poly (DataFrame Q)) :=
  c <- getattr _case ;;
  cl <- getattr _classes ;;
  call (lib_check_contribution_object lib c cl contribs) ;;;
  st <- getattr state ;;
  x <- getattr x_init ;;
  call (st_validate_contributions lib st contribs x).

(** *** SmartExplainer.apply_preprocessing *)
Definition apply_preprocessing (contribs : Poly (DataFrame Q))
    (prep : option Encoder) : Method (Poly (DataFrame Q)) :=
  match prep with
  | Some enc =>
      st <- getattr state ;;
      call (st_inverse_transform_contributions lib st contribs enc)
  | None => ret contribs
  end.

(** *** SmartExplainer.check_y_pred *)
Definition check_y_pred (ypred : option (DataFrame cell))
  : Method (option (DataFrame cell)) :=
  x <- getattr x_pred ;;
  call (lib_check_ypred lib x ypred).

(** *** SmartExplainer.check_model *)
Definition check_model : Method (string * option (list Z)) :=
  m <- getattr model ;;
  call (lib_check_model lib m).

(** *** SmartExplainer.check_label_dict *)
Definition check_label_dict : Method unit :=
  c <- getattr _case ;;
  if negb (String.eqb c "regression") then
    ld <- getattr label_dict ;;
    cl <- getattr _classes ;;
    call (lib_check_label_dict lib ld c cl)
  else ret tt.

(** *** SmartExplainer.check_features_dict *)
Definition check_features_dict : Method unit :=
  cd <- getattr columns_dict ;;
  fd <- getattr features_dict ;;
  let missing : gset string := map_img cd ∖ dom fd in
  setattr features_dict (set_fold (fun feature d => <[feature:=feature]> d) fd missing).

(** *** SmartExplainer.check_contributions *)
Definition check_contributions : Method unit :=
  st <- getattr state ;;
  c <- getattr contributions ;;
  x <- getattr x_pred ;;
  ok <- call (st_check_contributions lib st c x) ;;
  if ok then ret tt
  else raise (ValueError "Prediction set and contributions should have exactly the same number of lines and number of columns. the order of the columns must be the same Please check x, contributions and preprocessing arguments.").

(** *** SmartExplainer.check_features_name *)
Definition check_features_name (features : list feature_ref) (use_groups : bool)
  : Method (list Z) :=
  cd <- (if use_groups then getattr columns_dict_groups else getattr columns_dict) ;;
  fd <- getattr features_dict ;;
  call (lib_check_features_name lib cd fd features).

Fixpoint for_each {A} (l : list A) (body : A -> Method unit) : Method unit :=
  match l with
  | [] => ret tt
  | a :: l' => body a ;;; for_each l' body
  end.

(** *** SmartExplainer.__init__ *)
Definition init (features_dict0 : gmap string string)
    (label_dict0 : option (gmap Z string)) (title_story0 : option string)
  : Method unit :=
  setattr features_dict features_dict0 ;;;
  setattr label_dict label_dict0 ;;;
  setattr title_story (default "" title_story0) ;;;
  setattr features_groups None.

(** *** SmartExplainer.check_postprocessing_modif_strings *)
Definition check_postprocessing_modif_strings (post : option (gmap string PostRule))
  : Method bool :=
  match post with
  | None => ret false
  | Some rules =>
      x <- getattr x_pred ;;
      call (foldl (fun (acc : result bool) (kr : string * PostRule) =>
                     result_bind acc (fun modif =>
                       if bool_decide (rule_type kr.2 ∈ ["prefix"; "suffix"]) then
                         result_bind (column x kr.1) (fun _ =>
                           Ok (if pd_is_numeric_dtype lib x kr.1 then true else modif))
                       else Ok modif))
                  (Ok false) (map_to_list rules))
  end.

(** *** SmartExplainer.modify_postprocessing *)

(** One turn of the loop: the rule of [key] goes under the technical name of
    the feature that [key] designates. *)
Definition rename_rule (fd : gmap string string) (cd : gmap nat string)
    (ifd : gmap string string) (new_dic : gmap string PostRule)
    (key : feature_ref) (rule : PostRule) : result (gmap string PostRule) :=
  match key with
  | ByName key =>
      if bool_decide (is_Some (fd !! key)) then Ok (<[key := rule]> new_dic)
      else match ifd !! key with
           | Some name => Ok (<[name := rule]> new_dic)
           | None =>
               Raise (ValueError
                        ("Feature name '" +:+ key +:+ "' not found in the dataset."))
           end
  | ById key =>
      match cd !! key with
      | Some name => Ok (<[name := rule]> new_dic)
      | None => Raise (ValueError "Feature name not found in the dataset.")
      end
  end.

Definition modify_postprocessing (post : option (list (feature_ref * PostRule)))
  : Method (option (gmap string PostRule)) :=
  match post with
  | None | Some [] => ret None
  | Some rules =>
      fd <- getattr features_dict ;;
      cd <- getattr columns_dict ;;
      ifd <- getattr inv_features_dict ;;
      r <- call (foldl (fun (acc : result (gmap string PostRule))
                            (kr : feature_ref * PostRule) =>
                          result_bind acc (fun new_dic =>
                            rename_rule fd cd ifd new_dic kr.1 kr.2))
                       (Ok ∅) rules) ;;
      ret (Some r)
  end.

(** *** SmartExplainer.check_postprocessing *)
Definition check_postprocessing (post : option (gmap string PostRule)) : Method unit :=
  x <- getattr x_pred ;;
  call (lib_check_postprocessing lib x post).

(** *** SmartExplainer.apply_postprocessing *)
Definition apply_postprocessing (post : option (gmap string PostRule))
  : Method (DataFrame cell) :=
  x <- getattr x_pred ;;
  if truthy_dict post then
    call (lib_apply_postprocessing lib x (default ∅ post))
  else ret x.

(** *** SmartExplainer.check_features_desc *)
Definition check_features_desc : Method (gmap string nat) :=
  x <- getattr x_pred ;;
  ret (nunique x).

(** *** SmartExplainer._update_features_dict_with_groups *)
Definition _update_features_dict_with_groups (groups : gmap string (list string))
  : Method unit :=
  for_each (map_to_list groups).*1 (fun group_name =>
    desc <- getattr features_desc ;;
    setattr features_desc (<[group_name := 1000%nat]> desc) ;;;
    fd <- getattr features_dict ;;
    if bool_decide (is_Some (fd !! group_name)) then ret tt
    else
      setattr features_dict (<[group_name := group_name]> fd) ;;;
      ifd <- getattr inv_features_dict ;;
      setattr inv_features_dict (<[group_name := group_name]> ifd)).

(** *** SmartExplainer._compile_features_groups *)
Definition _compile_features_groups (groups : gmap string (list string)) : Method unit :=
  st <- getattr state ;;
  c <- getattr contributions ;;
  cg <- call (st_compute_grouped_contributions lib st c groups) ;;
  setattr contributions_groups cg ;;;
  setattr features_imp_groups None ;;;
  _update_features_dict_with_groups groups ;;;
  xp <- getattr x_pred ;;
  xi <- getattr x_init ;;
  prep <- getattr preprocessing ;;
  fg <- getattr features_groups ;;
  fd <- getattr features_dict ;;
  xg <- call (lib_create_grouped_features_values lib xp xi prep fg fd) ;;
  setattr x_pred_groups xg ;;;
  st <- getattr state ;;
  cg <- getattr contributions_groups ;;
  xg <- getattr x_pred_groups ;;
  ranked <- call (st_rank_contributions lib st cg xg) ;;
  d <- call (st_assign_contributions lib st ranked) ;;
  setattr data_groups d ;;;
  xg <- getattr x_pred_groups ;;
  setattr columns_dict_groups (enumerate_dict (columns xg)).

Definition just_one_msg : string :=
  "You have to specify just one of these arguments: explainer, contributions".

(** *** SmartExplainer.compile *)
Definition compile (x : DataFrame cell) (model0 : ModelObj)
    (explainer0 : option ExplainerObj) (contributions0 : option (Poly (DataFrame Q)))
    (y_pred0 : option (DataFrame cell)) (preprocessing0 : option Encoder)
    (postprocessing0 : option (list (feature_ref * PostRule)))
    (title_story0 : option string)
    (features_groups0 : option (gmap string (list string))) : Method unit :=
  setattr x_init x ;;;
  xi <- getattr x_init ;;
  xp <- call (lib_inverse_transform lib xi preprocessing0) ;;
  setattr x_pred xp ;;;
  setattr preprocessing preprocessing0 ;;;
  setattr model model0 ;;;
  cc <- check_model ;;
  setattr _case cc.1 ;;;
  setattr _classes cc.2 ;;;
  check_label_dict ;;;
  ld <- getattr label_dict ;;
  when (truthy_dict ld) (setattr inv_label_dict (dict_inverse (default ∅ ld))) ;;;
  match explainer0, contributions0 with
  | Some _, Some _ => raise (ValueError just_one_msg)
  | _, _ => ret tt
  end ;;;
  ce <- match contributions0 with
        | None =>
            xi <- getattr x_init ;;
            checked <- call (lib_check_explainer lib explainer0) ;;
            call (lib_shap_contributions lib model0 xi checked)
        | Some c => ret (c, explainer0)
        end ;;
  adapt_contrib <- adapt_contributions ce.1 ;;
  setattr state (choose_state adapt_contrib) ;;;
  validated <- validate_contributions adapt_contrib ;;
  contribs <- apply_preprocessing validated preprocessing0 ;;
  setattr contributions contribs ;;;
  check_contributions ;;;
  setattr explainer ce.2 ;;;
  yp <- check_y_pred y_pred0 ;;
  setattr y_pred yp ;;;
  xp <- getattr x_pred ;;
  setattr columns_dict (enumerate_dict (columns xp)) ;;;
  cd <- getattr columns_dict ;;
  setattr inv_columns_dict (dict_inverse cd) ;;;
  check_features_dict ;;;
  fd <- getattr features_dict ;;
  setattr inv_features_dict (dict_inverse fd) ;;;
  post <- modify_postprocessing postprocessing0 ;;
  check_postprocessing post ;;;
  modif <- check_postprocessing_modif_strings post ;;
  setattr postprocessing_modifications modif ;;;
  setattr postprocessing post ;;;
  modif <- getattr postprocessing_modifications ;;
  when modif (xp <- getattr x_pred ;; setattr x_contrib_plot xp) ;;;
  xp <- apply_postprocessing post ;;
  setattr x_pred xp ;;;
  st <- getattr state ;;
  contribs <- getattr contributions ;;
  xp <- getattr x_pred ;;
  ranked <- call (st_rank_contributions lib st contribs xp) ;;
  d <- call (st_assign_contributions lib st ranked) ;;
  setattr data d ;;;
  setattr features_imp None ;;;
  desc <- check_features_desc ;;
  setattr features_desc desc ;;;
  match title_story0 with
  | Some t => setattr title_story t
  | None => ret tt
  end ;;;
  setattr features_groups features_groups0 ;;;
  when (truthy_dict features_groups0)
       (_compile_features_groups (default ∅ features_groups0)) ;;;
  setattr local_neighbors None ;;;
  setattr features_stability None ;;;
  setattr features_compacity None.

(** *** SmartExplainer.add *)
Definition add (y_pred0 : option (DataFrame cell)) (label_dict0 : option (gmap Z string))
    (features_dict0 : option (gmap string string)) (title_story0 : option string)
  : Method unit :=
  match y_pred0 with
  | Some _ => yp <- check_y_pred y_pred0 ;; setattr y_pred yp
  | None => ret tt
  end ;;;
  match label_dict0 with
  | Some ld =>
      setattr label_dict (Some ld) ;;;
      check_label_dict ;;;
      ld <- getattr label_dict ;;
      setattr inv_label_dict (dict_inverse (default ∅ ld))
  | None => ret tt
  end ;;;
  match features_dict0 with
  | Some fd =>
      setattr features_dict fd ;;;
      check_features_dict ;;;
      fd <- getattr features_dict ;;
      setattr inv_features_dict (dict_inverse fd)
  | None => ret tt
  end ;;;
  match title_story0 with
  | Some t => setattr title_story t
  | None => ret tt
  end.

(** [display_groups is not False and self.features_groups is not None]. *)
Definition groups_shown (flag : option bool) (fg : option (gmap string (list string)))
  : bool :=
  negb (bool_decide (flag = Some false)) && bool_decide (is_Some fg).

(** *** SmartExplainer.filter *)

(** Lines 729-756: the data to filter, the masks of the criteria that are
    supplied, and their combination, stored in [self.mask]. *)
Definition filter_combine (features_to_hide : option (list feature_ref))
    (threshold : option Q) (positive : option bool)
    (display_groups : option bool) : Method Data :=
  fg <- getattr features_groups ;;
  let display_groups := groups_shown display_groups fg in
  d <- (if display_groups then getattr data_groups else getattr data) ;;
  st <- getattr state ;;
  m0 <- call (init_mask masks st (contrib_sorted d) true) ;;
  let mask_list := [m0] in
  mask_list <-
    (if truthy_list features_to_hide then
       st <- getattr state ;;
       ids <- check_features_name (default [] features_to_hide) display_groups ;;
       m <- call (hide_contributions masks st (var_dict d) ids) ;;
       ret (mask_list ++ [m])
     else ret mask_list) ;;
  mask_list <-
    (if truthy_Q threshold then
       st <- getattr state ;;
       m <- call (cap_contributions masks st (contrib_sorted d) (default 0%Q threshold)) ;;
       ret (mask_list ++ [m])
     else ret mask_list) ;;
  mask_list <-
    (match positive with
     | Some p =>
         st <- getattr state ;;
         m <- call (sign_contributions masks st (contrib_sorted d) p) ;;
         ret (mask_list ++ [m])
     | None => ret mask_list
     end) ;;
  st <- getattr state ;;
  combined <- call (combine_masks masks st mask_list) ;;
  setattr mask combined ;;;
  ret d.

(** Lines 757-758: the cutoff, on [self.mask]. *)
Definition filter_cutoff (max_contrib : option Z) : Method unit :=
  when (truthy_Z max_contrib)
       (st <- getattr state ;;
        m <- getattr mask ;;
        cut <- call (cutoff_contributions masks st m (default 0 max_contrib)) ;;
        setattr mask cut).

(** Lines 759-768: the masked contributions and the parameters kept. *)
Definition filter_store (d : Data) (params : MaskParams) : Method unit :=
  st <- getattr state ;;
  m <- getattr mask ;;
  masked <- call (compute_masked_contributions masks st (contrib_sorted d) m) ;;
  setattr masked_contributions masked ;;;
  setattr mask_params params.

Definition filter (features_to_hide : option (list feature_ref))
    (threshold : option Q) (positive : option bool) (max_contrib : option Z)
    (display_groups : option bool) : Method unit :=
  d <- filter_combine features_to_hide threshold positive display_groups ;;
  filter_cutoff max_contrib ;;;
  filter_store d
    {| p_features_to_hide := features_to_hide; p_threshold := threshold;
       p_positive := positive; p_max_contrib := max_contrib |}.

(** *** SmartExplainer.predict_proba *)
Definition predict_proba : Method unit :=
  m <- getattr model ;;
  x <- getattr x_init ;;
  cl <- getattr _classes ;;
  p <- call (lib_predict_proba lib m x cl) ;;
  setattr proba_values p.

(** *** SmartExplainer.predict *)
Definition predict : Method unit :=
  m <- getattr model ;;
  x <- getattr x_init ;;
  y <- call (lib_predict lib m x) ;;
  setattr y_pred (Some y).

Definition need_y_pred_msg : string :=
  "You have to specify y_pred argument. Please use add() or compile() method".

(** The test of [to_pandas] on the shape of the mask computed before: the
    numbers of columns of contrib_sorted and of the mask, of the table or of
    the first table of the list. *)
Definition mask_fits (cs : Poly (DataFrame Q)) : Method bool :=
  match cs with
  | One c =>
      m <- getattr mask ;;
      match m with
      | One mk => ret (bool_decide (length (columns c) = length (columns mk)))
      | Many _ => raise (AttributeError "columns")
      end
  | Many l =>
      match l with
      | [] => raise (IndexError "list index out of range")
      | c :: _ =>
          m <- getattr mask ;;
          match m with
          | Many (mk :: _) => ret (bool_decide (length (columns c) = length (columns mk)))
          | Many [] => raise (IndexError "list index out of range")
          | One _ => raise (KeyError "0")
          end
      end
  end.

Definition all_none (features_to_hide : option (list feature_ref))
    (threshold : option Q) (positive : option bool) (max_contrib : option Z) : bool :=
  match features_to_hide, threshold, positive, max_contrib with
  | None, None, None, None => true
  | _, _, _, _ => false
  end.

(** *** SmartExplainer.to_pandas *)

(** Lines 900-918: [filter] is run unless no criterion is given and the mask
    of an earlier call fits. *)
Definition apply_filter_if_necessary (d : Data)
    (features_to_hide : option (list feature_ref)) (threshold : option Q)
    (positive : option bool) (max_contrib : option Z) (use_groups : bool)
  : Method unit :=
  reuse <-
    (if all_none features_to_hide threshold positive max_contrib then
       fun self =>
         if hasattr self mask_params then mask_fits (contrib_sorted d) self
         else (Ok false, self)
     else ret false) ;;
  if reuse then ret tt
  else filter features_to_hide threshold positive max_contrib (Some use_groups).

(** Lines 919-943: the summary, stored in the data dictionary, and its join
    with the prediction. *)
Definition summarize_and_join (d : Data) (proba use_groups : bool)
  : Method (DataFrame cell) :=
  cols <- (if use_groups then
             xg <- getattr x_pred_groups ;; ret (enumerate_dict (columns xg))
           else getattr columns_dict) ;;
  st <- getattr state ;;
  m <- getattr mask ;;
  fd <- getattr features_dict ;;
  s <- call (st_summarize lib st (contrib_sorted d) (var_dict d) (x_sorted d) m cols fd) ;;
  (if use_groups then setattr data_groups (set_summary s d)
   else setattr data (set_summary s d)) ;;;
  proba_opt <- (if proba then
                  predict_proba ;;;
                  p <- getattr proba_values ;; ret (Some p)
                else ret None) ;;
  y <- getattr y_pred ;;
  c <- getattr _case ;;
  cl <- getattr _classes ;;
  ld <- getattr label_dict ;;
  ys <- call (lib_keep_right_contributions lib y s c cl ld proba_opt) ;;
  ret (pd_concat ys.1 ys.2).

Definition to_pandas (features_to_hide : option (list feature_ref))
    (threshold : option Q) (positive : option bool) (max_contrib : option Z)
    (proba : bool) (use_groups : option bool) : Method (DataFrame cell) :=
  fg <- getattr features_groups ;;
  let use_groups := groups_shown use_groups fg in
  d <- (if use_groups then getattr data_groups else getattr data) ;;
  yp <- getattr y_pred ;;
  match yp with
  | None => raise (ValueError need_y_pred_msg)
  | Some _ =>
      apply_filter_if_necessary d features_to_hide threshold positive max_contrib
                                use_groups ;;;
      summarize_and_join d proba use_groups
  end.

(** *** SmartExplainer.compute_features_import *)
Definition compute_features_import (force : bool) : Method unit :=
  fg <- getattr features_groups ;;
  (if bool_decide (is_Some fg) then
     fig <- getattr features_imp_groups ;;
     match fig with
     | None =>
         st <- getattr state ;;
         cg <- getattr contributions_groups ;;
         imp <- call (st_compute_features_import lib st cg) ;;
         setattr features_imp_groups (Some imp)
     | Some _ => ret tt
     end
   else ret tt) ;;;
  fi <- getattr features_imp ;;
  if bool_decide (fi = None) || force then
    st <- getattr state ;;
    c <- getattr contributions ;;
    imp <- call (st_compute_features_import lib st c) ;;
    setattr features_imp (Some imp)
  else ret tt.

Definition multiclass_msg : string := "Multi-class classification is not supported".

(** [(self._case == "classification") and (len(self._classes) > 2)], raising
    when it holds. *)
Definition reject_multiclass : Method unit :=
  c <- getattr _case ;;
  if String.eqb c "classification" then
    cl <- getattr _classes ;;
    match cl with
    | None => raise (TypeError "object of type 'NoneType' has no len()")
    | Some classes =>
        if bool_decide (2 < length classes)%nat
        then raise (AssertionError multiclass_msg)
        else ret tt
    end
  else ret tt.

(** The loop of [compute_features_stability] over the selected instances. *)
Fixpoint stability_rows (all_neighbors : list ndarray) (f : nat) (rows : list nat)
    (variability0 amplitude0 : ndarray) : Method (ndarray * ndarray) :=
  match rows with
  | [] => ret (variability0, amplitude0)
  | i :: rows' =>
      match all_neighbors !! i with
      | None => raise (IndexError "list index out of range")
      | Some nb =>
          xi <- getattr x_init ;;
          contribs <- getattr contributions ;;
          r <- call (lib_shap_neighbors lib nb xi contribs) ;;
          variability1 <- call (np_set_row variability0 f i r.1.2) ;;
          amplitude1 <- call (np_set_row amplitude0 f i r.2) ;;
          stability_rows all_neighbors f rows' variability1 amplitude1
      end
  end.

(** *** SmartExplainer.compute_features_stability *)
Definition compute_features_stability (selection : list Z) : Method unit :=
  reject_multiclass ;;;
  xi <- getattr x_init ;;
  m <- getattr model ;;
  c <- getattr _case ;;
  all_neighbors <- call (lib_find_neighbors lib selection xi m c) ;;
  if bool_decide (length selection = 1%nat) then
    match all_neighbors !! 0%nat with
    | None => raise (IndexError "list index out of range")
    | Some nb =>
        xi <- getattr x_init ;;
        contribs <- getattr contributions ;;
        r <- call (lib_shap_neighbors lib nb xi contribs) ;;
        setattr local_neighbors (Some {| norm_shap := r.1.1 |})
    end
  else
    let numb_expl := length selection in
    xp <- getattr x_pred ;;
    let amplitude0 := np_zeros numb_expl (shape xp).2 in
    xp <- getattr x_pred ;;
    let variability0 := np_zeros numb_expl (shape xp).2 in
    va <- stability_rows all_neighbors (shape xp).2 (seq 0 numb_expl)
                         variability0 amplitude0 ;;
    setattr features_stability (Some {| variability := va.1; amplitude := va.2 |}).

(** *** SmartExplainer.compute_features_compacity *)
Definition compute_features_compacity (selection : list Z) (distance : Q)
    (nb_features : Z) : Method unit :=
  reject_multiclass ;;;
  contribs <- getattr contributions ;;
  c <- getattr _case ;;
  needed <- call (lib_get_min_nb_features lib selection contribs c distance) ;;
  contribs <- getattr contributions ;;
  c <- getattr _case ;;
  reached <- call (lib_get_distance lib selection contribs c nb_features) ;;
  let reached := np_clip reached 0%Q 1%Q in
  setattr features_compacity
    (Some {| features_needed := needed; distance_reached := reached |}).

(** *** SmartExplainer.check_label_name *)

(** A label: an int (a position or a class code) or a string (a business
    name). *)
Inductive label : Type :=
| LInt (z : Z)
| LStr (s : string).

(** What [check_label_name] raises: an exception of the lines before the try
    block, or one of the two [Exception({"message": ...})] of its handlers. *)
Inductive label_exn : Type :=
| Uncaught (e : exn)
| OriginMustBe
| LabelNotFound (l : label) (origin : option string).

(** [l[z]], with the negative positions of Python. *)
Definition py_getitem {A} (l : list A) (z : Z) : result A :=
  let i := if z <? 0 then z + Z.of_nat (length l) else z in
  if i <? 0 then Raise (IndexError "list index out of range")
  else match l !! Z.to_nat i with
       | Some a => Ok a
       | None => Raise (IndexError "list index out of range")
       end.

(** [l.index(z)]. *)
Definition py_index (l : list Z) (z : Z) : result nat :=
  match list_find (fun c => c = z) l with
  | Some (i, _) => Ok i
  | None => Raise (ValueError "is not in list")
  end.

(** [label in self._classes]: a string is equal to no class code. *)
Definition label_in_classes (l : label) (classes : list Z) : bool :=
  match l with
  | LInt z => bool_decide (z ∈ classes)
  | LStr _ => false
  end.

(** [label in self.label_dict.values()]: an int is equal to no name. *)
Definition label_in_values (l : label) (d : gmap Z string) : bool :=
  match l with
  | LInt _ => false
  | LStr s => bool_decide (s ∈ (map_img d : gset string))
  end.

(** Lines 612-618: the origin, guessed when it is not given. *)
Definition guess_origin (l : label) (origin : option string) : Method (option string) :=
  match origin with
  | Some o => ret (Some o)
  | None =>
      cl <- getattr _classes ;;
      match cl with
      | None => raise (TypeError "argument of type 'NoneType' is not iterable")
      | Some classes =>
          if label_in_classes l classes then ret (Some "code")
          else
            ld <- getattr label_dict ;;
            if match ld with
               | Some d => label_in_values l d
               | None => false
               end
            then ret (Some "value")
            else
              match l with
              | LInt z =>
                  cl <- getattr _classes ;;
                  match cl with
                  | None => raise (TypeError "object of type 'NoneType' has no len()")
                  | Some classes =>
                      if (-1 <=? z) && (z <? Z.of_nat (length classes))
                      then ret (Some "num") else ret None
                  end
              | LStr _ => ret None
              end
      end
  end.

(** [self.label_dict[label_code] if self.label_dict else label_code]. *)
Definition label_value_of (code : Z) : Method label :=
  ld <- getattr label_dict ;;
  if truthy_dict ld then
    ld <- getattr label_dict ;;
    match default ∅ ld !! code with
    | Some v => ret (LStr v)
    | None => raise (KeyError "label_code")
    end
  else ret (LInt code).

(** [self._classes.index(code)]. *)
Definition class_position (code : label) : Method Z :=
  cl <- getattr _classes ;;
  match cl with
  | None => raise (AttributeError "index")
  | Some classes =>
      match code with
      | LInt z => i <- call (py_index classes z) ;; ret (Z.of_nat i)
      | LStr _ => raise (ValueError "is not in list")
      end
  end.

(** Lines 621-635: the body of the try block. *)
Definition read_label (l : label) (origin : option string) : Method (Z * Z * label) :=
  if bool_decide (origin = Some "num") then
    cl <- getattr _classes ;;
    match cl, l with
    | None, _ => raise (TypeError "'NoneType' object is not subscriptable")
    | Some _, LStr _ => raise (TypeError "list indices must be integers or slices, not str")
    | Some classes, LInt z =>
        label_code <- call (py_getitem classes z) ;;
        label_value <- label_value_of label_code ;;
        ret (z, label_code, label_value)
    end
  else if bool_decide (origin = Some "code") then
    label_num <- class_position l ;;
    match l with
    | LInt label_code =>
        label_value <- label_value_of label_code ;;
        ret (label_num, label_code, label_value)
    | LStr _ => raise (KeyError "label_code")
    end
  else if bool_decide (origin = Some "value") then
    ild <- getattr inv_label_dict ;;
    match l with
    | LStr s =>
        match ild !! s with
        | Some label_code =>
            label_num <- class_position (LInt label_code) ;;
            ret (label_num, label_code, l)
        | None => raise (KeyError s)
        end
    | LInt _ => raise (KeyError "label")
    end
  else raise (ValueError "").

(** The two handlers turn a ValueError of the try block into the first
    Exception and any other exception into the second. *)
Definition check_label_name (l : label) (origin : option string) (self : Self)
  : label_exn + Z * Z * label :=
  match guess_origin l origin self with
  | (Raise e, _) => inl (Uncaught e)
  | (Ok origin, self) =>
      match read_label l origin self with
      | (Ok found, _) => inr found
      | (Raise (ValueError _), _) => inl OriginMustBe
      | (Raise _, _) => inl (LabelNotFound l origin)
      end
  end.

End Methods.

Arguments Collaborators : clear implicits.

End SmartExplainer.

(** ** Notions used to state the properties *)

Section Notions.

Context {ModelObj ExplainerObj Encoder : Type}.

Abbreviation Self := (Obj ModelObj ExplainerObj Encoder).
Abbreviation Method := (M ModelObj ExplainerObj Encoder).

(** A method that assigns no attribute outside [touched]. *)
Definition assigns_only {A} (touched : list attr) (m : Method A) : Prop :=
  forall (self : Self) (a : attr), a ∉ touched -> (m self).2 a = self a.

(** A method that never raises the exception [e]. *)
Definition never_raises {A} (e : exn) (m : Method A) : Prop :=
  forall self : Self, (m self).1 <> Raise e.

(** The explainer is set for a classification with more than two classes. *)
Definition multiclass (self : Self) : Prop :=
  self _case = Some "classification" /\
  exists classes, self _classes = Some (Some classes) /\ (2 < length classes)%nat.

(** The neighbour and distance functions do not themselves raise the
    exception [e]. *)
Definition diagnostics_never_raise
    (lib : SmartExplainer.Collaborators ModelObj ExplainerObj Encoder) (e : exn) : Prop :=
  (forall sel (x : DataFrame cell) (m : ModelObj) c,
      SmartExplainer.lib_find_neighbors lib sel x m c <> Raise e) /\
  (forall nb x c, SmartExplainer.lib_shap_neighbors lib nb x c <> Raise e) /\
  (forall sel c k d, SmartExplainer.lib_get_min_nb_features lib sel c k d <> Raise e) /\
  (forall sel c k n, SmartExplainer.lib_get_distance lib sel c k n <> Raise e).

End Notions.

(** ** A small session to run the methods on

    Stand-ins for the collaborators, each returning at once, and a few
    stores.  The model, the SHAP explainer and the encoder carry no
    information here. *)

Module Demo.

Definition zeros (x : DataFrame cell) : DataFrame Q := df_map (fun _ => 0%Q) x.

Definition positions (c : DataFrame Q) : DataFrame Z :=
  {| columns := columns c; index := index c;
     values := map (fun row : list Q => imap (fun i _ => Z.of_nat i) row) (values c) |}.

Definition lib : SmartExplainer.Collaborators unit unit unit := {|
  SmartExplainer.lib_inverse_transform x _ := Ok x;
  SmartExplainer.lib_apply_postprocessing x _ := Ok x;
  SmartExplainer.lib_adapt_contributions _ c := Ok c;
  SmartExplainer.lib_shap_contributions _ x e := Ok (One (zeros x), e);
  SmartExplainer.lib_check_explainer e := Ok e;
  SmartExplainer.lib_check_model _ := Ok ("regression", None);
  SmartExplainer.lib_check_label_dict _ _ _ := Ok tt;
  SmartExplainer.lib_check_ypred _ y := Ok y;
  SmartExplainer.lib_check_contribution_object _ _ _ := Ok tt;
  SmartExplainer.lib_check_postprocessing _ _ := Ok tt;
  SmartExplainer.lib_check_features_name cd _ features :=
    Ok (omap (fun f => match f with
                       | ById i => Some (Z.of_nat i)
                       | ByName s =>
                           (fun ic : nat * string => Z.of_nat ic.1)
                             <$> head (base.filter (fun ic : nat * string => ic.2 = s)
                                                   (map_to_list cd))
                       end) features);
  SmartExplainer.lib_keep_right_contributions y s _ _ _ _ :=
    match y, s with
    | Some y, One s => Ok (y, s)
    | Some y, Many (s :: _) => Ok (y, s)
    | _, _ => Raise (External "keep_right_contributions")
    end;
  SmartExplainer.lib_create_grouped_features_values xp _ _ _ _ := Ok xp;
  SmartExplainer.lib_predict_proba _ x _ := Ok (zeros x);
  SmartExplainer.lib_predict _ x := Ok x;
  SmartExplainer.lib_find_neighbors sel _ _ _ := Ok (map (fun _ => [[1%Q]]) sel);
  SmartExplainer.lib_shap_neighbors nb x _ :=
    Ok (nb, replicate (length (columns x)) (1 # 2)%Q, replicate (length (columns x)) 1%Q);
  SmartExplainer.lib_get_min_nb_features sel _ _ _ := Ok (map (fun _ => 1) sel);
  SmartExplainer.lib_get_distance sel _ _ _ :=
    Ok (map (fun i => if i <? 0 then NaN else Finite (i # 2)%Q) sel);
  SmartExplainer.pd_is_numeric_dtype x key :=
    match column x key with
    | Ok col => forallb (fun c => match c with CStr _ => false | _ => true end) col
    | Raise _ => false
    end;
  SmartExplainer.st_validate_contributions _ c _ := Ok c;
  SmartExplainer.st_inverse_transform_contributions _ c _ := Ok c;
  SmartExplainer.st_check_contributions _ _ _ := Ok true;
  SmartExplainer.st_rank_contributions _ c x :=
    Ok (c, poly_map positions c, poly_map (fun _ => x) c);
  SmartExplainer.st_assign_contributions _ r :=
    Ok {| contrib_sorted := r.1.1; var_dict := r.1.2; x_sorted := r.2; summary := None |};
  SmartExplainer.st_compute_grouped_contributions _ c _ := Ok c;
  SmartExplainer.st_compute_features_import _ c :=
    Ok (poly_map (fun d : DataFrame Q => map (fun _ => 1%Q) (columns d)) c);
  SmartExplainer.st_summarize _ _ _ xs _ _ _ := Ok xs
|}.

(** An object none of whose attributes is assigned yet. *)
Definition blank : Obj unit unit unit := fun _ => None.

(** Two instances, three features. *)
Definition x : DataFrame cell :=
  {| columns := ["age"; "fare"; "sex"]; index := [0; 1];
     values := [[CNum 22%Q; CNum (7 # 1)%Q; CStr "m"];
                [CNum 38%Q; CNum (71 # 1)%Q; CStr "f"]] |}.

Definition contribs : DataFrame Q :=
  {| columns := ["age"; "fare"; "sex"]; index := [0; 1];
     values := [[(1 # 2)%Q; (-1 # 4)%Q; (1 # 10)%Q];
                [(-3 # 10)%Q; (1 # 5)%Q; 0%Q]] |}.

Definition y : DataFrame cell :=
  {| columns := ["pred"]; index := [0; 1]; values := [[CNum 1%Q]; [CNum 0%Q]] |}.

(** The ranked data that compile leaves. *)
Definition ranked : Data :=
  {| contrib_sorted := One contribs; var_dict := One (positions contribs);
     x_sorted := One x; summary := None |}.

(** The explainer after __init__ and compile, for a regression, with and
    without prediction values. *)
Definition compiled_with (y0 : option (DataFrame cell))
  : Obj unit unit unit :=
  (SmartExplainer.compile lib x tt None (Some (One contribs)) y0 None None None None
     (SmartExplainer.init {["age" := "Age"]} None None blank).2).2.

Definition compiled : Obj unit unit unit := compiled_with (Some y).

(** The attributes that tell a classification with three classes. *)
Definition three_classes : Obj unit unit unit :=
  assign _case "classification" (assign _classes (Some [0; 1; 2]) compiled).

End Demo.

Section MoreNotions.

Context {ModelObj ExplainerObj Encoder : Type}.

(** The explainer is set for a regression or for a classification with at
    most two classes. *)
Definition binary_or_regression (self : Obj ModelObj ExplainerObj Encoder) : Prop :=
  self _case = Some "regression" \/
  (self _case = Some "classification" /\
   exists classes, self _classes = Some (Some classes) /\ (length classes <= 2)%nat).

(** An array of [n] rows and [f] columns. *)
Definition has_shape (a : ndarray) (n f : nat) : Prop :=
  length a = n /\ Forall (fun row => length row = f) a.

End MoreNotions.

Section FilterNotions.

Context {ModelObj ExplainerObj Encoder : Type}.

(** A method that raises on every store. *)
Definition fails {A} (m : M ModelObj ExplainerObj Encoder A) : Prop :=
  forall self, exists e, (m self).1 = Raise e.

End FilterNotions.

(** The number of true entries of a row. *)
Fixpoint count_true (row : list bool) : nat :=
  match row with
  | [] => O
  | true :: row' => S (count_true row')
  | false :: row' => count_true row'
  end.

(** A mask in which, row by row, an entry stays true when it is true and
    fewer than [k] entries before it are. *)
Definition first_visible (k : nat) (row : list bool) : list bool :=
  imap (fun i b => b && bool_decide (count_true (take i row) < k)%nat) row.

Definition cut_rows (k : nat) (m : DataFrame bool) : DataFrame bool :=
  {| columns := columns m; index := index m;
     values := map (first_visible k) (values m) |}.

(** The all-true mask with the labels and the shape of a table. *)
Definition all_true {A} (d : DataFrame A) : DataFrame bool :=
  {| columns := columns d; index := index d;
     values := map (map (fun _ => true)) (values d) |}.

(** The state object and the data it is given go together: one table for
    SmartState, a list with at least one table for the decorator. *)
Definition fits {A} (st : State) (x : Poly A) : Prop :=
  match st, x with
  | PlainState, One _ => True
  | MultiState, Many (_ :: _) => True
  | _, _ => False
  end.

(** ** The mask that the criteria describe *)

(** Whether a ranked position stays visible: [x] is its contribution and [v]
    the identifier of its feature; a criterion that is [None] asks nothing. *)
Definition visible (ids : option (list Z)) (threshold : option Q)
    (positive : option bool) (x : Q) (v : Z) : bool :=
  match ids with
  | Some l => negb (bool_decide (v ∈ l))
  | None => true
  end
  && match threshold with
     | Some t => Qle_bool t (Qabs x)
     | None => true
     end
  && match positive with
     | Some true => negb (Qle_bool x 0)
     | Some false => negb (Qle_bool 0 x)
     | None => true
     end.

Definition criteria_mask (ids : option (list Z)) (threshold : option Q)
    (positive : option bool) (c : DataFrame Q) (v : DataFrame Z) : DataFrame bool :=
  {| columns := columns c; index := index c;
     values := zip_with (zip_with (visible ids threshold positive)) (values c) (values v) |}.

Definition poly_zip {A B C} (f : A -> B -> C) (x : Poly A) (y : Poly B) : Poly C :=
  match x, y with
  | One a, One b => One (f a b)
  | Many la, Many lb => Many (zip_with f la lb)
  | One a, Many _ => Many []
  | Many _, One _ => Many []
  end.

(** Two tables with as many rows, and as many cells in each row. *)
Definition same_dims {A B} (c : DataFrame A) (v : DataFrame B) : Prop :=
  Forall2 (fun r1 r2 => length r1 = length r2) (values c) (values v).

(** contrib_sorted and var_dict have identical shapes, class by class. *)
Definition aligned (d : Data) : Prop :=
  match contrib_sorted d, var_dict d with
  | One c, One v => same_dims c v
  | Many cs, Many vs => Forall2 same_dims cs vs
  | _, _ => False
  end.

(** The data that [filter] and [to_pandas] work on. *)
Definition shown_data {ModelObj ExplainerObj Encoder}
    (flag : option bool) (self : Obj ModelObj ExplainerObj Encoder) : option Data :=
  match self features_groups with
  | Some fg => if SmartExplainer.groups_shown flag fg then self data_groups else self data
  | None => None
  end.

(** The cells of contrib_sorted paired with those of var_dict. *)
Definition grid (c : DataFrame Q) (v : DataFrame Z) : list (list (Q * Z)) :=
  zip_with zip (values c) (values v).

(** A mask given, cell by cell, by a test on the grid. *)
Definition on_grid (P : list (list (Q * Z))) (g : Q * Z -> bool) (m : DataFrame bool)
  : Prop :=
  values m = map (map g) P.

(** The masks that [filter] adds to the all-true mask, for one table: one
    for each criterion in force, and the test each of them makes. *)
Definition criteria_frames (ids : option (list Z)) (threshold : option Q)
    (positive : option bool) (c : DataFrame Q) (v : DataFrame Z)
  : list (DataFrame bool) :=
  match ids with Some l => [SmartState.hide_contributions v l] | None => [] end
  ++ match threshold with
     | Some t => [df_map (fun x => Qle_bool t (Qabs x)) c]
     | None => []
     end
  ++ match positive with
     | Some p => [SmartState.sign_contributions c p]
     | None => []
     end.

Definition criteria_tests (ids : option (list Z)) (threshold : option Q)
    (positive : option bool) : list (Q * Z -> bool) :=
  match ids with
  | Some l => [fun x : Q * Z => negb (bool_decide (x.2 ∈ l))]
  | None => []
  end
  ++ match threshold with
     | Some t => [fun x : Q * Z => Qle_bool t (Qabs x.1)]
     | None => []
     end
  ++ match positive with
     | Some p => [fun x : Q * Z =>
                    if p then negb (Qle_bool x.1 0) else negb (Qle_bool 0 x.1)]
     | None => []
     end.

(** The list of masks that [filter] hands to combine_masks, as tables or as
    lists of tables. *)
Definition criteria_polys (ids : option (list Z)) (threshold : option Q)
    (positive : option bool) (cs : Poly (DataFrame Q)) (vd : Poly (DataFrame Z))
  : list (Poly (DataFrame bool)) :=
  [poly_map (fun c => SmartState.init_mask c true) cs]
  ++ match ids with
     | Some l => [poly_map (fun v => SmartState.hide_contributions v l) vd]
     | None => []
     end
  ++ match threshold with
     | Some t => [poly_map (df_map (fun x => Qle_bool t (Qabs x))) cs]
     | None => []
     end
  ++ match positive with
     | Some p => [poly_map (fun c => SmartState.sign_contributions c p) cs]
     | None => []
     end.

(** The same masks, each as a function of a pair of tables. *)
Definition criteria_makers (ids : option (list Z)) (threshold : option Q)
    (positive : option bool) : list (DataFrame Q * DataFrame Z -> DataFrame bool) :=
  [fun cv : DataFrame Q * DataFrame Z => SmartState.init_mask cv.1 true]
  ++ match ids with
     | Some l => [fun cv : DataFrame Q * DataFrame Z => SmartState.hide_contributions cv.2 l]
     | None => []
     end
  ++ match threshold with
     | Some t => [fun cv : DataFrame Q * DataFrame Z =>
                    df_map (fun x => Qle_bool t (Qabs x)) cv.1]
     | None => []
     end
  ++ match positive with
     | Some p => [fun cv : DataFrame Q * DataFrame Z => SmartState.sign_contributions cv.1 p]
     | None => []
     end.

Section HiddenIds.

Context {ModelObj ExplainerObj Encoder : Type}.

(** The identifiers that [filter] hides: those that check_features_name
    gives for a non-empty features_to_hide, none otherwise. *)
Definition hidden_ids (lib : SmartExplainer.Collaborators ModelObj ExplainerObj Encoder)
    (features_to_hide : option (list feature_ref)) (flag : option bool)
    (self : Obj ModelObj ExplainerObj Encoder) (ids : option (list Z)) : Prop :=
  if SmartExplainer.truthy_list features_to_hide then
    exists l fg,
      self features_groups = Some fg /\
      SmartExplainer.check_features_name lib (default [] features_to_hide)
        (SmartExplainer.groups_shown flag fg) self = (Ok l, self) /\
      ids = Some l
  else ids = None.

End HiddenIds.

(** The threshold that [filter] applies: none when it is 0. *)
Definition threshold_in_force (threshold : option Q) : option Q :=
  if SmartExplainer.truthy_Q threshold then threshold else None.

(** The mask of an earlier call has as many columns as contrib_sorted, for
    the table or for the first table of the list. *)
Definition same_width (cs : Poly (DataFrame Q)) (m : Poly (DataFrame bool)) : Prop :=
  match cs, m with
  | One c, One mk => length (columns c) = length (columns mk)
  | Many (c :: _), Many (mk :: _) => length (columns c) = length (columns mk)
  | _, _ => False
  end.

(** The three attributes that [filter] assigns. *)
Definition filter_cache : list attr := [mask; masked_contributions; mask_params].

Module DemoRuns.

(** The demo explainer after [filter(threshold=0.2)]. *)
Definition filtered : Obj unit unit unit :=
  (SmartExplainer.filter Demo.lib smart_state None (Some (1 # 5)%Q) None None None
     Demo.compiled).2.

End DemoRuns.

Section CompileNotions.

Context {ModelObj ExplainerObj Encoder : Type}.

(** None of the functions that [compile] calls raises the exception [e]. *)
Definition compile_helpers_never_raise
    (lib : SmartExplainer.Collaborators ModelObj ExplainerObj Encoder) (e : exn) : Prop :=
  (forall x prep, SmartExplainer.lib_inverse_transform lib x prep <> Raise e) /\
  (forall x post, SmartExplainer.lib_apply_postprocessing lib x post <> Raise e) /\
  (forall c contribs, SmartExplainer.lib_adapt_contributions lib c contribs <> Raise e) /\
  (forall m x ex, SmartExplainer.lib_shap_contributions lib m x ex <> Raise e) /\
  (forall ex, SmartExplainer.lib_check_explainer lib ex <> Raise e) /\
  (forall m, SmartExplainer.lib_check_model lib m <> Raise e) /\
  (forall ld c cl, SmartExplainer.lib_check_label_dict lib ld c cl <> Raise e) /\
  (forall x y, SmartExplainer.lib_check_ypred lib x y <> Raise e) /\
  (forall c cl contribs,
      SmartExplainer.lib_check_contribution_object lib c cl contribs <> Raise e) /\
  (forall x post, SmartExplainer.lib_check_postprocessing lib x post <> Raise e) /\
  (forall xp xi prep fg fd,
      SmartExplainer.lib_create_grouped_features_values lib xp xi prep fg fd <> Raise e) /\
  (forall st c x, SmartExplainer.st_validate_contributions lib st c x <> Raise e) /\
  (forall st c enc,
      SmartExplainer.st_inverse_transform_contributions lib st c enc <> Raise e) /\
  (forall st c x, SmartExplainer.st_check_contributions lib st c x <> Raise e) /\
  (forall st c x, SmartExplainer.st_rank_contributions lib st c x <> Raise e) /\
  (forall st r, SmartExplainer.st_assign_contributions lib st r <> Raise e) /\
  (forall st c g, SmartExplainer.st_compute_grouped_contributions lib st c g <> Raise e).

(** The attributes that [compile] has assigned when it comes to check that
    explainer and contributions are not both given. *)
Definition compile_preamble : list attr :=
  [x_init; x_pred; preprocessing; model; _case; _classes; inv_label_dict].

End CompileNotions.

(** ** Notions for what a method depends on *)

Section Dependence.

Context {ModelObj ExplainerObj Encoder : Type}.

(** Two stores that hold the same thing in every attribute outside [T]. *)
Definition agree_outside (T : list attr) (s s' : Obj ModelObj ExplainerObj Encoder)
  : Prop :=
  forall a, a ∉ T -> s a = s' a.

(** A method that, run on two stores that agree outside [T], has the same
    outcome on both and, when it returns, leaves stores that agree outside
    [T']. *)
Definition flows {A} (T : list attr) (m : M ModelObj ExplainerObj Encoder A)
    (T' : list attr) : Prop :=
  forall s s', agree_outside T s s' ->
    (m s).1 = (m s').1 /\
    match (m s).1 with
    | Ok _ => agree_outside T' (m s).2 (m s').2
    | Raise _ => True
    end.

End Dependence.

(** [T] without the attribute [a]. *)
Fixpoint drop_attr (a : attr) (T : list attr) : list attr :=
  match T with
  | [] => []
  | b :: T' => if attr_eq_dec a b then drop_attr a T' else b :: drop_attr a T'
  end.

(** ** Notions for what holds when a method returns *)

Section Returning.

Context {ModelObj ExplainerObj Encoder : Type}.

(** When [m], run on [s], returns, the value returned and the store left
    satisfy [Q]. *)
Definition returns_with {A} (m : M ModelObj ExplainerObj Encoder A)
    (s : Obj ModelObj ExplainerObj Encoder)
    (Q : A -> Obj ModelObj ExplainerObj Encoder -> Prop) : Prop :=
  match m s with
  | (Ok x, s') => Q x s'
  | (Raise _, _) => True
  end.

End Returning.

(** The attributes that [compile] never assigns. *)
Definition compile_keeps : list attr :=
  [label_dict; mask; masked_contributions; mask_params; proba_values].

(** The attributes that [compile] may assign. *)
Definition compile_assigned : list attr :=
  [x_init; x_pred; x_contrib_plot; y_pred; preprocessing; postprocessing;
   postprocessing_modifications; model; explainer; _case; _classes;
   inv_label_dict; features_dict; inv_features_dict; columns_dict;
   inv_columns_dict; state; contributions; data; features_imp; features_desc;
   title_story; features_groups; contributions_groups; features_imp_groups;
   x_pred_groups; data_groups; columns_dict_groups; local_neighbors;
   features_stability; features_compacity].

(** The attributes that [_compile_features_groups] assigns. *)
Definition groups_assigned : list attr :=
  [contributions_groups; features_imp_groups; features_desc; features_dict;
   inv_features_dict; x_pred_groups; data_groups; columns_dict_groups].

(** The attributes that [compile] may assign when it is given no group of
    features, or an empty dictionary of groups. *)
Definition compile_assigned_ungrouped : list attr :=
  [x_init; x_pred; x_contrib_plot; y_pred; preprocessing; postprocessing;
   postprocessing_modifications; model; explainer; _case; _classes;
   inv_label_dict; features_dict; inv_features_dict; columns_dict;
   inv_columns_dict; state; contributions; data; features_imp; features_desc;
   title_story; features_groups; local_neighbors; features_stability;
   features_compacity].

(** The mask of an earlier call and contrib_sorted have the same kind (a
    table, or a non-empty list of tables) but different numbers of columns. *)
Definition other_width (cs : Poly (DataFrame Q)) (m : Poly (DataFrame bool)) : Prop :=
  match cs, m with
  | One c, One mk => length (columns c) <> length (columns mk)
  | Many (c :: _), Many (mk :: _) => length (columns c) <> length (columns mk)
  | _, _ => False
  end.

Section LabelNotions.

Context {ModelObj ExplainerObj Encoder : Type}.

(** A method that leaves the store as it found it. *)
Definition leaves_store {A} (m : M ModelObj ExplainerObj Encoder A) : Prop :=
  forall self, (m self).2 = self.

(** [value] is what the explainer shows for the class [code]: the code itself,
    the name that label_dict gives it, or the name [l] that was asked for and
    that inv_label_dict maps to the code. *)
Definition shows_class (self : Obj ModelObj ExplainerObj Encoder)
    (l : SmartExplainer.label) (code : Z) (value : SmartExplainer.label) : Prop :=
  match value with
  | SmartExplainer.LInt v =>
      v = code /\ exists ld, self label_dict = Some ld /\
                             SmartExplainer.truthy_dict ld = false
  | SmartExplainer.LStr s =>
      (exists ld, self label_dict = Some (Some ld) /\ ld !! code = Some s) \/
      (l = SmartExplainer.LStr s /\
       exists ild, self inv_label_dict = Some ild /\ ild !! s = Some code)
  end.

End LabelNotions.

Module DemoLabels.

(** A classification whose classes are 2, 0 and 1, two of them named. *)
Definition labelled : Obj unit unit unit :=
  assign _classes (Some [2; 0; 1])
    (assign label_dict (Some {[0 := "no"; 1 := "yes"]})
       (assign inv_label_dict {["no" := 0; "yes" := 1]} Demo.three_classes)).

End DemoLabels.

Section Keeping.

Context {ModelObj ExplainerObj Encoder : Type}.

(** A method that, started where [I] holds, leaves a store where [I] holds
    when it returns. *)
Definition keeps {A} (I : Obj ModelObj ExplainerObj Encoder -> Prop)
    (m : M ModelObj ExplainerObj Encoder A) : Prop :=
  forall s, I s -> returns_with m s (fun _ s' => I s').

(** The store maps the column names [cd] and holds display names that
    extend [named]. *)
Definition names_kept (cd : gmap nat string) (named : gmap string string)
    (s : Obj ModelObj ExplainerObj Encoder) : Prop :=
  s columns_dict = Some cd /\
  exists fd, s features_dict = Some fd /\ named ⊆ fd.

End Keeping.

(** What [compile] may assign before it builds columns_dict, and after it
    has checked features_dict. *)
Definition compile_assigned_first : list attr :=
  Eval vm_compute in drop_attr features_dict compile_assigned.

Definition compile_assigned_last : list attr :=
  Eval vm_compute in drop_attr columns_dict (drop_attr features_dict compile_assigned).

Section Inverses.

Context {ModelObj ExplainerObj Encoder : Type}.

(** [inv] maps every value of [d] to a key of [d] that holds it, and nothing
    else. *)
Definition inverse_of `{Countable K, Countable V} (inv : gmap V K) (d : gmap K V)
  : Prop :=
  (forall v k, inv !! v = Some k -> d !! k = Some v) /\
  (forall k v, d !! k = Some v -> is_Some (inv !! v)).

(** The two inverse dictionaries of the store are inverses of columns_dict
    and of features_dict. *)
Definition names_inverted (s : Obj ModelObj ExplainerObj Encoder) : Prop :=
  exists cd icd fd ifd,
    s columns_dict = Some cd /\ s inv_columns_dict = Some icd /\
    s features_dict = Some fd /\ s inv_features_dict = Some ifd /\
    inverse_of icd cd /\ inverse_of ifd fd.

End Inverses.

(** What [compile] may assign besides the two dictionaries of names and
    their inverses. *)
Definition compile_assigned_besides_names : list attr :=
  Eval vm_compute in
    drop_attr inv_features_dict
      (drop_attr inv_columns_dict
         (drop_attr columns_dict (drop_attr features_dict compile_assigned))).

Section AllOrNothing.

Context {ModelObj ExplainerObj Encoder : Type}.

(** A method that has assigned nothing when it raises. *)
Definition raises_clean {A} (m : M ModelObj ExplainerObj Encoder A) : Prop :=
  forall self e, (m self).1 = Raise e -> (m self).2 = self.

End AllOrNothing.

(** The technical name of the feature that a key of the postprocessing
    dictionary designates: the key itself when it is a key of features_dict,
    the column of this id, or the feature displayed under this name. *)
Definition technical_name (fd : gmap string string) (cd : gmap nat string)
    (ifd : gmap string string) (key : feature_ref) : option string :=
  match key with
  | ByName key => if bool_decide (is_Some (fd !! key)) then Some key else ifd !! key
  | ById key => cd !! key
  end.

(** A rule that adds a prefix or a suffix. *)
Definition adds_text (rule : PostRule) : Prop :=
  rule_type rule ∈ ["prefix"; "suffix"].

(** A float that lies in the closed interval [0, 1]; NaN, which compares
    false with every number, does not. *)
Definition in_unit_interval (x : float64) : Prop :=
  match x with
  | Finite q => (0 <= q)%Q /\ (q <= 1)%Q
  | PosInf | NegInf | NaN => False
  end.

Section FilterNotions.


End FilterNotions.

Module DemoMasks.


End DemoMasks.

(** * Properties *)

(** ** The attribute store and the method monad *)

Section StoreFacts.

Context {ModelObj ExplainerObj Encoder : Type}.

Abbreviation Self := (Obj ModelObj ExplainerObj Encoder).
Abbreviation Method := (M ModelObj ExplainerObj Encoder).

Lemma attr_eq_dec_refl (a : attr) : attr_eq_dec a a = left eq_refl.
Proof.
  destruct (attr_eq_dec a a) as [e | n]; [| congruence].
  f_equal. apply (Eqdep_dec.UIP_dec attr_eq_dec).
Qed.

Lemma assign_same (a : attr) (v : attr_type ModelObj ExplainerObj Encoder a) (self : Self) :
  assign a v self a = Some v.
Proof. unfold assign. rewrite attr_eq_dec_refl. reflexivity. Qed.

Lemma assign_other (a b : attr) (v : attr_type ModelObj ExplainerObj Encoder a) (self : Self) :
  a <> b -> assign a v self b = self b.
Proof. intros Hne. unfold assign. destruct (attr_eq_dec a b); [contradiction | reflexivity]. Qed.

Lemma getattr_present (a : attr) (v : attr_type ModelObj ExplainerObj Encoder a) (self : Self) :
  self a = Some v -> getattr a self = (Ok v, self).
Proof. intros H. unfold getattr. rewrite H. reflexivity. Qed.

Lemma getattr_absent (a : attr) (self : Self) :
  self a = None -> getattr a self = (Raise (AttributeError (attr_name a)), self).
Proof. intros H. unfold getattr. rewrite H. reflexivity. Qed.

Lemma assigns_only_ret {A} (x : A) touched : assigns_only touched (ret x : Method A).
Proof. intros self a _. reflexivity. Qed.

Lemma assigns_only_raise {A} (e : exn) touched : assigns_only touched (raise e : Method A).
Proof. intros self a _. reflexivity. Qed.

Lemma assigns_only_call {A} (r : result A) touched : assigns_only touched (call r : Method A).
Proof. intros self a _. reflexivity. Qed.

Lemma assigns_only_getattr (b : attr) touched : assigns_only touched (getattr b : Method _).
Proof. intros self a _. unfold getattr. destruct (self b); reflexivity. Qed.

Lemma assigns_only_setattr (b : attr) (v : attr_type ModelObj ExplainerObj Encoder b) touched :
  b ∈ touched -> assigns_only touched (setattr b v : Method unit).
Proof.
  intros Hb self a Ha. unfold setattr. simpl. apply assign_other.
  intros ->. contradiction.
Qed.

Lemma assigns_only_bind {A B} (m : Method A) (k : A -> Method B) touched :
  assigns_only touched m -> (forall x, assigns_only touched (k x)) ->
  assigns_only touched (bind m k).
Proof.
  intros Hm Hk self a Ha. unfold bind.
  specialize (Hm self a Ha).
  destruct (m self) as [[x | e] self1]; simpl in *.
  - rewrite (Hk x self1 a Ha). exact Hm.
  - exact Hm.
Qed.

Lemma assigns_only_when (b : bool) (m : Method unit) touched :
  assigns_only touched m -> assigns_only touched (SmartExplainer.when b m).
Proof. intros Hm. destruct b; [exact Hm | apply assigns_only_ret]. Qed.

Lemma assigns_only_if {A} (b : bool) (m1 m2 : Method A) touched :
  assigns_only touched m1 -> assigns_only touched m2 ->
  assigns_only touched (if b then m1 else m2).
Proof. destruct b; auto. Qed.

Lemma never_raises_ret {A} (x : A) e : never_raises e (ret x : Method A).
Proof. intros self. discriminate. Qed.

Lemma never_raises_bind {A B} (m : Method A) (k : A -> Method B) e :
  never_raises e m -> (forall x, never_raises e (k x)) -> never_raises e (bind m k).
Proof.
  intros Hm Hk self. unfold bind. specialize (Hm self).
  destruct (m self) as [[x | e'] self1]; simpl in *.
  - apply Hk.
  - intros [= He]. apply Hm. congruence.
Qed.

Lemma never_raises_getattr (b : attr) e :
  (forall n, e <> AttributeError n) -> never_raises e (getattr b : Method _).
Proof.
  intros He self. unfold getattr. destruct (self b); simpl; [discriminate |].
  intros [= H]. exact (He _ (eq_sym H)).
Qed.

Lemma never_raises_setattr (b : attr) (v : attr_type ModelObj ExplainerObj Encoder b) e :
  never_raises e (setattr b v : Method unit).
Proof. intros self. discriminate. Qed.

Lemma never_raises_call {A} (r : result A) e : r <> Raise e -> never_raises e (call r : Method A).
Proof. intros Hr self. exact Hr. Qed.

Lemma never_raises_raise {A} (e' e : exn) : e' <> e -> never_raises e (raise e' : Method A).
Proof. intros Hne self. simpl. congruence. Qed.

(** An exception that the continuation never raises was raised by the first
    method. *)
Lemma raised_by_first {A B} (m : Method A) (k : A -> Method B) e (self : Self) :
  (forall x, never_raises e (k x)) ->
  (bind m k self).1 = Raise e -> (m self).1 = Raise e.
Proof.
  intros Hk. unfold bind.
  destruct (m self) as [[x | e'] self1]; simpl.
  - intros H. destruct (Hk x self1 H).
  - intros [= ->]. reflexivity.
Qed.

(** What the first method raises, the sequence raises, leaving the store as
    the first method left it. *)
Lemma bind_raise {A B} (m : Method A) (k : A -> Method B) e (self self1 : Self) :
  m self = (Raise e, self1) -> bind m k self = (Raise e, self1).
Proof. intros H. unfold bind. rewrite H. reflexivity. Qed.

Lemma bind_ok {A B} (m : Method A) (k : A -> Method B) x (self self1 : Self) :
  m self = (Ok x, self1) -> bind m k self = k x self1.
Proof. intros H. unfold bind. rewrite H. reflexivity. Qed.

End StoreFacts.

(** One step of a proof that a method never raises a given exception. *)
Ltac quiet_step :=
  lazymatch goal with
  | |- never_raises _ (bind _ _) => apply never_raises_bind; [| intros ?]
  | |- never_raises _ (getattr ?b) =>
      apply (never_raises_getattr b); intros ?; discriminate
  | |- never_raises _ (setattr ?b ?v) => apply (never_raises_setattr b v)
  | |- never_raises _ (ret _) => apply never_raises_ret
  | |- never_raises _ (raise _) => apply never_raises_raise; discriminate
  | |- never_raises _ (call _) => apply never_raises_call
  | |- never_raises _ (SmartExplainer.when ?b _) => destruct b; simpl
  | |- never_raises _ (if ?b then _ else _) => destruct b
  | |- never_raises _ (match ?x with _ => _ end) => destruct x
  end.

(** ** Stability and compacity: the guard on the number of classes *)

Section Diagnostics.

Context {ModelObj ExplainerObj Encoder : Type}.

Abbreviation Self := (Obj ModelObj ExplainerObj Encoder).
Abbreviation Method := (M ModelObj ExplainerObj Encoder).

Variable lib : SmartExplainer.Collaborators ModelObj ExplainerObj Encoder.

Let unsupported : exn := AssertionError SmartExplainer.multiclass_msg.

Lemma reject_multiclass_store (self : Self) :
  (SmartExplainer.reject_multiclass self).2 = self.
Proof.
  unfold SmartExplainer.reject_multiclass, bind, getattr.
  destruct (self _case) as [c |]; simpl; [| reflexivity].
  destruct (String.eqb c "classification"); simpl; [| reflexivity].
  destruct (self _classes) as [[classes |] |]; simpl; try reflexivity.
  case_bool_decide; reflexivity.
Qed.

Lemma reject_multiclass_raises (self : Self) :
  (SmartExplainer.reject_multiclass self).1 = Raise unsupported <-> multiclass self.
Proof.
  unfold SmartExplainer.reject_multiclass, bind, getattr, multiclass, unsupported.
  destruct (self _case) as [c |]; simpl.
  2: { split; [discriminate | intros [[=] _]]. }
  destruct (String.eqb_spec c "classification") as [-> | Hc]; simpl.
  2: { split; [discriminate | intros [[= H] _]; congruence]. }
  destruct (self _classes) as [[classes |] |]; simpl.
  - case_bool_decide as Hlen; simpl.
    + split; [| reflexivity]. intros _. split; [reflexivity |]. eauto.
    + split; [discriminate |]. intros [_ (cl & [= <-] & Hlt)]. contradiction.
  - split; [discriminate |]. intros [_ (cl & [=] & _)].
  - split; [discriminate |]. intros [_ (cl & [=] & _)].
Qed.

Hypothesis quiet : diagnostics_never_raise lib unsupported.

Lemma unsupported_not_attribute : forall n, unsupported <> AttributeError n.
Proof. intros n. discriminate. Qed.

Lemma np_set_row_quiet a f i v : np_set_row a f i v <> Raise unsupported.
Proof.
  unfold np_set_row. repeat case_bool_decide; try discriminate.
  destruct v as [| x [| y v]]; discriminate.
Qed.

Lemma stability_rows_quiet all_neighbors f rows v a :
  never_raises unsupported
    (SmartExplainer.stability_rows lib all_neighbors f rows v a : Method _).
Proof.
  destruct quiet as (_ & Hshap & _).
  revert v a. induction rows as [| i rows IH]; intros v a; simpl.
  - apply never_raises_ret.
  - destruct (all_neighbors !! i) as [nb |].
    2: { apply never_raises_raise. discriminate. }
    repeat quiet_step.
    + apply Hshap.
    + apply np_set_row_quiet.
    + apply np_set_row_quiet.
    + apply IH.
Qed.

Lemma stability_after_guard sel (self : Self) :
  (SmartExplainer.compute_features_stability lib sel self).1 = Raise unsupported ->
  (SmartExplainer.reject_multiclass self).1 = Raise unsupported.
Proof.
  destruct quiet as (Hfind & Hshap & _).
  unfold SmartExplainer.compute_features_stability.
  apply raised_by_first. intros [].
  repeat quiet_step.
  all: try apply Hfind; try apply Hshap; try apply stability_rows_quiet.
Qed.

Lemma compacity_after_guard sel dist nb (self : Self) :
  (SmartExplainer.compute_features_compacity lib sel dist nb self).1 = Raise unsupported ->
  (SmartExplainer.reject_multiclass self).1 = Raise unsupported.
Proof.
  destruct quiet as (_ & _ & Hmin & Hdist).
  unfold SmartExplainer.compute_features_compacity.
  apply raised_by_first. intros [].
  repeat quiet_step.
  all: try apply Hmin; try apply Hdist.
Qed.

(** C2.  On a classification with strictly more than two classes,
    compute_features_stability and compute_features_compacity both raise the
    AssertionError "Multi-class classification is not supported" (the domain
    error of the spec) and leave every attribute as it was.  In every other
    case, regression and binary classification among them, neither raises
    that error, the neighbour and distance functions they call not raising
    it themselves. *)
Theorem diagnostics_reject_multiclass sel dist nb (self : Self) :
  (multiclass self ->
   SmartExplainer.compute_features_stability lib sel self
     = (Raise (AssertionError SmartExplainer.multiclass_msg), self) /\
   SmartExplainer.compute_features_compacity lib sel dist nb self
     = (Raise (AssertionError SmartExplainer.multiclass_msg), self)) /\
  (~ multiclass self ->
   (SmartExplainer.compute_features_stability lib sel self).1
     <> Raise (AssertionError SmartExplainer.multiclass_msg) /\
   (SmartExplainer.compute_features_compacity lib sel dist nb self).1
     <> Raise (AssertionError SmartExplainer.multiclass_msg)).
Proof.
  split.
  - intros Hmulti.
    pose proof (proj2 (reject_multiclass_raises self) Hmulti) as Hr.
    pose proof (reject_multiclass_store self) as Hs.
    destruct (SmartExplainer.reject_multiclass self) as [r self1] eqn:Hrun.
    simpl in Hr, Hs. subst r self1.
    split.
    + unfold SmartExplainer.compute_features_stability.
      apply bind_raise. exact Hrun.
    + unfold SmartExplainer.compute_features_compacity.
      apply bind_raise. exact Hrun.
  - intros Hnot. split; intros Hraised; apply Hnot, reject_multiclass_raises.
    + eapply stability_after_guard, Hraised.
    + eapply compacity_after_guard, Hraised.
Qed.

End Diagnostics.

Lemma demo_diagnostics_quiet e : diagnostics_never_raise Demo.lib e.
Proof. repeat split; intros; discriminate. Qed.

Lemma diagnostics_reject_multiclass_witness :
  SmartExplainer.compute_features_stability Demo.lib [0; 1] Demo.three_classes
    = (Raise (AssertionError SmartExplainer.multiclass_msg), Demo.three_classes) /\
  (SmartExplainer.compute_features_compacity Demo.lib [0; 1] (9 # 10)%Q 2 Demo.compiled).1
    <> Raise (AssertionError SmartExplainer.multiclass_msg).
Proof.
  split.
  - apply (diagnostics_reject_multiclass Demo.lib (demo_diagnostics_quiet _)
             [0; 1] (9 # 10)%Q 2 Demo.three_classes).
    split; [reflexivity |]. exists [0; 1; 2]. split; [reflexivity | simpl; lia].
  - apply (diagnostics_reject_multiclass Demo.lib (demo_diagnostics_quiet _)
             [0; 1] (9 # 10)%Q 2 Demo.compiled).
    intros [Hcase _]. vm_compute in Hcase. discriminate.
Defined.

(** ** Running a method step by step *)

Section Running.

Context {ModelObj ExplainerObj Encoder : Type}.

Abbreviation Self := (Obj ModelObj ExplainerObj Encoder).
Abbreviation Method := (M ModelObj ExplainerObj Encoder).

Lemma bind_ok_inv {A B} (m : Method A) (k : A -> Method B) y (self self' : Self) :
  bind m k self = (Ok y, self') ->
  exists x self1, m self = (Ok x, self1) /\ k x self1 = (Ok y, self').
Proof.
  unfold bind. destruct (m self) as [[x | e] self1]; [eauto | discriminate].
Qed.

Lemma getattr_ok_inv (a : attr) v (self self' : Self) :
  getattr a self = (Ok v, self') -> self a = Some v /\ self' = self.
Proof.
  unfold getattr. destruct (self a); intros [= <- <-]; auto.
Qed.

Lemma call_ok_inv {A} (r : result A) x (self self' : Self) :
  call r self = (Ok x, self') -> r = Ok x /\ self' = self.
Proof. unfold call. intros [= -> <-]. auto. Qed.

Lemma guard_passes (self : Self) :
  binary_or_regression self -> SmartExplainer.reject_multiclass self = (Ok tt, self).
Proof.
  unfold SmartExplainer.reject_multiclass, bind, getattr.
  intros [Hc | (Hc & classes & Hcl & Hlen)]; rewrite Hc; simpl; [reflexivity |].
  rewrite Hcl. simpl. case_bool_decide; [lia | reflexivity].
Qed.

Lemma bind_call {A B} (r : result A) (k : A -> Method B) (self : Self) :
  bind (call r) k self = match r with Ok x => k x self | Raise e => (Raise e, self) end.
Proof. unfold bind, call. destruct r; reflexivity. Qed.

Lemma bind_ret {A B} (x : A) (k : A -> Method B) (self : Self) :
  bind (ret x) k self = k x self.
Proof. reflexivity. Qed.

Lemma bind_getattr {B} (a : attr) v (k : _ -> Method B) (self : Self) :
  self a = Some v -> bind (getattr a) k self = k v self.
Proof. intros H. unfold bind. rewrite (getattr_present a v self H). reflexivity. Qed.

Lemma bind_getattr_absent {B} (a : attr) (k : _ -> Method B) (self : Self) :
  self a = None -> bind (getattr a) k self = (Raise (AttributeError (attr_name a)), self).
Proof. intros H. unfold bind. rewrite (getattr_absent a self H). reflexivity. Qed.

Lemma bind_setattr {B} (a : attr) v (k : unit -> Method B) (self : Self) :
  bind (setattr a v) k self = k tt (assign a v self).
Proof. reflexivity. Qed.

Lemma bind_assoc {A B C} (m : Method A) (k : A -> Method B) (h : B -> Method C)
    (self : Self) :
  bind (bind m k) h self = bind m (fun x => bind (k x) h) self.
Proof.
  unfold bind. destruct (m self) as [[x | e] self1]; reflexivity.
Qed.

Lemma fails_bind_left {A B} (m : Method A) (k : A -> Method B) :
  fails m -> fails (bind m k).
Proof.
  intros Hm self. unfold bind. destruct (Hm self) as [e He].
  destruct (m self) as [[x | e'] self1]; simpl in *; [discriminate | eauto].
Qed.

Lemma fails_bind_right {A B} (m : Method A) (k : A -> Method B) :
  (forall x, fails (k x)) -> fails (bind m k).
Proof.
  intros Hk self. unfold bind.
  destruct (m self) as [[x | e'] self1]; simpl; [apply Hk | eauto].
Qed.

End Running.

(** Inverting the first step of a sequence that has returned: the value of
    the step is named [x] and what is known of it [Hx]. *)
Ltac peel H x Hx :=
  let s := fresh "s" in
  apply bind_ok_inv in H as (x & s & Hx & H);
  first
    [ lazymatch type of Hx with
      | getattr ?a _ = _ => apply (getattr_ok_inv a) in Hx as [Hx ->]
      end
    | apply call_ok_inv in Hx as [Hx ->]
    | idtac ].

(** ** Compacity: the distances reached *)

Lemma clip1_unit (x : Q) : (0 <= clip1 0 1 x)%Q /\ (clip1 0 1 x <= 1)%Q.
Proof.
  unfold clip1.
  destruct (Qle_bool x 0) eqn:Hlo; [split; discriminate |].
  destruct (Qle_bool 1 x) eqn:Hhi; [split; discriminate |].
  split; apply Qlt_le_weak, Qnot_le_lt; intros H; apply Qle_bool_iff in H; congruence.
Qed.

Lemma clip1_above (x : Q) : (1 < x)%Q -> clip1 0 1 x = 1%Q.
Proof.
  intros Hx. unfold clip1.
  destruct (Qle_bool x 0) eqn:Hlo.
  - apply Qle_bool_iff in Hlo. exfalso.
    apply (Qlt_irrefl 1). apply Qlt_le_trans with x; [exact Hx |].
    apply Qle_trans with 0%Q; [exact Hlo | discriminate].
  - destruct (Qle_bool 1 x) eqn:Hhi; [reflexivity |].
    exfalso. apply Qlt_le_weak, Qle_bool_iff in Hx. congruence.
Qed.

Lemma clip1_inside (x : Q) : (0 < x)%Q -> (x < 1)%Q -> clip1 0 1 x = x.
Proof.
  intros H0 H1. unfold clip1.
  destruct (Qle_bool x 0) eqn:Hlo.
  { apply Qle_bool_iff in Hlo. destruct (Qlt_not_le _ _ H0 Hlo). }
  destruct (Qle_bool 1 x) eqn:Hhi; [| reflexivity].
  apply Qle_bool_iff in Hhi. destruct (Qlt_not_le _ _ H1 Hhi).
Qed.

Section Compacity.

Context {ModelObj ExplainerObj Encoder : Type}.

Abbreviation Self := (Obj ModelObj ExplainerObj Encoder).

Variable lib : SmartExplainer.Collaborators ModelObj ExplainerObj Encoder.

Lemma clip_float_unit (x : float64) :
  clip_float 0 1 x = NaN \/ in_unit_interval (clip_float 0 1 x).
Proof.
  destruct x as [q | | |]; simpl.
  - right. apply clip1_unit.
  - right. split; discriminate.
  - right. split; discriminate.
  - left. reflexivity.
Qed.

(** C6, as the code has it.  Once the guard on the classes is passed and the
    two distance functions have returned, compute_features_compacity returns
    and stores under features_compacity the distances clipped by
    np.clip(., 0, 1), one for one.  Every entry of distance_reached that is
    not NaN lies in [0, 1]: a distance above 1, or infinite, is 1, and one
    strictly between 0 and 1 is kept.  But np.clip leaves NaN as it is: the
    NaN entries of distance_reached are those of the distances given. *)
Theorem compacity_distance_in_unit_interval sel dist nb (self : Self)
    (c : string) (contribs : Poly (DataFrame Q)) needed raw :
  binary_or_regression self ->
  self _case = Some c ->
  self contributions = Some contribs ->
  SmartExplainer.lib_get_min_nb_features lib sel contribs c dist = Ok needed ->
  SmartExplainer.lib_get_distance lib sel contribs c nb = Ok raw ->
  exists reached,
    SmartExplainer.compute_features_compacity lib sel dist nb self
      = (Ok tt,
         assign features_compacity
           (Some {| features_needed := needed; distance_reached := reached |}) self) /\
    length reached = length raw /\
    (forall i x, reached !! i = Some x -> x = NaN \/ in_unit_interval x) /\
    (forall i, reached !! i = Some NaN <-> raw !! i = Some NaN) /\
    (forall i d, raw !! i = Some (Finite d) -> (1 < d)%Q ->
                 reached !! i = Some (Finite 1)) /\
    (forall i, raw !! i = Some PosInf -> reached !! i = Some (Finite 1)) /\
    (forall i d, raw !! i = Some (Finite d) -> (0 < d)%Q -> (d < 1)%Q ->
                 reached !! i = Some (Finite d)).
Proof.
  intros Hguard Hc Hcontribs Hmin Hdist.
  exists (np_clip raw 0 1). split; [| split; [| split; [| split; [| split; [| split]]]]].
  - unfold SmartExplainer.compute_features_compacity.
    rewrite (bind_ok _ _ tt self self (guard_passes self Hguard)).
    unfold bind, getattr, call, setattr.
    repeat (progress (rewrite ?Hcontribs, ?Hc, ?Hmin, ?Hdist; simpl)).
    reflexivity.
  - unfold np_clip. apply length_map.
  - intros i x Hx. unfold np_clip in Hx. rewrite list_lookup_fmap in Hx.
    destruct (raw !! i) as [y |]; [| discriminate].
    injection Hx as <-. apply clip_float_unit.
  - intros i. unfold np_clip. rewrite list_lookup_fmap.
    destruct (raw !! i) as [[q | | |] |]; simpl; split; intros H;
      try discriminate; reflexivity.
  - intros i d Hi Hd. unfold np_clip.
    rewrite list_lookup_fmap, Hi. simpl. do 2 f_equal. apply clip1_above, Hd.
  - intros i Hi. unfold np_clip. rewrite list_lookup_fmap, Hi. reflexivity.
  - intros i d Hi H0 H1. unfold np_clip.
    rewrite list_lookup_fmap, Hi. simpl. do 2 f_equal. apply clip1_inside; assumption.
Qed.

End Compacity.

Lemma compacity_distance_in_unit_interval_witness :
  exists reached,
    SmartExplainer.compute_features_compacity Demo.lib [1; 3] (9 # 10)%Q 2 Demo.compiled
      = (Ok tt,
         assign features_compacity
           (Some {| features_needed := [1; 1]; distance_reached := reached |})
           Demo.compiled) /\
    length reached = 2%nat /\
    (forall i x, reached !! i = Some x -> x = NaN \/ in_unit_interval x) /\
    (forall i, reached !! i = Some NaN
               <-> [Finite (1 # 2)%Q; Finite (3 # 2)%Q] !! i = Some NaN) /\
    (forall i d, [Finite (1 # 2)%Q; Finite (3 # 2)%Q] !! i = Some (Finite d) ->
                 (1 < d)%Q -> reached !! i = Some (Finite 1)) /\
    (forall i, [Finite (1 # 2)%Q; Finite (3 # 2)%Q] !! i = Some PosInf ->
               reached !! i = Some (Finite 1)) /\
    (forall i d, [Finite (1 # 2)%Q; Finite (3 # 2)%Q] !! i = Some (Finite d) ->
                 (0 < d)%Q -> (d < 1)%Q -> reached !! i = Some (Finite d)).
Proof.
  apply (compacity_distance_in_unit_interval Demo.lib [1; 3] (9 # 10)%Q 2 Demo.compiled
           "regression" (One Demo.contribs) [1; 1]
           [Finite (1 # 2)%Q; Finite (3 # 2)%Q]).
  - left. reflexivity.
  - reflexivity.
  - reflexivity.
  - reflexivity.
  - reflexivity.
Defined.

(** C6, as the spec states it, fails: a call that returns may store a
    distance that is not in [0, 1], the NaN that get_distance gave. *)
Lemma compacity_nan_is_not_clipped :
  SmartExplainer.compute_features_compacity Demo.lib [-1; 3] (9 # 10)%Q 2 Demo.compiled
    = (Ok tt,
       assign features_compacity
         (Some {| features_needed := [1; 1];
                  distance_reached := [NaN; Finite 1] |})
         Demo.compiled) /\
  ~ Forall in_unit_interval [NaN; Finite 1].
Proof.
  split; [reflexivity |].
  intros Hall. apply Forall_cons in Hall as [Hnan _]. exact Hnan.
Qed.

(** ** Stability: what is stored, and its shape *)

Lemma np_zeros_shape n f : has_shape (np_zeros n f) n f.
Proof.
  unfold np_zeros. split; [apply length_replicate |].
  apply Forall_replicate, length_replicate.
Qed.

Lemma np_set_row_shape a f i v a' n :
  has_shape a n f -> np_set_row a f i v = Ok a' -> has_shape a' n f.
Proof.
  intros [Hlen Hrows]. unfold np_set_row.
  case_bool_decide; [discriminate |].
  case_bool_decide as Hv.
  - intros [= <-]. split; [rewrite length_insert; exact Hlen |].
    apply Forall_insert; assumption.
  - destruct v as [| x [| y v]]; try discriminate.
    intros [= <-]. split; [rewrite length_insert; exact Hlen |].
    apply Forall_insert; [assumption | apply length_replicate].
Qed.

Lemma np_set_row_fits a f i v :
  (i < length a)%nat -> length v = f -> np_set_row a f i v = Ok (<[i:=v]> a).
Proof.
  intros Hi Hv. unfold np_set_row.
  case_bool_decide; [lia |]. case_bool_decide; [reflexivity | contradiction].
Qed.

Section Stability.

Context {ModelObj ExplainerObj Encoder : Type}.

Abbreviation Self := (Obj ModelObj ExplainerObj Encoder).

Variable lib : SmartExplainer.Collaborators ModelObj ExplainerObj Encoder.

Lemma stability_rows_shape all f n rows : forall v a (self self' : Self) r,
  has_shape v n f -> has_shape a n f ->
  SmartExplainer.stability_rows lib all f rows v a self = (Ok r, self') ->
  self' = self /\ has_shape r.1 n f /\ has_shape r.2 n f.
Proof.
  induction rows as [| i rows IH]; intros v a self self' r Hv Ha; simpl.
  - intros [= <- <-]. auto.
  - destruct (all !! i) as [nb |]; [| discriminate].
    intros Hrun.
    peel Hrun xi Hxi. peel Hrun c Hc. peel Hrun res Hres.
    peel Hrun v1 Hv1. peel Hrun a1 Ha1.
    apply (IH v1 a1 self self' r);
      [exact (np_set_row_shape _ _ _ _ _ _ Hv Hv1)
      | exact (np_set_row_shape _ _ _ _ _ _ Ha Ha1)
      | exact Hrun].
Qed.

Lemma stability_rows_returns all f n xi contribs (self : Self) rows :
  self x_init = Some xi -> self contributions = Some contribs ->
  (forall i, i ∈ rows -> (i < n)%nat /\ exists nb r,
      all !! i = Some nb /\
      SmartExplainer.lib_shap_neighbors lib nb xi contribs = Ok r /\
      length r.1.2 = f /\ length r.2 = f) ->
  forall v a, length v = n -> length a = n ->
  exists r, SmartExplainer.stability_rows lib all f rows v a self = (Ok r, self).
Proof.
  intros Hxi Hc. induction rows as [| i rows IH]; intros Hrows v a Hv Ha; simpl.
  - eauto.
  - destruct (Hrows i) as (Hi & nb & r & Hnb & Hshap & Hl1 & Hl2); [left |].
    rewrite Hnb. unfold bind at 1. rewrite (getattr_present _ _ _ Hxi).
    unfold bind at 1. rewrite (getattr_present _ _ _ Hc).
    unfold bind at 1, call at 1. rewrite Hshap.
    unfold bind at 1, call at 1. rewrite np_set_row_fits by (assumption || lia).
    unfold bind at 1, call at 1. rewrite np_set_row_fits by (assumption || lia).
    apply IH.
    + intros j Hj. apply Hrows. right. exact Hj.
    + rewrite length_insert. exact Hv.
    + rewrite length_insert. exact Ha.
Qed.

(** C5.  Once the guard on the classes is passed and find_neighbors has
    returned: for a selection of exactly one instance,
    compute_features_stability stores under local_neighbors the normalized
    contributions that shap_neighbors gives for the instance and its
    neighbours (key norm_shap) and leaves features_stability as it was; for a
    selection of n > 1 instances, every call that returns has stored under
    features_stability two arrays, variability and amplitude, of shape
    (n, f), f being the number of columns of x_pred, and has left
    local_neighbors as it was, and the call does return when shap_neighbors
    gives, for each instance, two rows of f values. *)
Theorem stability_result_shapes sel (self : Self) (xi : DataFrame cell) (m : ModelObj)
    (c : string) (contribs : Poly (DataFrame Q)) all :
  binary_or_regression self ->
  self x_init = Some xi -> self model = Some m -> self _case = Some c ->
  self contributions = Some contribs ->
  SmartExplainer.lib_find_neighbors lib sel xi m c = Ok all ->
  (length sel = 1%nat -> forall nb r,
     all !! 0%nat = Some nb ->
     SmartExplainer.lib_shap_neighbors lib nb xi contribs = Ok r ->
     SmartExplainer.compute_features_stability lib sel self
       = (Ok tt, assign local_neighbors (Some {| norm_shap := r.1.1 |}) self) /\
     assign local_neighbors (Some {| norm_shap := r.1.1 |}) self features_stability
       = self features_stability) /\
  ((1 < length sel)%nat -> forall xp : DataFrame cell, self x_pred = Some xp ->
     (forall self',
        SmartExplainer.compute_features_stability lib sel self = (Ok tt, self') ->
        exists st,
          self' = assign features_stability (Some st) self /\
          has_shape (variability st) (length sel) (length (columns xp)) /\
          has_shape (amplitude st) (length sel) (length (columns xp)) /\
          self' local_neighbors = self local_neighbors) /\
     ((forall i, (i < length sel)%nat -> exists nb r,
          all !! i = Some nb /\
          SmartExplainer.lib_shap_neighbors lib nb xi contribs = Ok r /\
          length r.1.2 = length (columns xp) /\ length r.2 = length (columns xp)) ->
      exists self',
        SmartExplainer.compute_features_stability lib sel self = (Ok tt, self'))).
Proof.
  intros Hguard Hxi Hm Hc Hcontribs Hfind.
  assert (Hstart : forall k : list ndarray -> M ModelObj ExplainerObj Encoder unit,
    bind SmartExplainer.reject_multiclass (fun _ =>
      bind (getattr x_init) (fun xi0 => bind (getattr model) (fun m0 =>
        bind (getattr _case) (fun c0 =>
          bind (call (SmartExplainer.lib_find_neighbors lib sel xi0 m0 c0)) k)))) self
    = k all self).
  { intros k. rewrite (bind_ok _ _ tt self self (guard_passes self Hguard)).
    rewrite (bind_getattr x_init xi _ self Hxi), (bind_getattr model m _ self Hm).
    rewrite (bind_getattr _case c _ self Hc), bind_call, Hfind. reflexivity. }
  unfold SmartExplainer.compute_features_stability. rewrite Hstart. clear Hstart.
  split.
  - intros Hone nb r Hnb Hshap. rewrite bool_decide_eq_true_2 by exact Hone.
    rewrite Hnb.
    rewrite (bind_getattr x_init xi _ self Hxi).
    rewrite (bind_getattr contributions contribs _ self Hcontribs).
    rewrite bind_call, Hshap. split; [reflexivity |].
    apply assign_other. discriminate.
  - intros Hmany xp Hxp. rewrite bool_decide_eq_false_2 by lia.
    rewrite (bind_getattr x_pred xp _ self Hxp), (bind_getattr x_pred xp _ self Hxp).
    cbn [shape snd].
    pose proof (np_zeros_shape (length sel) (length (columns xp))) as Hz.
    split.
    + intros self' Hrun. peel Hrun va Hva.
      apply (stability_rows_shape _ _ _ _ _ _ _ _ _ Hz Hz) in Hva as (-> & Hv & Ha).
      unfold setattr in Hrun. injection Hrun as <-.
      eexists. split; [reflexivity |]. split; [exact Hv |]. split; [exact Ha |].
      apply assign_other. discriminate.
    + intros Hrows.
      destruct (stability_rows_returns all (length (columns xp)) (length sel)
                  xi contribs self (seq 0 (length sel)) Hxi Hcontribs) with
        (v := np_zeros (length sel) (length (columns xp)))
        (a := np_zeros (length sel) (length (columns xp))) as [r Hr].
      * intros i Hi. apply elem_of_seq in Hi. split; [lia |]. apply Hrows. lia.
      * apply Hz.
      * apply Hz.
      * rewrite (bind_ok _ _ r self self Hr). eexists. reflexivity.
Qed.

End Stability.

Lemma stability_result_shapes_witness :
  (exists self' st,
     SmartExplainer.compute_features_stability Demo.lib [0; 1] Demo.compiled = (Ok tt, self') /\
     self' features_stability = Some (Some st) /\
     has_shape (variability st) 2 3 /\ has_shape (amplitude st) 2 3) /\
  SmartExplainer.compute_features_stability Demo.lib [0] Demo.compiled
    = (Ok tt, assign local_neighbors (Some {| norm_shap := [[1%Q]] |}) Demo.compiled).
Proof.
  assert (Hreg : binary_or_regression Demo.compiled) by (left; reflexivity).
  split.
  - pose proof (stability_result_shapes Demo.lib [0; 1] Demo.compiled Demo.x tt
                  "regression" (One Demo.contribs) [[[1%Q]]; [[1%Q]]]
                  Hreg eq_refl eq_refl eq_refl eq_refl eq_refl) as [_ Hmany].
    destruct (Hmany ltac:(simpl; lia) Demo.x eq_refl) as [Hshape Hreturns].
    destruct Hreturns as [self' Hrun].
    { intros i Hi.
      exists [[1%Q]], ([[1%Q]], replicate 3 (1 # 2)%Q, replicate 3 1%Q).
      destruct i as [| [| i]]; [| | simpl in Hi; lia];
        (split; [reflexivity |]; split; [reflexivity |]; split; reflexivity). }
    destruct (Hshape self' Hrun) as (st & -> & Hv & Ha & _).
    exists (assign features_stability (Some st) Demo.compiled), st.
    split; [exact Hrun |]. split; [apply assign_same |]. split; assumption.
  - pose proof (stability_result_shapes Demo.lib [0] Demo.compiled Demo.x tt
                  "regression" (One Demo.contribs) [[[1%Q]]]
                  Hreg eq_refl eq_refl eq_refl eq_refl eq_refl) as [Hone _].
    destruct (Hone eq_refl [[1%Q]]
                ([[1%Q]], replicate 3 (1 # 2)%Q, replicate 3 1%Q) eq_refl eq_refl)
      as [Hrun _].
    exact Hrun.
Defined.

(** ** Feature names: the fallback of check_features_dict *)

Section FeaturesDict.

Context {ModelObj ExplainerObj Encoder : Type}.

Abbreviation Self := (Obj ModelObj ExplainerObj Encoder).

Lemma fill_missing_lookup (fd : gmap string string) (missing : gset string) (k : string) :
  set_fold (fun feature d => <[feature:=feature]> d) fd missing !! k
  = if decide (k ∈ missing) then Some k else fd !! k.
Proof.
  revert k.
  pose proof (set_fold_ind_L
           (fun (d : gmap string string) (X : gset string) =>
              forall k, d !! k = if decide (k ∈ X) then Some k else fd !! k)
           (fun feature d => <[feature:=feature]> d) fd) as Hind.
  simpl in Hind. apply Hind; clear Hind.
  - intros k. rewrite decide_False by apply not_elem_of_empty. reflexivity.
  - intros x X d Hx IH k. rewrite lookup_insert.
    destruct (decide (x = k)) as [-> | Hne].
    + rewrite decide_True; [reflexivity |].
      apply elem_of_union_l, elem_of_singleton. reflexivity.
    + rewrite IH. destruct (decide (k ∈ X)) as [Hin | Hout].
      * rewrite decide_True; [reflexivity | apply elem_of_union_r, Hin].
      * rewrite decide_False; [reflexivity |].
        intros [Hk | Hk]%elem_of_union; [| contradiction].
        apply elem_of_singleton in Hk. congruence.
Qed.

Lemma enumerate_dict_columns (cols : list string) (col : string) :
  col ∈ cols <-> exists i, SmartExplainer.enumerate_dict cols !! i = Some col.
Proof.
  unfold SmartExplainer.enumerate_dict. rewrite list_elem_of_lookup.
  split; intros [i Hi]; exists i.
  - rewrite lookup_map_seq_0. exact Hi.
  - rewrite lookup_map_seq_0 in Hi. exact Hi.
Qed.

(** C8.  check_features_dict, run on the columns_dict that compile builds
    from the columns of x_pred, returns and leaves a features_dict in which
    every column name of x_pred is a key: mapped to itself when the supplied
    dictionary had no entry for it, and to the supplied display name
    otherwise.  No entry of the supplied dictionary is changed, and the only
    keys added are such column names. *)
Theorem check_features_dict_fallback (self : Self) (xp : DataFrame cell)
    (fd : gmap string string) :
  self columns_dict = Some (SmartExplainer.enumerate_dict (columns xp)) ->
  self features_dict = Some fd ->
  exists fd' : gmap string string,
    SmartExplainer.check_features_dict self = (Ok tt, assign features_dict fd' self) /\
    (forall col, col ∈ columns xp ->
       fd' !! col = Some (default col (fd !! col))) /\
    (forall k v, fd !! k = Some v -> fd' !! k = Some v) /\
    (forall k, fd !! k = None -> is_Some (fd' !! k) -> k ∈ columns xp /\ fd' !! k = Some k).
Proof.
  intros Hcd Hfd.
  set (missing := (map_img (SmartExplainer.enumerate_dict (columns xp)) ∖ dom fd : gset string)).
  exists (set_fold (fun feature d => <[feature:=feature]> d) fd missing).
  assert (Hmissing : forall k, k ∈ missing <-> k ∈ columns xp /\ fd !! k = None).
  { intros k. unfold missing. rewrite elem_of_difference, elem_of_map_img.
    rewrite <- enumerate_dict_columns, not_elem_of_dom. reflexivity. }
  split; [| split; [| split]].
  - unfold SmartExplainer.check_features_dict.
    rewrite (bind_getattr columns_dict _ _ self Hcd).
    rewrite (bind_getattr features_dict _ _ self Hfd). reflexivity.
  - intros col Hcol. rewrite fill_missing_lookup.
    destruct (decide (col ∈ missing)) as [Hin | Hout].
    + apply Hmissing in Hin as [_ ->]. reflexivity.
    + destruct (fd !! col) as [v |] eqn:Hv; [reflexivity |].
      destruct Hout. apply Hmissing. auto.
  - intros k v Hk. rewrite fill_missing_lookup.
    rewrite decide_False; [exact Hk |].
    intros Hin. apply Hmissing in Hin as [_ Hnone]. congruence.
  - intros k Hk. rewrite fill_missing_lookup.
    destruct (decide (k ∈ missing)) as [Hin | Hout].
    + intros _. apply Hmissing in Hin as [Hcol _]. auto.
    + rewrite Hk. intros [v [=]].
Qed.

End FeaturesDict.

Lemma check_features_dict_fallback_witness :
  exists fd' : gmap string string,
    SmartExplainer.check_features_dict
      (assign columns_dict (SmartExplainer.enumerate_dict ["age"; "fare"])
         (assign features_dict {["age" := "Age"]} Demo.blank))
    = (Ok tt,
       assign features_dict fd'
         (assign columns_dict (SmartExplainer.enumerate_dict ["age"; "fare"])
            (assign features_dict {["age" := "Age"]} Demo.blank))) /\
    fd' !! "age" = Some "Age" /\ fd' !! "fare" = Some "fare".
Proof.
  destruct (check_features_dict_fallback
              (assign columns_dict (SmartExplainer.enumerate_dict ["age"; "fare"])
                 (assign features_dict {["age" := "Age"]} Demo.blank))
              {| columns := ["age"; "fare"]; index := []; values := [] |}
              {["age" := "Age"]} eq_refl eq_refl) as (fd' & Hrun & Hcols & _).
  exists fd'. split; [exact Hrun |]. split.
  - apply (Hcols "age"). repeat constructor.
  - apply (Hcols "fare"). repeat constructor.
Defined.

(** ** The mask algebra *)

Lemma keep_first_first_visible (k : nat) (row : list bool) :
  SmartState.keep_first k row = first_visible k row.
Proof.
  unfold first_visible. revert k.
  induction row as [| b row IH]; intros k; [reflexivity |].
  destruct b; [destruct k as [| k] |]; cbn [SmartState.keep_first imap];
    rewrite IH; f_equal;
    try (apply imap_ext; intros i b _; unfold compose; cbn [take count_true];
         destruct b; cbn [andb]; [| reflexivity];
         apply bool_decide_ext; lia).
Qed.

Lemma count_true_first_visible (k : nat) (row : list bool) :
  count_true (first_visible k row) = Nat.min k (count_true row).
Proof.
  rewrite <- keep_first_first_visible. revert k.
  induction row as [| b row IH]; intros k; simpl; [lia |].
  destruct b; [destruct k as [| k] |]; simpl; rewrite IH; lia.
Qed.

Lemma mapM_total {A B} (g : A -> B) (f : A -> result B) (l : list A) :
  (forall a, a ∈ l -> f a = Ok (g a)) -> mapM f l = Ok (map g l).
Proof.
  induction l as [| a l IH]; intros Hf; simpl; [reflexivity |].
  rewrite (Hf a) by left. simpl. rewrite IH; [reflexivity |].
  intros x Hx. apply Hf. right. exact Hx.
Qed.

Lemma mapM_raise {A B} (f : A -> result B) (l : list A) :
  l <> [] -> (forall a, exists e, f a = Raise e) -> exists e, mapM f l = Raise e.
Proof.
  intros Hl Hf. destruct l as [| a l]; [contradiction |].
  simpl. destruct (Hf a) as [e ->]. eauto.
Qed.

Lemma smart_cutoff_row_wise (m : DataFrame bool) (k : Z) :
  0 < k -> SmartState.cutoff_contributions m k = Ok (cut_rows (Z.to_nat k) m).
Proof.
  intros Hk. unfold SmartState.cutoff_contributions, cut_rows.
  destruct (Z.leb_spec k 0) as [Hle | _]; [lia |].
  do 2 f_equal. apply map_ext. intros row. apply keep_first_first_visible.
Qed.

Lemma call1_total {A B} (st : State) (f : A -> result B) (g : A -> B) (x : Poly A) :
  fits st x -> (forall a, f a = Ok (g a)) ->
  MultiDecorator.call1 st f x = Ok (poly_map g x).
Proof.
  intros Hfit Hf. unfold MultiDecorator.call1.
  destruct st, x as [a | [| a l]]; try contradiction.
  - rewrite Hf. reflexivity.
  - rewrite (mapM_total g) by auto. reflexivity.
Qed.

Lemma call2_fits {A B C} (st : State) (f : A -> B -> result C) x y r :
  MultiDecorator.call2 st f x y = Ok r -> fits st x /\ fits st y.
Proof.
  unfold MultiDecorator.call2.
  destruct st, x as [a | [| a la]], y as [b | [| b lb]]; try discriminate;
    simpl; auto.
Qed.

Lemma call2_total {A B C} (st : State) (f : A -> B -> result C) (g : A -> B -> C) x y :
  fits st x -> fits st y ->
  match x, y with
  | Many la, Many lb => length la = length lb
  | _, _ => True
  end ->
  (forall a b, f a b = Ok (g a b)) ->
  exists r, MultiDecorator.call2 st f x y = Ok r.
Proof.
  intros Hx Hy Hlen Hf. unfold MultiDecorator.call2.
  destruct st, x as [a | [| a la]], y as [b | [| b lb]]; try contradiction.
  - rewrite Hf. simpl. eauto.
  - rewrite bool_decide_eq_true_2 by exact Hlen.
    rewrite (mapM_total (fun ab : A * B => g ab.1 ab.2)) by auto. simpl. eauto.
Qed.

Lemma call2_lengths {A B C} (f : A -> B -> result C) la lb r :
  MultiDecorator.call2 MultiState f (Many la) (Many lb) = Ok r -> length la = length lb.
Proof.
  unfold MultiDecorator.call2. destruct la as [| a la]; [discriminate |].
  case_bool_decide; [auto | discriminate].
Qed.

(** With the masking methods of the spec, a cutoff that is strictly
    positive goes through wherever the masked contributions can be
    computed, and cuts every table row by row. *)
Lemma smart_cutoff_after_masking st cs (m : Poly (DataFrame bool)) x (k : Z) :
  0 < k ->
  compute_masked_contributions smart_state st cs m = Ok x ->
  cutoff_contributions smart_state st m k = Ok (poly_map (cut_rows (Z.to_nat k)) m) /\
  exists y,
    compute_masked_contributions smart_state st cs (poly_map (cut_rows (Z.to_nat k)) m)
    = Ok y.
Proof.
  intros Hk Hmasked. simpl in *.
  pose proof (call2_fits _ _ _ _ _ Hmasked) as [Hcs Hm].
  split.
  - apply call1_total; [exact Hm |]. intros a. apply smart_cutoff_row_wise, Hk.
  - eapply call2_total; [exact Hcs | | | reflexivity].
    + destruct st, m as [b | [| b lb]]; try contradiction; exact I.
    + destruct cs as [c | la], m as [b | lb]; simpl; try exact I.
      destruct st; [destruct Hm |].
      rewrite length_map. eapply call2_lengths, Hmasked.
Qed.

(** ** filter: the cutoff comes last *)

Section Filter.

Context {ModelObj ExplainerObj Encoder : Type}.

Abbreviation Self := (Obj ModelObj ExplainerObj Encoder).
Abbreviation Method := (M ModelObj ExplainerObj Encoder).

Variable lib : SmartExplainer.Collaborators ModelObj ExplainerObj Encoder.

Lemma filter_store_inv masks d params (self self' : Self) :
  SmartExplainer.filter_store masks d params self = (Ok tt, self') ->
  exists st m x,
    self state = Some st /\ self mask = Some m /\
    compute_masked_contributions masks st (contrib_sorted d) m = Ok x /\
    self' = assign mask_params params (assign masked_contributions x self).
Proof.
  unfold SmartExplainer.filter_store. intros Hrun.
  peel Hrun st Hst. peel Hrun m Hm. peel Hrun x Hx.
  unfold bind, setattr in Hrun. injection Hrun as <-.
  exists st, m, x. auto.
Qed.

Lemma filter_store_run masks d params (self : Self) st m x :
  self state = Some st -> self mask = Some m ->
  compute_masked_contributions masks st (contrib_sorted d) m = Ok x ->
  SmartExplainer.filter_store masks d params self
  = (Ok tt, assign mask_params params (assign masked_contributions x self)).
Proof.
  intros Hst Hm Hx. unfold SmartExplainer.filter_store.
  rewrite (bind_getattr state st _ self Hst), (bind_getattr mask m _ self Hm).
  rewrite bind_call, Hx. reflexivity.
Qed.

Lemma filter_unfold masks h t p k dg (self : Self) :
  SmartExplainer.filter lib masks h t p k dg self
  = match SmartExplainer.filter_combine lib masks h t p dg self with
    | (Ok d, s1) =>
        bind (SmartExplainer.filter_cutoff masks k)
             (fun _ => SmartExplainer.filter_store masks d
                         {| p_features_to_hide := h; p_threshold := t;
                            p_positive := p; p_max_contrib := k |}) s1
    | (Raise e, s1) => (Raise e, s1)
    end.
Proof. reflexivity. Qed.

Lemma filter_cutoff_unset masks :
  SmartExplainer.filter_cutoff masks None = (ret tt : Method unit).
Proof. reflexivity. Qed.


(** C1.  Whenever filter returns without a cutoff, it returns with any
    max_contrib > 0 as well, and the mask it then leaves is the mask of the
    call without cutoff (the AND of the masks of the other criteria) in
    which, row by row, an entry stays true when it is true and fewer than
    max_contrib true entries come before it: the cutoff counts the entries
    that the other criteria left visible, not the ranked positions. *)
Theorem cutoff_applies_to_combined_mask h t p (k : Z) dg (self : Self) :
  0 < k ->
  (SmartExplainer.filter lib smart_state h t p None dg self).1 = Ok tt ->
  exists combined,
    (SmartExplainer.filter_combine lib smart_state h t p dg self).2 mask = Some combined /\
    (SmartExplainer.filter lib smart_state h t p None dg self).2 mask = Some combined /\
    (SmartExplainer.filter lib smart_state h t p (Some k) dg self).1 = Ok tt /\
    (SmartExplainer.filter lib smart_state h t p (Some k) dg self).2 mask
      = Some (poly_map (cut_rows (Z.to_nat k)) combined).
Proof.
  intros Hk. rewrite !filter_unfold.
  destruct (SmartExplainer.filter_combine lib smart_state h t p dg self)
    as [[d | e] s1]; [| discriminate].
  rewrite filter_cutoff_unset, bind_ret.
  set (none := {| p_features_to_hide := h; p_threshold := t; p_positive := p;
                  p_max_contrib := None |}).
  destruct (SmartExplainer.filter_store smart_state d none s1) as [r s2] eqn:Hstore.
  cbn [fst snd]. intros ->.
  apply filter_store_inv in Hstore as (st & m & x & Hst & Hm & Hx & ->).
  destruct (smart_cutoff_after_masking st _ m x k Hk Hx) as [Hcut [y Hy]].
  exists m. split; [exact Hm |]. split.
  { rewrite !assign_other by discriminate. exact Hm. }
  unfold SmartExplainer.filter_cutoff.
  replace (SmartExplainer.truthy_Z (Some k)) with true
    by (simpl; destruct (Z.eqb_spec k 0); [lia | reflexivity]).
  cbn [SmartExplainer.when]. change (default 0 (Some k)) with k.
  rewrite bind_assoc, (bind_getattr state st _ s1 Hst).
  rewrite bind_assoc, (bind_getattr mask m _ s1 Hm).
  rewrite bind_assoc, bind_call, Hcut, bind_setattr.
  rewrite (filter_store_run smart_state d _ _ st
             (poly_map (cut_rows (Z.to_nat k)) m) y);
    [| rewrite assign_other by discriminate; exact Hst | apply assign_same | exact Hy].
  cbn [fst snd]. split; [reflexivity |].
  rewrite !assign_other by discriminate. apply assign_same.
Qed.



End Filter.

Lemma cutoff_applies_to_combined_mask_witness :
  (SmartExplainer.filter Demo.lib smart_state None None (Some false) (Some 1) None
     Demo.compiled).1 = Ok tt /\
  (SmartExplainer.filter Demo.lib smart_state None None (Some false) (Some 1) None
     Demo.compiled).2 mask
  = Some (One {| columns := ["age"; "fare"; "sex"]; index := [0; 1];
                 values := [[false; true; false]; [true; false; false]] |}).
Proof.
  destruct (cutoff_applies_to_combined_mask Demo.lib None None (Some false) 1 None
              Demo.compiled ltac:(lia) eq_refl)
    as (combined & Hcombined & _ & Hreturns & Hmask).
  split; [exact Hreturns |].
  rewrite Hmask. vm_compute in Hcombined. injection Hcombined as <-.
  reflexivity.
Defined.

(** The cutoff of the same call, had it been taken on the ranked positions
    and then combined, would have hidden every feature of the first row. *)
Example cutoff_on_ranked_positions_differs :
  SmartState.and_mask
    (SmartState.sign_contributions Demo.contribs false)
    (cut_rows 1 (all_true Demo.contribs))
  = {| columns := ["age"; "fare"; "sex"]; index := [0; 1];
       values := [[false; false; false]; [true; false; false]] |}.
Proof. reflexivity. Qed.



(** ** filter: the mask is the conjunction of the criteria supplied *)

Lemma grid_fst c v : same_dims c v -> map (map fst) (grid c v) = values c.
Proof.
  unfold same_dims, grid. intros H. induction H as [| r1 r2 l1 l2 Hlen _ IH]; simpl.
  - reflexivity.
  - f_equal; [| exact IH]. apply fst_zip. lia.
Qed.

Lemma grid_snd c v : same_dims c v -> map (map snd) (grid c v) = values v.
Proof.
  unfold same_dims, grid. intros H. induction H as [| r1 r2 l1 l2 Hlen _ IH]; simpl.
  - reflexivity.
  - f_equal; [| exact IH]. apply snd_zip. lia.
Qed.

Lemma grid_zip_with {C} (f : Q -> Z -> C) c v :
  map (map (fun x => f x.1 x.2)) (grid c v) = zip_with (zip_with f) (values c) (values v).
Proof.
  unfold grid. generalize (values v) as l2.
  induction (values c) as [| r1 l1 IH]; intros [| r2 l2]; simpl; try reflexivity.
  f_equal; [| apply IH]. clear.
  revert r2. induction r1 as [| x r1 IH]; intros [| y r2]; simpl; try reflexivity.
  f_equal. apply IH.
Qed.

Lemma and_mask_on_grid P g1 g2 m1 m2 :
  on_grid P g1 m1 -> on_grid P g2 m2 ->
  on_grid P (fun x => g1 x && g2 x) (SmartState.and_mask m1 m2).
Proof.
  unfold on_grid. simpl. intros -> ->.
  induction P as [| r P IH]; simpl; [reflexivity |].
  f_equal; [| exact IH].
  induction r as [| x r IHr]; simpl; [reflexivity | f_equal; exact IHr].
Qed.

Lemma foldl_and_mask_on_grid P ms : forall gs g0 m0,
  on_grid P g0 m0 -> Forall2 (on_grid P) gs ms ->
  on_grid P (fun x => foldl (fun acc g => acc && g x) (g0 x) gs)
          (foldl SmartState.and_mask m0 ms).
Proof.
  induction ms as [| m ms IH]; intros gs g0 m0 H0 Hall.
  - apply Forall2_nil_inv_r in Hall as ->. exact H0.
  - apply Forall2_cons_inv_r in Hall as (g & gs' & Hg & Hgs & ->). simpl.
    apply (IH gs' (fun x => g0 x && g x)); [| exact Hgs].
    apply and_mask_on_grid; assumption.
Qed.

Lemma foldl_and_mask_labels ms : forall m0,
  columns (foldl SmartState.and_mask m0 ms) = columns m0 /\
  index (foldl SmartState.and_mask m0 ms) = index m0.
Proof.
  induction ms as [| m ms IH]; intros m0; simpl; [auto |].
  destruct (IH (SmartState.and_mask m0 m)) as [-> ->]. auto.
Qed.

Lemma df_map_on_grid_fst (g : Q -> bool) c v :
  same_dims c v -> on_grid (grid c v) (fun x => g x.1) (df_map g c).
Proof.
  intros H. unfold on_grid. simpl. rewrite <- (grid_fst c v H) at 1.
  rewrite map_map. apply map_ext. intros r. apply map_map.
Qed.

Lemma df_map_on_grid_snd (g : Z -> bool) c v :
  same_dims c v -> on_grid (grid c v) (fun x => g x.2) (df_map g v).
Proof.
  intros H. unfold on_grid. simpl. rewrite <- (grid_snd c v H) at 1.
  rewrite map_map. apply map_ext. intros r. apply map_map.
Qed.

Lemma criteria_frames_on_grid ids threshold positive c v :
  same_dims c v ->
  Forall2 (on_grid (grid c v)) (criteria_tests ids threshold positive)
          (criteria_frames ids threshold positive c v).
Proof.
  intros Hdims. unfold criteria_tests, criteria_frames.
  repeat apply Forall2_app.
  - destruct ids as [l |]; constructor; [| constructor].
    apply (df_map_on_grid_snd (fun v0 => negb (bool_decide (v0 ∈ l))) c v Hdims).
  - destruct threshold as [t |]; constructor; [| constructor].
    apply (df_map_on_grid_fst (fun x => Qle_bool t (Qabs x)) c v Hdims).
  - destruct positive as [p |]; constructor; [| constructor].
    apply (df_map_on_grid_fst
             (fun x => if p then negb (Qle_bool x 0) else negb (Qle_bool 0 x)) c v Hdims).
Qed.

Lemma criteria_tests_visible ids threshold positive (x : Q * Z) :
  foldl (fun acc g => acc && g x) true (criteria_tests ids threshold positive)
  = visible ids threshold positive x.1 x.2.
Proof.
  unfold criteria_tests, visible.
  destruct ids as [l |], threshold as [t |], positive as [[|] |]; simpl;
    rewrite ?andb_true_r; reflexivity.
Qed.

(** On one table, the masks of the criteria in force, combined with the
    all-true mask, hide exactly the positions that a criterion hides. *)
Lemma combined_frame ids threshold positive c v :
  same_dims c v ->
  foldl SmartState.and_mask (SmartState.init_mask c true)
        (criteria_frames ids threshold positive c v)
  = criteria_mask ids threshold positive c v.
Proof.
  intros Hdims.
  pose proof (foldl_and_mask_labels (criteria_frames ids threshold positive c v)
                (SmartState.init_mask c true)) as [Hcols Hidx].
  pose proof (foldl_and_mask_on_grid (grid c v) _ _ (fun _ => true)
                (SmartState.init_mask c true)
                (df_map_on_grid_fst (fun _ => true) c v Hdims)
                (criteria_frames_on_grid ids threshold positive c v Hdims)) as Hvalues.
  unfold on_grid in Hvalues.
  destruct (foldl SmartState.and_mask _ _) as [cols idx vals].
  simpl in *. subst. unfold criteria_mask. f_equal.
  rewrite <- grid_zip_with. apply map_ext. intros r. apply map_ext. intros x.
  apply criteria_tests_visible.
Qed.

Lemma unconstrained_frame (c : DataFrame Q) (v : DataFrame Z) :
  same_dims c v -> criteria_mask None None None c v = all_true c.
Proof.
  intros Hdims. unfold criteria_mask, all_true. f_equal.
  rewrite <- (grid_zip_with (visible None None None)).
  rewrite <- (grid_fst c v Hdims) at 1. rewrite map_map.
  apply map_ext. intros r. rewrite map_map. reflexivity.
Qed.

Lemma transpose_table {A B} (Fs : list (A -> B)) (l : list A) :
  MultiDecorator.transpose (length l) (map (fun F => map F l) Fs)
  = map (fun a => map (fun F => F a) Fs) l.
Proof.
  unfold MultiDecorator.transpose.
  induction Fs as [| F Fs IH]; simpl.
  - induction l as [| a l IHl]; simpl; [reflexivity | f_equal; exact IHl].
  - rewrite IH. clear IH.
    induction l as [| a l IHl]; simpl; [reflexivity | f_equal; exact IHl].
Qed.

Lemma criteria_makers_frames ids threshold positive (cv : DataFrame Q * DataFrame Z) :
  map (fun F => F cv) (criteria_makers ids threshold positive)
  = SmartState.init_mask cv.1 true :: criteria_frames ids threshold positive cv.1 cv.2.
Proof. destruct ids, threshold, positive; reflexivity. Qed.

Lemma criteria_polys_one ids threshold positive c v :
  criteria_polys ids threshold positive (One c) (One v)
  = map One (map (fun F => F (c, v)) (criteria_makers ids threshold positive)).
Proof. destruct ids, threshold, positive; reflexivity. Qed.

Lemma criteria_polys_many ids threshold positive cs vs :
  length cs = length vs ->
  criteria_polys ids threshold positive (Many cs) (Many vs)
  = map (fun F => Many (map F (zip cs vs))) (criteria_makers ids threshold positive).
Proof.
  intros Hlen.
  assert (Hc : forall (g : DataFrame Q -> DataFrame bool),
             map g cs = map (fun cv : DataFrame Q * DataFrame Z => g cv.1) (zip cs vs)).
  { intros g. rewrite <- (fst_zip cs vs) at 1 by lia. apply map_map. }
  assert (Hv : forall (g : DataFrame Z -> DataFrame bool),
             map g vs = map (fun cv : DataFrame Q * DataFrame Z => g cv.2) (zip cs vs)).
  { intros g. rewrite <- (snd_zip cs vs) at 1 by lia. apply map_map. }
  unfold criteria_polys, criteria_makers, poly_map.
  rewrite !map_app. repeat f_equal.
  - simpl. f_equal. f_equal. apply Hc.
  - destruct ids as [l |]; simpl; [| reflexivity]. do 2 f_equal. apply Hv.
  - destruct threshold as [t |]; simpl; [| reflexivity]. do 2 f_equal. apply Hc.
  - destruct positive as [p |]; simpl; [| reflexivity]. do 2 f_equal. apply Hc.
Qed.

Lemma mapM_as_one {A} (l : list A) : mapM MultiDecorator.as_one (map One l) = Ok l.
Proof. induction l as [| a l IH]; simpl; [reflexivity |]. rewrite IH. reflexivity. Qed.

Lemma mapM_as_many {A} (ls : list (list A)) :
  mapM MultiDecorator.as_many (map Many ls) = Ok ls.
Proof. induction ls as [| l ls IH]; simpl; [reflexivity |]. rewrite IH. reflexivity. Qed.

Lemma call_list_one {A B} (f : list A -> result B) (l : list A) :
  MultiDecorator.call_list PlainState f (map One l)
  = result_bind (f l) (fun b => Ok (One b)).
Proof. unfold MultiDecorator.call_list. rewrite mapM_as_one. reflexivity. Qed.

Lemma call_list_table {A B C} (f : list B -> result C) (g : list B -> C)
    (F0 : A -> B) (Fs : list (A -> B)) (a0 : A) (l : list A) :
  (forall b bs, f (b :: bs) = Ok (g (b :: bs))) ->
  MultiDecorator.call_list MultiState f
    (map (fun F => Many (map F (a0 :: l))) (F0 :: Fs))
  = Ok (Many (map (fun a => g (map (fun F => F a) (F0 :: Fs))) (a0 :: l))).
Proof.
  intros Hf. unfold MultiDecorator.call_list.
  rewrite <- (map_map (fun F => map F (a0 :: l)) Many), mapM_as_many.
  cbn [result_bind].
  change (map (fun F => map F (a0 :: l)) (F0 :: Fs))
    with ((F0 a0 :: map F0 l) :: map (fun F => map F (a0 :: l)) Fs) at 1.
  cbn iota.
  change (F0 a0 :: map F0 l) with (map F0 (a0 :: l)).
  rewrite length_map.
  change (map F0 (a0 :: l) :: map (fun F => map F (a0 :: l)) Fs)
    with (map (fun F => map F (a0 :: l)) (F0 :: Fs)).
  rewrite transpose_table.
  rewrite (mapM_total g).
  - rewrite map_map. reflexivity.
  - intros bs Hbs. apply list_elem_of_fmap in Hbs as (a & -> & _). apply Hf.
Qed.

Lemma Forall2_zip {A B} (R : A -> B -> Prop) (l : list A) (k : list B) :
  Forall2 R l k -> forall ab, ab ∈ zip l k -> R ab.1 ab.2.
Proof.
  intros H. induction H as [| a b l k Hab _ IH]; intros ab Hin; simpl in Hin.
  - inversion Hin.
  - apply elem_of_cons in Hin as [-> | Hin]; [exact Hab | apply IH, Hin].
Qed.

(** With the masking methods of the spec, the masks of the criteria in
    force, combined with the all-true mask, hide exactly the positions that
    a criterion hides, on one table and on each table of a list. *)
Lemma smart_combine st (d : Data) ids threshold positive :
  fits st (contrib_sorted d) -> aligned d ->
  combine_masks smart_state st
    (criteria_polys ids threshold positive (contrib_sorted d) (var_dict d))
  = Ok (poly_zip (criteria_mask ids threshold positive) (contrib_sorted d) (var_dict d)).
Proof.
  unfold aligned. intros Hfit Hal. cbn [combine_masks smart_state].
  destruct st, (contrib_sorted d) as [c | [| c cs]], (var_dict d) as [v | vs];
    try contradiction.
  - rewrite criteria_polys_one, call_list_one, criteria_makers_frames.
    cbn [SmartState.combine_masks result_bind fst snd poly_zip].
    rewrite combined_frame by exact Hal. reflexivity.
  - pose proof (Forall2_length _ _ _ Hal) as Hlen.
    destruct vs as [| v vs]; [discriminate |].
    rewrite criteria_polys_many by exact Hlen.
    change (zip (c :: cs) (v :: vs)) with ((c, v) :: zip cs vs).
    destruct (criteria_makers ids threshold positive) as [| F0 Fs] eqn:HFs.
    { destruct ids, threshold, positive; discriminate. }
    rewrite (call_list_table SmartState.combine_masks
               (fun ms => match ms with
                          | [] => all_true c
                          | m :: ms' => foldl SmartState.and_mask m ms'
                          end)) by reflexivity.
    cbn [poly_zip]. do 2 f_equal.
    change ((c, v) :: zip cs vs) with (zip (c :: cs) (v :: vs)).
    rewrite (zip_with_zip (criteria_mask ids threshold positive)).
    apply list_fmap_ext.
    intros i cv Hcv. apply list_elem_of_lookup_2 in Hcv.
    rewrite <- HFs, criteria_makers_frames.
    pose proof (Forall2_zip _ _ _ Hal cv Hcv) as Hdims.
    destruct cv as [c0 v0]. apply combined_frame, Hdims.
Qed.

Lemma call1_inv {A B} (st : State) (f : A -> result B) (x : Poly A) r :
  MultiDecorator.call1 st f x = Ok r ->
  fits st x /\
  match x, r with
  | One a, One b => f a = Ok b
  | Many l, Many bs => mapM f l = Ok bs
  | _, _ => False
  end.
Proof.
  unfold MultiDecorator.call1.
  destruct st, x as [a | [| a l]]; try discriminate.
  - destruct (f a) as [b |] eqn:Hf; [| discriminate]. simpl. intros [= <-].
    split; [exact I | reflexivity].
  - destruct (mapM f (a :: l)) as [bs |] eqn:Hf; [| discriminate].
    simpl. intros [= <-]. split; [exact I | reflexivity].
Qed.

Lemma mapM_inv {A B} (f : A -> result B) (g : A -> B) (l : list A) bs :
  (forall a b, f a = Ok b -> b = g a) -> mapM f l = Ok bs -> bs = map g l.
Proof.
  intros Hf. revert bs. induction l as [| a l IH]; intros bs; simpl.
  - intros [= <-]. reflexivity.
  - destruct (f a) as [b |] eqn:Hb; [| discriminate]. simpl.
    destruct (mapM f l) as [bs' |]; [| discriminate]. simpl. intros [= <-].
    rewrite (Hf a b Hb), (IH bs' eq_refl). reflexivity.
Qed.

Lemma call1_inv_map {A B} (st : State) (f : A -> result B) (g : A -> B) (x : Poly A) r :
  (forall a b, f a = Ok b -> b = g a) ->
  MultiDecorator.call1 st f x = Ok r -> fits st x /\ r = poly_map g x.
Proof.
  intros Hf Hcall. apply call1_inv in Hcall as [Hfit Hr]. split; [exact Hfit |].
  destruct x as [a | l], r as [b | bs]; try contradiction; simpl.
  - f_equal. apply Hf, Hr.
  - f_equal. eapply mapM_inv; eassumption.
Qed.

Lemma smart_cap_inv (c : DataFrame Q) (t : Q) b :
  SmartState.cap_contributions c t = Ok b -> b = df_map (fun x => Qle_bool t (Qabs x)) c.
Proof.
  unfold SmartState.cap_contributions. destruct (negb (Qle_bool 0 t)); [discriminate |].
  intros [= <-]. reflexivity.
Qed.

Lemma visible_zero_threshold ids (t : Q) positive x v :
  Qeq_bool t 0 = true ->
  visible ids (Some t) positive x v = visible ids None positive x v.
Proof.
  intros Ht. unfold visible. do 2 f_equal.
  apply Qle_bool_iff. apply Qeq_bool_iff in Ht. rewrite Ht. apply Qabs_nonneg.
Qed.

Lemma criteria_mask_in_force ids threshold positive c v :
  criteria_mask ids (threshold_in_force threshold) positive c v
  = criteria_mask ids threshold positive c v.
Proof.
  unfold threshold_in_force, SmartExplainer.truthy_Q.
  destruct threshold as [t |]; [| reflexivity].
  destruct (Qeq_bool t 0) eqn:Ht; [| reflexivity]. simpl.
  unfold criteria_mask. f_equal.
  rewrite <- !grid_zip_with. apply map_ext. intros r. apply map_ext. intros x.
  symmetry. apply visible_zero_threshold, Ht.
Qed.

Section Conjunction.

Context {ModelObj ExplainerObj Encoder : Type}.

Abbreviation Self := (Obj ModelObj ExplainerObj Encoder).
Abbreviation Method := (M ModelObj ExplainerObj Encoder).

Variable lib : SmartExplainer.Collaborators ModelObj ExplainerObj Encoder.

Lemma check_features_name_store features use_groups (self self' : Self) r :
  SmartExplainer.check_features_name lib features use_groups self = (r, self') ->
  self' = self.
Proof.
  unfold SmartExplainer.check_features_name, bind, getattr, call.
  destruct use_groups.
  - destruct (self columns_dict_groups); [| intros [= _ <-]; reflexivity].
    destruct (self features_dict); intros [= _ <-]; reflexivity.
  - destruct (self columns_dict); [| intros [= _ <-]; reflexivity].
    destruct (self features_dict); intros [= _ <-]; reflexivity.
Qed.

Lemma shown_data_inv dg (self s : Self) fg d d0 :
  shown_data dg self = Some d0 ->
  self features_groups = Some fg ->
  (if SmartExplainer.groups_shown dg fg then getattr data_groups else getattr data) self
    = (Ok d, s) ->
  d = d0 /\ s = self.
Proof.
  unfold shown_data. intros Hshown Hfg. rewrite Hfg in Hshown.
  destruct (SmartExplainer.groups_shown dg fg); intros Hd.
  - apply (getattr_ok_inv data_groups) in Hd as [Hd ->]. split; congruence.
  - apply (getattr_ok_inv data) in Hd as [Hd ->]. split; congruence.
Qed.

Lemma hide_branch_inv h dg fg (d : Data) ml0 (self s : Self) ml :
  self features_groups = Some fg ->
  (if SmartExplainer.truthy_list h then
     st <- getattr state ;;
     ids <- SmartExplainer.check_features_name lib (default [] h)
              (SmartExplainer.groups_shown dg fg) ;;
     m <- call (hide_contributions smart_state st (var_dict d) ids) ;;
     ret (ml0 ++ [m])
   else ret ml0) self = (Ok ml, s) ->
  s = self /\
  exists ids,
    hidden_ids lib h dg self ids /\
    ml = ml0 ++ match ids with
                | Some l => [poly_map (fun v => SmartState.hide_contributions v l)
                               (var_dict d)]
                | None => []
                end.
Proof.
  intros Hfg. unfold hidden_ids. destruct (SmartExplainer.truthy_list h).
  - intros Hrun. peel Hrun st Hst. peel Hrun ids Hids.
    pose proof (check_features_name_store _ _ _ _ _ Hids) as ->.
    peel Hrun m Hm. injection Hrun as <- <-.
    apply (call1_inv_map _ _ (fun v => SmartState.hide_contributions v ids)) in Hm
      as [_ ->]; [| intros a b [= <-]; reflexivity].
    split; [reflexivity |]. exists (Some ids). split; [| reflexivity].
    exists ids, fg. auto.
  - intros [= <- <-]. split; [reflexivity |]. exists None.
    split; [reflexivity | symmetry; apply app_nil_r].
Qed.

Lemma cap_branch_inv t (d : Data) ml0 (self s : Self) ml :
  (if SmartExplainer.truthy_Q t then
     st <- getattr state ;;
     m <- call (cap_contributions smart_state st (contrib_sorted d) (default 0%Q t)) ;;
     ret (ml0 ++ [m])
   else ret ml0) self = (Ok ml, s) ->
  s = self /\
  ml = ml0 ++ match threshold_in_force t with
              | Some t0 => [poly_map (df_map (fun x => Qle_bool t0 (Qabs x)))
                              (contrib_sorted d)]
              | None => []
              end.
Proof.
  unfold threshold_in_force. destruct (SmartExplainer.truthy_Q t) eqn:Ht.
  - destruct t as [t0 |]; [| discriminate].
    intros Hrun. peel Hrun st Hst. peel Hrun m Hm. injection Hrun as <- <-.
    apply (call1_inv_map _ _ (df_map (fun x => Qle_bool t0 (Qabs x)))) in Hm
      as [_ ->]; [| intros a b; apply smart_cap_inv].
    auto.
  - intros [= <- <-]. split; [reflexivity | symmetry; apply app_nil_r].
Qed.

Lemma sign_branch_inv p (d : Data) ml0 (self s : Self) ml :
  match p with
  | Some p0 =>
      st <- getattr state ;;
      m <- call (sign_contributions smart_state st (contrib_sorted d) p0) ;;
      ret (ml0 ++ [m])
  | None => ret ml0
  end self = (Ok ml, s) ->
  s = self /\
  ml = ml0 ++ match p with
              | Some p0 => [poly_map (fun c => SmartState.sign_contributions c p0)
                              (contrib_sorted d)]
              | None => []
              end.
Proof.
  destruct p as [p0 |].
  - intros Hrun. peel Hrun st Hst. peel Hrun m Hm. injection Hrun as <- <-.
    apply (call1_inv_map _ _ (fun c => SmartState.sign_contributions c p0)) in Hm
      as [_ ->]; [| intros a b [= <-]; reflexivity].
    auto.
  - intros [= <- <-]. split; [reflexivity | symmetry; apply app_nil_r].
Qed.

(** What lines 729-756 have done when they return, the masking methods
    being those of the spec. *)
Lemma filter_combine_smart h t p dg (self s1 : Self) d0 d :
  shown_data dg self = Some d0 ->
  SmartExplainer.filter_combine lib smart_state h t p dg self = (Ok d, s1) ->
  d = d0 /\
  exists st ids combined,
    self state = Some st /\ fits st (contrib_sorted d) /\
    hidden_ids lib h dg self ids /\
    combine_masks smart_state st
      (criteria_polys ids (threshold_in_force t) p (contrib_sorted d) (var_dict d))
      = Ok combined /\
    s1 = assign mask combined self.
Proof.
  intros Hshown Hrun. unfold SmartExplainer.filter_combine in Hrun.
  peel Hrun fg Hfg. peel Hrun d' Hd.
  destruct (shown_data_inv _ _ _ _ _ _ Hshown Hfg Hd) as [-> ->]. clear Hd.
  peel Hrun st Hst. peel Hrun m0 Hm0.
  apply (call1_inv_map _ _ (fun c => SmartState.init_mask c true)) in Hm0
    as [Hfit ->]; [| intros a b [= <-]; reflexivity].
  cbv zeta in Hrun.
  peel Hrun ml1 H1. apply (hide_branch_inv _ _ _ _ _ _ _ _ Hfg) in H1
    as (-> & ids & Hids & ->).
  peel Hrun ml2 H2. apply cap_branch_inv in H2 as (-> & ->).
  peel Hrun ml3 H3. apply sign_branch_inv in H3 as (-> & ->).
  peel Hrun st' Hst'. peel Hrun combined Hcombined.
  injection Hrun as <- <-.
  assert (st' = st) as -> by congruence.
  split; [reflexivity |]. exists st, ids, combined.
  repeat split; try assumption.
  unfold criteria_polys. rewrite <- !app_assoc in Hcombined. exact Hcombined.
Qed.

Lemma poly_zip_ext {A B C} (f g : A -> B -> C) (x : Poly A) (y : Poly B) :
  (forall a b, f a b = g a b) -> poly_zip f x y = poly_zip g x y.
Proof.
  intros Hfg. destruct x as [a | la], y as [b | lb]; simpl; try reflexivity.
  - f_equal. apply Hfg.
  - f_equal. revert lb. induction la as [| a la IH]; intros [| b lb]; simpl;
      try reflexivity.
    f_equal; [apply Hfg | apply IH].
Qed.

Lemma fits_poly_map {A B} (g : A -> B) st (x : Poly A) :
  fits st x -> fits st (poly_map g x).
Proof. destruct st, x as [a | [| a l]]; simpl; auto. Qed.

Lemma smart_combine_base st (cs : Poly (DataFrame Q)) :
  fits st cs ->
  combine_masks smart_state st [poly_map (fun c => SmartState.init_mask c true) cs]
  = Ok (poly_map all_true cs).
Proof.
  intros Hfit. cbn [combine_masks smart_state].
  destruct st, cs as [c | [| c l]]; try contradiction.
  - reflexivity.
  - change [poly_map (fun c0 => SmartState.init_mask c0 true) (Many (c :: l))]
      with (map (fun F : DataFrame Q -> DataFrame bool => Many (map F (c :: l)))
                [fun c0 => SmartState.init_mask c0 true]).
    rewrite (call_list_table SmartState.combine_masks
               (fun ms => match ms with
                          | [] => all_true c
                          | m :: ms' => foldl SmartState.and_mask m ms'
                          end)) by reflexivity.
    reflexivity.
Qed.

(** C4.  With the masking methods of the spec and no cutoff.  When no
    criterion is supplied, filter returns and leaves the all-true mask, with
    the labels and the shape of contrib_sorted (of each of its tables for a
    classification).  In general, contrib_sorted and var_dict having
    identical shapes, the mask that filter leaves is true exactly at the
    positions that pass every criterion supplied: a criterion that is not
    supplied asks nothing of a position. *)
Theorem filter_mask_is_conjunction dg (self : Self) d :
  shown_data dg self = Some d ->
  (forall st, self state = Some st -> fits st (contrib_sorted d) ->
     exists self',
       SmartExplainer.filter lib smart_state None None None None dg self = (Ok tt, self') /\
       self' mask = Some (poly_map all_true (contrib_sorted d))) /\
  (aligned d ->
   forall h t p self',
     SmartExplainer.filter lib smart_state h t p None dg self = (Ok tt, self') ->
     exists ids,
       hidden_ids lib h dg self ids /\
       self' mask
       = Some (poly_zip (criteria_mask ids t p) (contrib_sorted d) (var_dict d))).
Proof.
  intros Hshown. split.
  - intros st Hst Hfit.
    assert (Hcombine : SmartExplainer.filter_combine lib smart_state None None None dg self
                       = (Ok d, assign mask (poly_map all_true (contrib_sorted d)) self)).
    { unfold shown_data in Hshown.
      destruct (self features_groups) as [fg |] eqn:Hfg; [| discriminate].
      unfold SmartExplainer.filter_combine.
      rewrite (bind_getattr features_groups fg _ self Hfg). cbv zeta.
      destruct (SmartExplainer.groups_shown dg fg).
      - rewrite (bind_getattr data_groups d _ self Hshown).
        rewrite (bind_getattr state st _ self Hst), bind_call.
        cbn [init_mask smart_state].
        rewrite (call1_total st _ (fun c => SmartState.init_mask c true)) by auto.
        cbn [SmartExplainer.truthy_list SmartExplainer.truthy_Q]. rewrite !bind_ret.
        rewrite (bind_getattr state st _ self Hst), bind_call.
        rewrite (smart_combine_base st _ Hfit). reflexivity.
      - rewrite (bind_getattr data d _ self Hshown).
        rewrite (bind_getattr state st _ self Hst), bind_call.
        cbn [init_mask smart_state].
        rewrite (call1_total st _ (fun c => SmartState.init_mask c true)) by auto.
        cbn [SmartExplainer.truthy_list SmartExplainer.truthy_Q]. rewrite !bind_ret.
        rewrite (bind_getattr state st _ self Hst), bind_call.
        rewrite (smart_combine_base st _ Hfit). reflexivity. }
    destruct (call2_total st
                (fun c b => Ok (SmartState.compute_masked_contributions c b))
                SmartState.compute_masked_contributions
                (contrib_sorted d) (poly_map all_true (contrib_sorted d)))
      as [x Hx]; [exact Hfit | apply fits_poly_map, Hfit | | reflexivity |].
    { destruct (contrib_sorted d); simpl; [exact I | symmetry; apply length_map]. }
    rewrite filter_unfold, Hcombine, filter_cutoff_unset, bind_ret.
    rewrite (filter_store_run smart_state d _ _ st
               (poly_map all_true (contrib_sorted d)) x);
      [| rewrite assign_other by discriminate; exact Hst | apply assign_same | exact Hx].
    eexists. split; [reflexivity |].
    rewrite !assign_other by discriminate. apply assign_same.
  - intros Hal h t p self' Hrun. rewrite filter_unfold in Hrun.
    destruct (SmartExplainer.filter_combine lib smart_state h t p dg self)
      as [[d' | e] s1] eqn:Hcombine; [| discriminate].
    rewrite filter_cutoff_unset, bind_ret in Hrun.
    apply filter_store_inv in Hrun as (st' & m & x & _ & Hm & _ & ->).
    apply (filter_combine_smart _ _ _ _ _ _ d) in Hcombine
      as (-> & st & ids & combined & Hst & Hfit & Hids & Hcomb & ->);
      [| exact Hshown].
    rewrite smart_combine in Hcomb by assumption. injection Hcomb as <-.
    exists ids. split; [exact Hids |].
    rewrite !assign_other by discriminate. rewrite Hm. f_equal.
    rewrite assign_same in Hm. injection Hm as <-.
    apply poly_zip_ext. intros c v. apply criteria_mask_in_force.
Qed.

End Conjunction.

Lemma filter_mask_is_conjunction_witness :
  (exists self',
     SmartExplainer.filter Demo.lib smart_state None None None None None Demo.compiled
       = (Ok tt, self') /\
     self' mask = Some (One (all_true Demo.contribs))) /\
  (SmartExplainer.filter Demo.lib smart_state (Some [ByName "fare"]) (Some (1 # 5)%Q)
     None None None Demo.compiled).2 mask
  = Some (One {| columns := ["age"; "fare"; "sex"]; index := [0; 1];
                 values := [[true; false; false]; [true; false; false]] |}).
Proof.
  destruct (filter_mask_is_conjunction Demo.lib None Demo.compiled Demo.ranked eq_refl)
    as [Hbase Hcriteria].
  split.
  - apply (Hbase PlainState eq_refl I).
  - set (run := SmartExplainer.filter Demo.lib smart_state (Some [ByName "fare"])
                  (Some (1 # 5)%Q) None None None Demo.compiled).
    assert (Hrun : run = (Ok tt, run.2)).
    { rewrite (surjective_pairing run) at 1. f_equal. }
    destruct (Hcriteria ltac:(repeat constructor) _ _ _ _ Hrun) as (ids & Hids & Hmask).
    rewrite Hmask. unfold hidden_ids in Hids. simpl in Hids.
    destruct Hids as (l & fg & Hfg & Hcheck & ->).
    vm_compute in Hfg. injection Hfg as <-.
    vm_compute in Hcheck. injection Hcheck as <-. reflexivity.
Defined.

(** ** to_pandas: the prediction it needs, the mask it reuses *)

(** One step of a proof that a method assigns only some attributes. *)
Ltac frame_step :=
  lazymatch goal with
  | |- assigns_only _ (bind _ _) => apply assigns_only_bind; [| intros ?]
  | |- assigns_only _ (getattr ?b) => apply (assigns_only_getattr b)
  | |- assigns_only _ (setattr ?b ?v) =>
      apply (assigns_only_setattr b v); repeat constructor
  | |- assigns_only _ (ret _) => apply assigns_only_ret
  | |- assigns_only _ (raise _) => apply assigns_only_raise
  | |- assigns_only _ (call _) => apply assigns_only_call
  | |- assigns_only _ (SmartExplainer.when ?b _) => destruct b; simpl
  | |- assigns_only _ (if ?b then _ else _) => destruct b
  | |- assigns_only _ (match ?x with _ => _ end) => destruct x
  end.

(** An attribute that is none of the three that [filter] assigns. *)
Ltac not_cached :=
  unfold filter_cache;
  let Hin := fresh "Hin" in
  intros Hin;
  repeat (apply elem_of_cons in Hin as [Hin | Hin]; [discriminate |]);
  inversion Hin.

Section ToPandas.

Context {ModelObj ExplainerObj Encoder : Type}.

Abbreviation Self := (Obj ModelObj ExplainerObj Encoder).
Abbreviation Method := (M ModelObj ExplainerObj Encoder).

Variable lib : SmartExplainer.Collaborators ModelObj ExplainerObj Encoder.
Variable masks : MaskAlgebra.

Lemma summarize_and_join_frame d proba ug :
  assigns_only [data; data_groups; proba_values]
    (SmartExplainer.summarize_and_join lib d proba ug : Method _).
Proof.
  unfold SmartExplainer.summarize_and_join, SmartExplainer.predict_proba.
  repeat frame_step.
Qed.

Lemma to_pandas_unfold h t p k proba ug (self : Self) fg d y :
  self features_groups = Some fg ->
  shown_data ug self = Some d ->
  self y_pred = Some (Some y) ->
  SmartExplainer.to_pandas lib masks h t p k proba ug self
  = bind (SmartExplainer.apply_filter_if_necessary lib masks d h t p k
            (SmartExplainer.groups_shown ug fg))
         (fun _ => SmartExplainer.summarize_and_join lib d proba
                     (SmartExplainer.groups_shown ug fg)) self.
Proof.
  intros Hfg Hd Hy. unfold SmartExplainer.to_pandas.
  rewrite (bind_getattr features_groups fg _ self Hfg). cbv zeta.
  unfold shown_data in Hd. rewrite Hfg in Hd.
  destruct (SmartExplainer.groups_shown ug fg).
  - rewrite (bind_getattr data_groups d _ self Hd).
    rewrite (bind_getattr y_pred (Some y) _ self Hy). reflexivity.
  - rewrite (bind_getattr data d _ self Hd).
    rewrite (bind_getattr y_pred (Some y) _ self Hy). reflexivity.
Qed.

Lemma pd_concat_aligned (a b : DataFrame cell) :
  index a = index b ->
  pd_concat a b = {| columns := columns a ++ columns b; index := index a;
                     values := zip_with app (values a) (values b) |}.
Proof. intros H. unfold pd_concat. rewrite bool_decide_eq_true_2 by exact H. reflexivity. Qed.

(** Reading an attribute that earlier assignments have not touched. *)
Ltac read a v H :=
  rewrite (bind_getattr a v) by (rewrite ?assign_other by discriminate; exact H).

Lemma summarize_and_join_run d (proba ug : bool) (s1 : Self)
    (cols : gmap nat string) (st : State) (m : Poly (DataFrame bool))
    (fd : gmap string string) s (y : option (DataFrame cell)) (c : string)
    (cl : option (list Z)) (ld : option (gmap Z string)) (pv : DataFrame Q)
    predicted explained :
  (if ug then exists xg : DataFrame cell,
       s1 x_pred_groups = Some xg /\ cols = SmartExplainer.enumerate_dict (columns xg)
   else s1 columns_dict = Some cols) ->
  s1 state = Some st -> s1 mask = Some m -> s1 features_dict = Some fd ->
  SmartExplainer.st_summarize lib st (contrib_sorted d) (var_dict d) (x_sorted d)
    m cols fd = Ok s ->
  (if proba then exists (mo : ModelObj) (xi : DataFrame cell),
       s1 model = Some mo /\ s1 x_init = Some xi /\
       SmartExplainer.lib_predict_proba lib mo xi cl = Ok pv
   else True) ->
  s1 y_pred = Some y -> s1 _case = Some c -> s1 _classes = Some cl ->
  s1 label_dict = Some ld ->
  SmartExplainer.lib_keep_right_contributions lib y s c cl ld
    (if proba then Some pv else None) = Ok (predicted, explained) ->
  let s2 := if ug then assign data_groups (set_summary s d) s1
            else assign data (set_summary s d) s1 in
  SmartExplainer.summarize_and_join lib d proba ug s1
  = (Ok (pd_concat predicted explained),
     if proba then assign proba_values pv s2 else s2).
Proof.
  intros Hcols Hst Hm Hfd Hs Hproba Hy Hc Hcl Hld Hkeep s2. subst s2.
  unfold SmartExplainer.summarize_and_join.
  assert (Hread : forall B (k : gmap nat string -> Method B),
            bind (if ug then xg <- getattr x_pred_groups ;;
                               ret (SmartExplainer.enumerate_dict (columns xg))
                  else getattr columns_dict) k s1 = k cols s1).
  { intros B k0. destruct ug.
    - destruct Hcols as (xg & Hxg & ->). rewrite bind_assoc.
      rewrite (bind_getattr x_pred_groups xg _ s1 Hxg). reflexivity.
    - rewrite (bind_getattr columns_dict cols _ s1 Hcols). reflexivity. }
  rewrite Hread. clear Hread.
  read state st Hst. read mask m Hm. read features_dict fd Hfd.
  rewrite bind_call, Hs.
  destruct ug, proba; cbv iota in Hkeep |- *; rewrite bind_setattr.
  - destruct Hproba as (mo & xi & Hmo & Hxi & Hpv).
    unfold SmartExplainer.predict_proba. rewrite !bind_assoc.
    read model mo Hmo. rewrite ?bind_assoc. read x_init xi Hxi.
    rewrite ?bind_assoc. read _classes cl Hcl. rewrite ?bind_assoc.
    rewrite bind_call, Hpv, ?bind_assoc, bind_setattr, ?bind_assoc.
    rewrite (bind_getattr proba_values pv) by apply assign_same.
    rewrite bind_ret.
    read y_pred y Hy. read _case c Hc. read _classes cl Hcl. read label_dict ld Hld.
    unfold bind, call.
    change (attr_type ModelObj ExplainerObj Encoder proba_values) with (DataFrame Q).
    rewrite Hkeep. reflexivity.
  - rewrite bind_ret.
    read y_pred y Hy. read _case c Hc. read _classes cl Hcl. read label_dict ld Hld.
    unfold bind, call.
    change (attr_type ModelObj ExplainerObj Encoder proba_values) with (DataFrame Q).
    rewrite Hkeep. reflexivity.
  - destruct Hproba as (mo & xi & Hmo & Hxi & Hpv).
    unfold SmartExplainer.predict_proba. rewrite !bind_assoc.
    read model mo Hmo. rewrite ?bind_assoc. read x_init xi Hxi.
    rewrite ?bind_assoc. read _classes cl Hcl. rewrite ?bind_assoc.
    rewrite bind_call, Hpv, ?bind_assoc, bind_setattr, ?bind_assoc.
    rewrite (bind_getattr proba_values pv) by apply assign_same.
    rewrite bind_ret.
    read y_pred y Hy. read _case c Hc. read _classes cl Hcl. read label_dict ld Hld.
    unfold bind, call.
    change (attr_type ModelObj ExplainerObj Encoder proba_values) with (DataFrame Q).
    rewrite Hkeep. reflexivity.
  - rewrite bind_ret.
    read y_pred y Hy. read _case c Hc. read _classes cl Hcl. read label_dict ld Hld.
    unfold bind, call.
    change (attr_type ModelObj ExplainerObj Encoder proba_values) with (DataFrame Q).
    rewrite Hkeep. reflexivity.
Qed.

Lemma filter_frame h t p k dg :
  assigns_only filter_cache (SmartExplainer.filter lib masks h t p k dg : Method unit).
Proof.
  unfold SmartExplainer.filter, SmartExplainer.filter_combine,
    SmartExplainer.filter_cutoff, SmartExplainer.filter_store,
    SmartExplainer.check_features_name, filter_cache.
  cbv zeta. repeat frame_step.
Qed.

Lemma mask_fits_frame cs touched :
  assigns_only touched (SmartExplainer.mask_fits cs : Method bool).
Proof. unfold SmartExplainer.mask_fits. repeat frame_step. Qed.

Lemma apply_filter_frame d h t p k ug :
  assigns_only filter_cache
    (SmartExplainer.apply_filter_if_necessary lib masks d h t p k ug : Method unit).
Proof.
  unfold SmartExplainer.apply_filter_if_necessary.
  apply assigns_only_bind.
  - destruct (SmartExplainer.all_none h t p k); [| apply assigns_only_ret].
    intros self a Ha. destruct (hasattr self mask_params); [| reflexivity].
    apply (mask_fits_frame (contrib_sorted d) filter_cache self a Ha).
  - intros [|]; [apply assigns_only_ret | apply filter_frame].
Qed.

(** C7.  When y_pred is None, to_pandas raises and assigns nothing, so that
    no summary is produced; the exception is the ValueError "You have to
    specify y_pred argument..." as soon as the data to summarize are there.
    When y_pred is set, once the mask is settled (the filter step has
    returned), the summary computed and keep_right_contributions has
    returned, to_pandas returns the two tables of keep_right_contributions
    side by side: when these carry the same row labels, one per instance, the
    result has these row labels, each row being the prediction followed by
    the summary of the instance. *)
Theorem to_pandas_needs_y_pred h t p k (proba : bool) ug (self : Self) :
  (self y_pred = Some None ->
   (exists e, SmartExplainer.to_pandas lib masks h t p k proba ug self = (Raise e, self)) /\
   (forall d, shown_data ug self = Some d ->
      SmartExplainer.to_pandas lib masks h t p k proba ug self
      = (Raise (ValueError SmartExplainer.need_y_pred_msg), self))) /\
  (forall fg d (y : DataFrame cell) s1 (cols : gmap nat string) (st : State)
          (m : Poly (DataFrame bool)) (fd : gmap string string) s (c : string)
          (cl : option (list Z)) (ld : option (gmap Z string)) (pv : DataFrame Q)
          predicted explained,
     self features_groups = Some fg ->
     shown_data ug self = Some d ->
     self y_pred = Some (Some y) ->
     SmartExplainer.apply_filter_if_necessary lib masks d h t p k
       (SmartExplainer.groups_shown ug fg) self = (Ok tt, s1) ->
     (if SmartExplainer.groups_shown ug fg
      then exists xg : DataFrame cell,
          self x_pred_groups = Some xg /\
          cols = SmartExplainer.enumerate_dict (columns xg)
      else self columns_dict = Some cols) ->
     self state = Some st -> s1 mask = Some m -> self features_dict = Some fd ->
     SmartExplainer.st_summarize lib st (contrib_sorted d) (var_dict d) (x_sorted d)
       m cols fd = Ok s ->
     (if proba then exists (mo : ModelObj) (xi : DataFrame cell),
          self model = Some mo /\ self x_init = Some xi /\
          SmartExplainer.lib_predict_proba lib mo xi cl = Ok pv
      else True) ->
     self _case = Some c -> self _classes = Some cl -> self label_dict = Some ld ->
     SmartExplainer.lib_keep_right_contributions lib (Some y) s c cl ld
       (if proba then Some pv else None) = Ok (predicted, explained) ->
     (SmartExplainer.to_pandas lib masks h t p k proba ug self).1
       = Ok (pd_concat predicted explained) /\
     (index predicted = index explained ->
      index (pd_concat predicted explained) = index predicted /\
      values (pd_concat predicted explained)
        = zip_with app (values predicted) (values explained))).
Proof.
  split.
  - intros Hy. unfold SmartExplainer.to_pandas, shown_data.
    destruct (self features_groups) as [fg |] eqn:Hfg.
    2: { rewrite (bind_getattr_absent features_groups _ self Hfg).
         split; [eauto | discriminate]. }
    rewrite (bind_getattr features_groups fg _ self Hfg). cbv zeta.
    destruct (SmartExplainer.groups_shown ug fg).
    + destruct (self data_groups) as [d |] eqn:Hd.
      2: { rewrite (bind_getattr_absent data_groups _ self Hd).
           split; [eauto | discriminate]. }
      rewrite (bind_getattr data_groups d _ self Hd).
      rewrite (bind_getattr y_pred None _ self Hy). split; [eauto | reflexivity].
    + destruct (self data) as [d |] eqn:Hd.
      2: { rewrite (bind_getattr_absent data _ self Hd).
           split; [eauto | discriminate]. }
      rewrite (bind_getattr data d _ self Hd).
      rewrite (bind_getattr y_pred None _ self Hy). split; [eauto | reflexivity].
  - intros fg d y s1 cols st m fd s c cl ld pv predicted explained
      Hfg Hd Hy Hfilter Hcols Hst Hm Hfd Hs Hproba Hc Hcl Hld Hkeep.
    split.
    + rewrite (to_pandas_unfold _ _ _ _ _ _ _ fg d y Hfg Hd Hy).
      rewrite (bind_ok _ _ tt self s1 Hfilter).
      pose proof (apply_filter_frame d h t p k (SmartExplainer.groups_shown ug fg) self)
        as Hframe.
      rewrite Hfilter in Hframe. cbn [snd] in Hframe.
      assert (Hkept : forall a, a ∉ filter_cache -> s1 a = self a) by exact Hframe.
      rewrite (summarize_and_join_run d proba (SmartExplainer.groups_shown ug fg) s1
                 cols st m fd s (Some y) c cl ld pv predicted explained).
      * reflexivity.
      * destruct (SmartExplainer.groups_shown ug fg).
        -- destruct Hcols as (xg & Hxg & ->). exists xg. split; [| reflexivity].
           rewrite Hkept; [exact Hxg |]. not_cached.
        -- rewrite Hkept; [exact Hcols |]. not_cached.
      * rewrite Hkept; [exact Hst |]. not_cached.
      * exact Hm.
      * rewrite Hkept; [exact Hfd |]. not_cached.
      * exact Hs.
      * destruct proba; [| exact I].
        destruct Hproba as (mo & xi & Hmo & Hxi & Hpv). exists mo, xi.
        split; [| split; [| exact Hpv]];
          (rewrite Hkept; [assumption | not_cached]).
      * rewrite Hkept; [exact Hy |]. not_cached.
      * rewrite Hkept; [exact Hc |]. not_cached.
      * rewrite Hkept; [exact Hcl |]. not_cached.
      * rewrite Hkept; [exact Hld |]. not_cached.
      * exact Hkeep.
    + intros Hindex. rewrite (pd_concat_aligned _ _ Hindex). auto.
Qed.

Lemma mask_fits_true cs m (self : Self) :
  self mask = Some m -> same_width cs m ->
  SmartExplainer.mask_fits cs self = (Ok true, self).
Proof.
  intros Hm Hw. unfold SmartExplainer.mask_fits, same_width in *.
  destruct cs as [c | [| c l]], m as [mk | [| mk l']]; try contradiction;
    rewrite (bind_getattr mask _ _ self Hm);
    rewrite bool_decide_eq_true_2 by exact Hw; reflexivity.
Qed.

Lemma filter_records_params h t p k dg (self s' : Self) :
  SmartExplainer.filter lib masks h t p k dg self = (Ok tt, s') ->
  s' mask_params
  = Some {| p_features_to_hide := h; p_threshold := t; p_positive := p;
            p_max_contrib := k |}.
Proof.
  rewrite filter_unfold.
  destruct (SmartExplainer.filter_combine lib masks h t p dg self) as [[d | e] s1];
    [| discriminate].
  intros Hrun. apply bind_ok_inv in Hrun as ([] & s2 & _ & Hstore).
  apply filter_store_inv in Hstore as (st & m & x & _ & _ & _ & ->).
  apply assign_same.
Qed.

Lemma cache_outside_summary (a : attr) :
  a ∈ filter_cache -> a ∉ [data; data_groups; proba_values].
Proof.
  unfold filter_cache. intros Ha Hin.
  repeat (apply elem_of_cons in Ha as [-> | Ha];
          [repeat (apply elem_of_cons in Hin as [Hin | Hin]; [discriminate |]);
           inversion Hin |]).
  inversion Ha.
Qed.

(** C9.  With y_pred set and the data to summarize there.  When none of the
    four criteria is given and a mask computed before is there, with
    mask_params, and has the width of contrib_sorted, to_pandas does not run
    filter, and mask, masked_contributions and mask_params are after the
    call what they were before it.  When a criterion is given, filter is run
    with the criteria given, and the three attributes are after the call what
    filter left: mask_params holds the new criteria once filter has
    returned. *)
Theorem to_pandas_mask_cache (proba : bool) ug (self : Self) fg d (y : DataFrame cell) :
  self features_groups = Some fg ->
  shown_data ug self = Some d ->
  self y_pred = Some (Some y) ->
  (forall (mp : MaskParams) (m : Poly (DataFrame bool)),
     self mask_params = Some mp -> self mask = Some m ->
     same_width (contrib_sorted d) m ->
     SmartExplainer.apply_filter_if_necessary lib masks d None None None None
       (SmartExplainer.groups_shown ug fg) self = (Ok tt, self) /\
     forall a, a ∈ filter_cache ->
       (SmartExplainer.to_pandas lib masks None None None None proba ug self).2 a
       = self a) /\
  (forall h t p k, SmartExplainer.all_none h t p k = false ->
     (forall a, a ∈ filter_cache ->
        (SmartExplainer.to_pandas lib masks h t p k proba ug self).2 a
        = (SmartExplainer.filter lib masks h t p k
             (Some (SmartExplainer.groups_shown ug fg)) self).2 a) /\
     ((SmartExplainer.filter lib masks h t p k
         (Some (SmartExplainer.groups_shown ug fg)) self).1 = Ok tt ->
      (SmartExplainer.to_pandas lib masks h t p k proba ug self).2 mask_params
      = Some {| p_features_to_hide := h; p_threshold := t; p_positive := p;
                p_max_contrib := k |})).
Proof.
  intros Hfg Hd Hy. split.
  - intros mp m Hmp Hm Hw.
    assert (Hreuse : SmartExplainer.apply_filter_if_necessary lib masks d
                       None None None None (SmartExplainer.groups_shown ug fg) self
                     = (Ok tt, self)).
    { unfold SmartExplainer.apply_filter_if_necessary. cbn [SmartExplainer.all_none].
      unfold bind at 1. unfold hasattr. rewrite Hmp.
      rewrite (mask_fits_true _ m self Hm Hw). reflexivity. }
    split; [exact Hreuse |]. intros a Ha.
    rewrite (to_pandas_unfold _ _ _ _ _ _ _ fg d y Hfg Hd Hy).
    rewrite (bind_ok _ _ tt self self Hreuse).
    apply summarize_and_join_frame, cache_outside_summary, Ha.
  - intros h t p k Hgiven.
    assert (Hrerun : forall B (next : unit -> Method B), 
              bind (SmartExplainer.apply_filter_if_necessary lib masks d h t p k
                      (SmartExplainer.groups_shown ug fg)) next self
              = bind (SmartExplainer.filter lib masks h t p k
                        (Some (SmartExplainer.groups_shown ug fg))) next self).
    { intros B next. unfold SmartExplainer.apply_filter_if_necessary.
      rewrite Hgiven, bind_assoc, bind_ret. reflexivity. }
    assert (Hcache : forall a, a ∈ filter_cache ->
              (SmartExplainer.to_pandas lib masks h t p k proba ug self).2 a
              = (SmartExplainer.filter lib masks h t p k
                   (Some (SmartExplainer.groups_shown ug fg)) self).2 a).
    { intros a Ha. rewrite (to_pandas_unfold _ _ _ _ _ _ _ fg d y Hfg Hd Hy).
      rewrite Hrerun. unfold bind.
      destruct (SmartExplainer.filter lib masks h t p k
                  (Some (SmartExplainer.groups_shown ug fg)) self)
        as [[[] | e] s1]; cbn [snd]; [| reflexivity].
      apply summarize_and_join_frame, cache_outside_summary, Ha. }
    split; [exact Hcache |]. intros Hok.
    rewrite Hcache by (unfold filter_cache; repeat constructor).
    apply (filter_records_params h t p k (Some (SmartExplainer.groups_shown ug fg)) self).
    destruct (SmartExplainer.filter lib masks h t p k
                (Some (SmartExplainer.groups_shown ug fg)) self) as [r s1].
    cbn [fst snd] in *. subst r. reflexivity.
Qed.

End ToPandas.

Lemma to_pandas_needs_y_pred_witness :
  SmartExplainer.to_pandas Demo.lib smart_state None None None None false None
    (Demo.compiled_with None)
  = (Raise (ValueError SmartExplainer.need_y_pred_msg), Demo.compiled_with None) /\
  (SmartExplainer.to_pandas Demo.lib smart_state None (Some (1 # 5)%Q) None (Some 1)
     false None Demo.compiled).1
  = Ok (pd_concat Demo.y Demo.x) /\
  index (pd_concat Demo.y Demo.x) = [0; 1] /\
  values (pd_concat Demo.y Demo.x)
  = [[CNum 1%Q; CNum 22%Q; CNum (7 # 1)%Q; CStr "m"];
     [CNum 0%Q; CNum 38%Q; CNum (71 # 1)%Q; CStr "f"]].
Proof.
  split.
  - destruct (to_pandas_needs_y_pred Demo.lib smart_state None None None None false None
                (Demo.compiled_with None)) as [Hnone _].
    destruct (Hnone eq_refl) as [_ Hvalue].
    apply (Hvalue (default Demo.ranked (Demo.compiled_with None data))).
    reflexivity.
  - destruct (to_pandas_needs_y_pred Demo.lib smart_state None (Some (1 # 5)%Q) None
                (Some 1) false None Demo.compiled) as [_ Hset].
    set (run := SmartExplainer.apply_filter_if_necessary Demo.lib smart_state
                  Demo.ranked None (Some (1 # 5)%Q) None (Some 1)
                  (SmartExplainer.groups_shown None None) Demo.compiled).
    assert (Hrun : run = (Ok tt, run.2)).
    { rewrite (surjective_pairing run) at 1. f_equal. }
    destruct (Hset None Demo.ranked Demo.y run.2
                (default ∅ (Demo.compiled columns_dict)) PlainState
                (default (One (all_true Demo.contribs)) (run.2 mask))
                (default ∅ (Demo.compiled features_dict))
                (One Demo.x) "regression" None None (Demo.zeros Demo.x) Demo.y Demo.x
                eq_refl eq_refl eq_refl Hrun eq_refl eq_refl eq_refl eq_refl eq_refl I
                eq_refl eq_refl eq_refl eq_refl) as [Hresult Hrows].
    split; [exact Hresult |].
    destruct (Hrows eq_refl) as [Hidx Hvals].
    split; [exact Hidx | exact Hvals].
Defined.

Lemma to_pandas_mask_cache_witness :
  (SmartExplainer.to_pandas Demo.lib smart_state None None None None false None
     DemoRuns.filtered).2 mask_params
  = Some {| p_features_to_hide := None; p_threshold := Some (1 # 5)%Q;
            p_positive := None; p_max_contrib := None |} /\
  (SmartExplainer.to_pandas Demo.lib smart_state None None None (Some 1) false None
     DemoRuns.filtered).2 mask_params
  = Some {| p_features_to_hide := None; p_threshold := None;
            p_positive := None; p_max_contrib := Some 1 |}.
Proof.
  destruct (to_pandas_mask_cache Demo.lib smart_state false None DemoRuns.filtered
              None Demo.ranked Demo.y eq_refl eq_refl eq_refl) as [Hreuse Hrerun].
  split.
  - destruct (Hreuse
                {| p_features_to_hide := None; p_threshold := Some (1 # 5)%Q;
                   p_positive := None; p_max_contrib := None |}
                (default (One (all_true Demo.contribs)) (DemoRuns.filtered mask))
                eq_refl eq_refl eq_refl) as [_ Hkept].
    rewrite Hkept; [reflexivity |]. unfold filter_cache. repeat constructor.
  - destruct (Hrerun None None None (Some 1) eq_refl) as [_ Hnew].
    apply Hnew. reflexivity.
Defined.

(** ** compile: one source of contributions *)

Section Compile.

Context {ModelObj ExplainerObj Encoder : Type}.

Abbreviation Self := (Obj ModelObj ExplainerObj Encoder).
Abbreviation Method := (M ModelObj ExplainerObj Encoder).

Variable lib : SmartExplainer.Collaborators ModelObj ExplainerObj Encoder.

Let both_given : exn := ValueError SmartExplainer.just_one_msg.

Lemma for_each_quiet {A} (l : list A) (body : A -> Method unit) e :
  (forall a, never_raises e (body a)) ->
  never_raises e (SmartExplainer.for_each l body).
Proof.
  intros Hbody. induction l as [| a l IH]; simpl.
  - apply never_raises_ret.
  - apply never_raises_bind; [apply Hbody | intros _; exact IH].
Qed.

Lemma rename_rule_quiet fd cd ifd new_dic key rule :
  SmartExplainer.rename_rule fd cd ifd new_dic key rule <> Raise both_given.
Proof.
  unfold SmartExplainer.rename_rule. destruct key as [key | key].
  - case_bool_decide; [discriminate |]. destruct (ifd !! key); discriminate.
  - destruct (cd !! key); discriminate.
Qed.

Lemma rename_rules_quiet fd cd ifd (rules : list (feature_ref * PostRule)) :
  forall acc : result (gmap string PostRule),
    acc <> Raise both_given ->
    foldl (fun (acc : result (gmap string PostRule)) (kr : feature_ref * PostRule) =>
             result_bind acc (fun new_dic =>
               SmartExplainer.rename_rule fd cd ifd new_dic kr.1 kr.2))
          acc rules <> Raise both_given.
Proof.
  induction rules as [| kr rules IH]; intros acc Hacc; simpl; [exact Hacc |].
  apply IH. destruct acc as [d |]; simpl; [apply rename_rule_quiet | exact Hacc].
Qed.

Lemma modify_postprocessing_quiet post :
  never_raises both_given (SmartExplainer.modify_postprocessing post : Method _).
Proof.
  unfold SmartExplainer.modify_postprocessing.
  destruct post as [[| kr rules] |]; try apply never_raises_ret.
  repeat quiet_step. apply rename_rules_quiet. discriminate.
Qed.

Lemma modif_strings_quiet post :
  never_raises both_given
    (SmartExplainer.check_postprocessing_modif_strings lib post : Method _).
Proof.
  unfold SmartExplainer.check_postprocessing_modif_strings.
  destruct post as [rules |]; [| apply never_raises_ret].
  repeat quiet_step.
  generalize (map_to_list rules) as l. intros l.
  assert (Hfold : forall acc : result bool, acc <> Raise both_given ->
    foldl (fun (acc : result bool) (kr : string * PostRule) =>
             result_bind acc (fun modif =>
               if bool_decide (rule_type kr.2 ∈ ["prefix"; "suffix"]) then
                 result_bind (column x kr.1) (fun _ =>
                   Ok (if SmartExplainer.pd_is_numeric_dtype lib x kr.1
                       then true else modif))
               else Ok modif)) acc l <> Raise both_given).
  { induction l as [| kr l IH]; intros acc Hacc; simpl; [exact Hacc |].
    apply IH. destruct acc as [modif |]; simpl; [| exact Hacc].
    case_bool_decide; [| discriminate].
    unfold column. destruct (list_find _ _) as [[i c] |]; discriminate. }
  apply Hfold. discriminate.
Qed.

Lemma update_features_dict_quiet groups :
  never_raises both_given
    (SmartExplainer._update_features_dict_with_groups groups : Method unit).
Proof.
  unfold SmartExplainer._update_features_dict_with_groups.
  apply for_each_quiet. intros name. repeat quiet_step.
Qed.

Hypothesis quiet : compile_helpers_never_raise lib both_given.

Lemma compile_features_groups_quiet groups :
  never_raises both_given
    (SmartExplainer._compile_features_groups lib groups : Method unit).
Proof.
  destruct quiet as (H1 & H2 & H3 & H4 & H5 & H6 & H7 & H8 & H9 & H10 & H11 & H12
                     & H13 & H14 & H15 & H16 & H17).
  unfold SmartExplainer._compile_features_groups.
  repeat first [apply update_features_dict_quiet | quiet_step]; auto.
Qed.

End Compile.

(** One step of a proof that a method always raises, up to the first
    [raise] of the sequence. *)
Ltac fail_step :=
  lazymatch goal with
  | |- fails (bind (raise _) _) => apply fails_bind_left; intros ?; simpl; eauto
  | |- fails (bind _ _) => apply fails_bind_right; intros ?
  end.

Section CompileSources.

Context {ModelObj ExplainerObj Encoder : Type}.

Abbreviation Self := (Obj ModelObj ExplainerObj Encoder).
Abbreviation Method := (M ModelObj ExplainerObj Encoder).

Variable lib : SmartExplainer.Collaborators ModelObj ExplainerObj Encoder.

Lemma assigns_only_bind_raise {A B} (e : exn) (k : A -> Method B) touched :
  assigns_only touched (bind (raise e) k).
Proof. intros self a _. reflexivity. Qed.

Lemma compile_both_fails x model0 (e0 : ExplainerObj) c0 y0 prep post title groups :
  fails (SmartExplainer.compile lib x model0 (Some e0) (Some c0) y0 prep post title groups
         : Method unit).
Proof.
  unfold SmartExplainer.compile. repeat fail_step.
Qed.

Lemma compile_both_frame x model0 (e0 : ExplainerObj) c0 y0 prep post title groups :
  assigns_only compile_preamble
    (SmartExplainer.compile lib x model0 (Some e0) (Some c0) y0 prep post title groups
     : Method unit).
Proof.
  unfold SmartExplainer.compile, SmartExplainer.check_model,
    SmartExplainer.check_label_dict, compile_preamble.
  repeat first [apply assigns_only_bind_raise | frame_step].
Qed.

Lemma compile_both_raises x model0 (e0 : ExplainerObj) c0 y0 prep post title groups
    (self : Self) xp (cc : string * option (list Z)) (ld : option (gmap Z string)) :
  SmartExplainer.lib_inverse_transform lib x prep = Ok xp ->
  SmartExplainer.lib_check_model lib model0 = Ok cc ->
  self label_dict = Some ld ->
  (cc.1 = "regression" \/ SmartExplainer.lib_check_label_dict lib ld cc.1 cc.2 = Ok tt) ->
  (SmartExplainer.compile lib x model0 (Some e0) (Some c0) y0 prep post title groups
     self).1
  = Raise (ValueError SmartExplainer.just_one_msg).
Proof.
  intros Hinv Hmodel Hld Hlabel.
  unfold SmartExplainer.compile, SmartExplainer.check_model,
    SmartExplainer.check_label_dict.
  rewrite bind_setattr. rewrite (bind_getattr x_init x) by apply assign_same.
  rewrite bind_call, Hinv. rewrite !bind_setattr.
  rewrite bind_assoc. rewrite (bind_getattr model model0) by apply assign_same.
  rewrite bind_call, Hmodel. rewrite !bind_setattr.
  rewrite bind_assoc.
  rewrite (bind_getattr _case cc.1)
    by (rewrite ?assign_other by discriminate; apply assign_same).
  assert (Hafter : forall (s : Self) B (k : unit -> Method B),
            s label_dict = Some ld -> s _classes = Some cc.2 ->
            bind (if negb (cc.1 =? "regression")%string
                  then ld0 <- getattr label_dict ;;
                       cl <- getattr _classes ;;
                       call (SmartExplainer.lib_check_label_dict lib ld0 cc.1 cl)
                  else ret tt) k s = k tt s).
  { intros s B k Hs Hcl. destruct Hlabel as [Hreg | Hcheck].
    - rewrite Hreg. reflexivity.
    - destruct (negb (cc.1 =? "regression")%string); [| reflexivity].
      rewrite bind_assoc, (bind_getattr label_dict ld _ s Hs).
      rewrite bind_assoc, (bind_getattr _classes cc.2 _ s Hcl).
      rewrite bind_call, Hcheck. reflexivity. }
  rewrite Hafter;
    [| rewrite ?assign_other by discriminate; exact Hld | apply assign_same].
  rewrite (bind_getattr label_dict ld)
    by (rewrite ?assign_other by discriminate; exact Hld).
  destruct (SmartExplainer.truthy_dict ld); reflexivity.
Qed.

Lemma compile_one_source_quiet x model0 e0 c0 y0 prep post title groups :
  compile_helpers_never_raise lib (ValueError SmartExplainer.just_one_msg) ->
  e0 = None \/ c0 = None ->
  never_raises (ValueError SmartExplainer.just_one_msg)
    (SmartExplainer.compile lib x model0 e0 c0 y0 prep post title groups : Method unit).
Proof.
  intros Hquiet Hone.
  pose proof (compile_features_groups_quiet lib Hquiet) as Hgroups.
  pose proof (modify_postprocessing_quiet (ModelObj:=ModelObj)
                (ExplainerObj:=ExplainerObj) (Encoder:=Encoder)) as Hmodify.
  pose proof (modif_strings_quiet (ModelObj:=ModelObj)
                (ExplainerObj:=ExplainerObj) (Encoder:=Encoder)) as Hstrings.
  destruct Hquiet as (H1 & H2 & H3 & H4 & H5 & H6 & H7 & H8 & H9 & H10 & H11 & H12
                      & H13 & H14 & H15 & H16 & H17).
  unfold SmartExplainer.compile, SmartExplainer.check_model,
    SmartExplainer.check_label_dict, SmartExplainer.adapt_contributions,
    SmartExplainer.validate_contributions, SmartExplainer.apply_preprocessing,
    SmartExplainer.check_contributions, SmartExplainer.check_y_pred,
    SmartExplainer.check_features_dict, SmartExplainer.check_postprocessing,
    SmartExplainer.apply_postprocessing, SmartExplainer.check_features_desc.
  destruct Hone as [-> | ->].
  - repeat first
      [ apply Hgroups | apply Hmodify | apply Hstrings | quiet_step ]; auto.
  - repeat first
      [ apply Hgroups | apply Hmodify | apply Hstrings | quiet_step ]; auto.
Qed.

(** C10.  When an explainer and contributions are both given, compile
    raises, whatever the rest of its arguments, and has then assigned nothing
    beyond the attributes set before the check (x_init, x_pred,
    preprocessing, model, _case, _classes, inv_label_dict): no contribution
    is stored, ranked or summarized.  The exception is the ValueError "You
    have to specify just one of these arguments: explainer, contributions" as
    soon as the steps before the check go through.  When at most one of the
    two is given, compile does not raise that error, the functions it calls
    not raising it themselves. *)
Theorem compile_one_source x model0 (e0 : ExplainerObj) c0 y0 prep post title groups
    (self : Self) :
  (exists err,
     (SmartExplainer.compile lib x model0 (Some e0) (Some c0) y0 prep post title groups
        self).1 = Raise err) /\
  (forall a, a ∉ compile_preamble ->
     (SmartExplainer.compile lib x model0 (Some e0) (Some c0) y0 prep post title groups
        self).2 a = self a) /\
  (forall xp (cc : string * option (list Z)) (ld : option (gmap Z string)),
     SmartExplainer.lib_inverse_transform lib x prep = Ok xp ->
     SmartExplainer.lib_check_model lib model0 = Ok cc ->
     self label_dict = Some ld ->
     (cc.1 = "regression" \/
      SmartExplainer.lib_check_label_dict lib ld cc.1 cc.2 = Ok tt) ->
     (SmartExplainer.compile lib x model0 (Some e0) (Some c0) y0 prep post title groups
        self).1 = Raise (ValueError SmartExplainer.just_one_msg)) /\
  (compile_helpers_never_raise lib (ValueError SmartExplainer.just_one_msg) ->
   forall e1 c1, e1 = None \/ c1 = None ->
     (SmartExplainer.compile lib x model0 e1 c1 y0 prep post title groups self).1
     <> Raise (ValueError SmartExplainer.just_one_msg)).
Proof.
  split; [| split; [| split]].
  - apply compile_both_fails.
  - apply compile_both_frame.
  - intros xp cc ld. apply compile_both_raises.
  - intros Hquiet e1 c1 Hone.
    apply (compile_one_source_quiet x model0 e1 c1 y0 prep post title groups Hquiet Hone).
Qed.

End CompileSources.

Lemma demo_compile_helpers_quiet e : compile_helpers_never_raise Demo.lib e.
Proof. repeat split; intros; discriminate. Qed.

Lemma compile_one_source_witness :
  (SmartExplainer.compile Demo.lib Demo.x tt (Some tt) (Some (One Demo.contribs))
     (Some Demo.y) None None None None
     (SmartExplainer.init (∅ : gmap string string) None None Demo.blank).2).1
  = Raise (ValueError SmartExplainer.just_one_msg) /\
  (SmartExplainer.compile Demo.lib Demo.x tt (Some tt) (Some (One Demo.contribs))
     (Some Demo.y) None None None None
     (SmartExplainer.init (∅ : gmap string string) None None Demo.blank).2).2 contributions
  = None /\
  (SmartExplainer.compile Demo.lib Demo.x tt (Some tt) None
     (Some Demo.y) None None None None
     (SmartExplainer.init (∅ : gmap string string) None None Demo.blank).2).1
  <> Raise (ValueError SmartExplainer.just_one_msg).
Proof.
  destruct (compile_one_source Demo.lib Demo.x tt tt (One Demo.contribs) (Some Demo.y)
              None None None None
              (SmartExplainer.init (∅ : gmap string string) None None Demo.blank).2)
    as (_ & Hframe & Hraise & Hone).
  split; [| split].
  - apply (Hraise Demo.x ("regression", None) None eq_refl eq_refl eq_refl).
    left. reflexivity.
  - rewrite Hframe; [reflexivity |].
    unfold compile_preamble. intros Hin.
    repeat (apply elem_of_cons in Hin as [Hin | Hin]; [discriminate |]).
    inversion Hin.
  - apply (Hone (demo_compile_helpers_quiet _) (Some tt) None). right. reflexivity.
Defined.

(** * Further properties *)

(** ** What a method depends on *)

Lemma drop_attr_elem (a b : attr) (T : list attr) :
  b ∉ drop_attr a T -> b = a \/ b ∉ T.
Proof.
  induction T as [| c T IH]; simpl; intros Hb.
  - right. exact Hb.
  - destruct (attr_eq_dec a c) as [<- | Hne].
    + destruct (IH Hb) as [-> | Hout]; [left; reflexivity |].
      destruct (attr_eq_dec b a) as [-> | Hba]; [left; reflexivity |].
      right. intros [-> | Hin]%elem_of_cons; [congruence | contradiction].
    + destruct (attr_eq_dec b c) as [-> | Hbc].
      * destruct Hb. left.
      * destruct IH as [-> | Hout]; [| left; reflexivity |].
        -- intros Hin. apply Hb. right. exact Hin.
        -- right. intros [-> | Hin]%elem_of_cons; [congruence | contradiction].
Qed.

Section Flows.

Context {ModelObj ExplainerObj Encoder : Type}.

Abbreviation Self := (Obj ModelObj ExplainerObj Encoder).
Abbreviation Method := (M ModelObj ExplainerObj Encoder).

Lemma flows_ret {A} (x : A) T : flows T (ret x : Method A) T.
Proof. intros s s' H. split; [reflexivity | exact H]. Qed.

Lemma flows_raise {A} (e : exn) T T' : flows T (raise e : Method A) T'.
Proof. intros s s' H. split; [reflexivity | exact I]. Qed.

Lemma flows_call {A} (r : result A) T : flows T (call r : Method A) T.
Proof. intros s s' H. split; [reflexivity |]. simpl. destruct r; [exact H | exact I]. Qed.

Lemma flows_getattr (a : attr) T : a ∉ T -> flows T (getattr a : Method _) T.
Proof.
  intros Ha s s' H. unfold getattr. rewrite <- (H a Ha).
  destruct (s a); simpl; split; auto.
Qed.

Lemma flows_setattr (a : attr) (v : attr_type ModelObj ExplainerObj Encoder a) T :
  flows T (setattr a v : Method unit) (drop_attr a T).
Proof.
  intros s s' H. split; [reflexivity |]. simpl. intros b Hb.
  apply drop_attr_elem in Hb as [-> | Hb].
  - rewrite !assign_same. reflexivity.
  - destruct (attr_eq_dec a b) as [<- | Hne].
    + rewrite !assign_same. reflexivity.
    + rewrite !assign_other by exact Hne. apply H, Hb.
Qed.

Lemma flows_bind {A B} (m : Method A) (k : A -> Method B) T T1 T2 :
  flows T m T1 -> (forall x, flows T1 (k x) T2) -> flows T (bind m k) T2.
Proof.
  intros Hm Hk s s' H. destruct (Hm s s' H) as [Hfst Hsnd]. unfold bind.
  destruct (m s) as [[x | e] s1], (m s') as [[x' | e'] s1']; simpl in *;
    try discriminate.
  - injection Hfst as <-. apply Hk, Hsnd.
  - injection Hfst as <-. split; [reflexivity | exact I].
Qed.

End Flows.

(** One step of a proof of what a method depends on. *)
Ltac flow_step :=
  lazymatch goal with
  | |- flows _ (bind _ _) _ => eapply flows_bind; [| intros ?]
  | |- flows _ (getattr ?b) _ =>
      apply (flows_getattr b); simpl;
      let Hin := fresh "Hin" in
      intros Hin;
      repeat (apply elem_of_cons in Hin as [Hin | Hin]; [discriminate |]);
      inversion Hin
  | |- flows _ (setattr ?b ?v) _ => apply (flows_setattr b v)
  | |- flows _ (ret _) _ => apply flows_ret
  | |- flows _ (raise _) _ => apply flows_raise
  | |- flows _ (call _) _ => apply flows_call
  | |- flows _ (SmartExplainer.when ?b _) _ => destruct b; simpl
  | |- flows _ (if ?b then _ else _) _ => destruct b
  | |- flows _ (match ?x with _ => _ end) _ => destruct x
  end.

(** ** filter: what an earlier call leaves behind *)

Section FilterAgain.

Context {ModelObj ExplainerObj Encoder : Type}.

Abbreviation Self := (Obj ModelObj ExplainerObj Encoder).
Abbreviation Method := (M ModelObj ExplainerObj Encoder).

Variable lib : SmartExplainer.Collaborators ModelObj ExplainerObj Encoder.
Variable masks : MaskAlgebra.

Lemma filter_flows h t p k dg :
  flows filter_cache (SmartExplainer.filter lib masks h t p k dg : Method unit) [].
Proof.
  unfold SmartExplainer.filter, SmartExplainer.filter_combine,
    SmartExplainer.filter_cutoff, SmartExplainer.filter_store,
    SmartExplainer.check_features_name, filter_cache.
  cbv zeta. repeat flow_step.
Qed.

Lemma filter_combine_frame h t p dg :
  assigns_only [mask] (SmartExplainer.filter_combine lib masks h t p dg : Method Data).
Proof.
  unfold SmartExplainer.filter_combine, SmartExplainer.check_features_name.
  cbv zeta. repeat frame_step.
Qed.

Lemma filter_cutoff_frame k :
  assigns_only [mask] (SmartExplainer.filter_cutoff masks k : Method unit).
Proof. unfold SmartExplainer.filter_cutoff. repeat frame_step. Qed.

(** X1.  filter reads nothing of what an earlier filter left: on two
    explainers that differ only in mask, masked_contributions and mask_params
    it has the same outcome (the same exception when it raises) and, when it
    returns, leaves the same explainer. *)
Theorem filter_forgets_earlier_filter h t p k dg (self self' : Self) :
  agree_outside filter_cache self self' ->
  (SmartExplainer.filter lib masks h t p k dg self).1
    = (SmartExplainer.filter lib masks h t p k dg self').1 /\
  ((SmartExplainer.filter lib masks h t p k dg self).1 = Ok tt ->
   forall a, (SmartExplainer.filter lib masks h t p k dg self).2 a
             = (SmartExplainer.filter lib masks h t p k dg self').2 a).
Proof.
  intros Hagree.
  destruct (filter_flows h t p k dg self self' Hagree) as [Hout Hstore].
  split; [exact Hout |].
  intros Hok a. rewrite Hok in Hstore. apply Hstore, not_elem_of_nil.
Qed.

(** X2.  filter is idempotent: when a call has returned, the same call made
    again returns as well and leaves every attribute as the first call left
    it. *)
Theorem filter_twice_is_filter_once h t p k dg (self : Self) :
  (SmartExplainer.filter lib masks h t p k dg self).1 = Ok tt ->
  (SmartExplainer.filter lib masks h t p k dg
     (SmartExplainer.filter lib masks h t p k dg self).2).1 = Ok tt /\
  forall a,
    (SmartExplainer.filter lib masks h t p k dg
       (SmartExplainer.filter lib masks h t p k dg self).2).2 a
    = (SmartExplainer.filter lib masks h t p k dg self).2 a.
Proof.
  intros Hok.
  assert (Hagree : agree_outside filter_cache self
                     (SmartExplainer.filter lib masks h t p k dg self).2).
  { intros a Ha. symmetry. apply filter_frame, Ha. }
  destruct (filter_flows h t p k dg self _ Hagree) as [Hout Hstore].
  rewrite Hok in Hstore. split.
  - rewrite <- Hout. exact Hok.
  - intros a. symmetry. apply Hstore, not_elem_of_nil.
Qed.

(** X3.  A filter that raises has recorded nothing: mask_params and
    masked_contributions are as they were before the call (the mask itself
    may already have been replaced). *)
Theorem filter_raise_keeps_params h t p k dg (self : Self) e :
  (SmartExplainer.filter lib masks h t p k dg self).1 = Raise e ->
  (SmartExplainer.filter lib masks h t p k dg self).2 mask_params = self mask_params /\
  (SmartExplainer.filter lib masks h t p k dg self).2 masked_contributions
    = self masked_contributions.
Proof.
  assert (Hmp : mask_params ∉ [mask]) by
    (intros Hin; repeat (apply elem_of_cons in Hin as [Hin | Hin]; [discriminate |]);
     inversion Hin).
  assert (Hmc : masked_contributions ∉ [mask]) by
    (intros Hin; repeat (apply elem_of_cons in Hin as [Hin | Hin]; [discriminate |]);
     inversion Hin).
  pose proof (filter_combine_frame h t p dg self) as Hc.
  rewrite filter_unfold.
  destruct (SmartExplainer.filter_combine lib masks h t p dg self) as [[d | e1] s1];
    simpl in Hc.
  2: { intros _. split; [exact (Hc mask_params Hmp) | exact (Hc masked_contributions Hmc)]. }
  pose proof (filter_cutoff_frame k s1) as Hk.
  assert (Hkeep : forall s2 : Self,
             (forall a, a ∉ [mask] -> s2 a = s1 a) ->
             s2 mask_params = self mask_params /\
             s2 masked_contributions = self masked_contributions).
  { intros s2 H2. split.
    - etransitivity; [exact (H2 mask_params Hmp) | exact (Hc mask_params Hmp)].
    - etransitivity;
        [exact (H2 masked_contributions Hmc) | exact (Hc masked_contributions Hmc)]. }
  unfold bind at 1 2 3.
  destruct (SmartExplainer.filter_cutoff masks k s1) as [[[] | e2] s2];
    simpl in Hk.
  2: { intros _. exact (Hkeep s2 Hk). }
  unfold SmartExplainer.filter_store, bind, getattr, call, setattr.
  destruct (s2 state) as [st |].
  2: { intros _. exact (Hkeep s2 Hk). }
  destruct (s2 mask) as [m |].
  2: { intros _. exact (Hkeep s2 Hk). }
  destruct (compute_masked_contributions masks st (contrib_sorted d) m) as [x | e3].
  - discriminate.
  - intros _. exact (Hkeep s2 Hk).
Qed.

End FilterAgain.

Lemma filter_forgets_earlier_filter_witness :
  (SmartExplainer.filter Demo.lib smart_state None None (Some true) None None
     Demo.compiled).2 mask
  = (SmartExplainer.filter Demo.lib smart_state None None (Some true) None None
       DemoRuns.filtered).2 mask.
Proof.
  assert (Hagree : agree_outside filter_cache Demo.compiled DemoRuns.filtered).
  { intros a Ha. destruct a; try reflexivity; destruct Ha; unfold filter_cache;
      repeat constructor. }
  destruct (filter_forgets_earlier_filter Demo.lib smart_state
              None None (Some true) None None Demo.compiled DemoRuns.filtered Hagree)
    as [_ Hsame].
  apply Hsame. reflexivity.
Defined.

Lemma filter_twice_is_filter_once_witness :
  (SmartExplainer.filter Demo.lib smart_state None (Some (1 # 5)%Q) None None None
     DemoRuns.filtered).2 mask
  = DemoRuns.filtered mask.
Proof.
  destruct (filter_twice_is_filter_once Demo.lib smart_state
              None (Some (1 # 5)%Q) None None None Demo.compiled eq_refl)
    as [_ Hsame].
  apply Hsame.
Defined.

Lemma filter_raise_keeps_params_witness :
  (SmartExplainer.filter Demo.lib smart_state None (Some (-1 # 5)%Q) None None None
     DemoRuns.filtered).2 mask_params
  = Some {| p_features_to_hide := None; p_threshold := Some (1 # 5)%Q;
            p_positive := None; p_max_contrib := None |}.
Proof.
  destruct (filter_raise_keeps_params Demo.lib smart_state
              None (Some (-1 # 5)%Q) None None None DemoRuns.filtered _ eq_refl)
    as [Hkept _].
  rewrite Hkept. reflexivity.
Defined.

(** ** What holds when a method returns *)

Section ReturnsWith.

Context {ModelObj ExplainerObj Encoder : Type}.

Abbreviation Self := (Obj ModelObj ExplainerObj Encoder).
Abbreviation Method := (M ModelObj ExplainerObj Encoder).

Lemma returns_with_run {A} (m : Method A) (s s' : Self) Q x :
  returns_with m s Q -> m s = (Ok x, s') -> Q x s'.
Proof. unfold returns_with. intros H Hrun. rewrite Hrun in H. exact H. Qed.

Lemma returns_with_any {A} (m : Method A) (s : Self) (Q : A -> Self -> Prop) :
  (forall x s', Q x s') -> returns_with m s Q.
Proof. intros H. unfold returns_with. destruct (m s) as [[x | e] s']; auto. Qed.

Lemma returns_with_weaken {A} (m : Method A) (s : Self) (Q Q' : A -> Self -> Prop) :
  returns_with m s Q -> (forall x s', Q x s' -> Q' x s') -> returns_with m s Q'.
Proof. unfold returns_with. destruct (m s) as [[x | e] s']; auto. Qed.

Lemma returns_with_bind {A B} (m : Method A) (k : A -> Method B) (s : Self) Q :
  returns_with m s (fun x s' => returns_with (k x) s' Q) ->
  returns_with (bind m k) s Q.
Proof. unfold returns_with, bind. destruct (m s) as [[x | e] s']; auto. Qed.

Lemma returns_with_ret {A} (x : A) (s : Self) (Q : A -> Self -> Prop) :
  Q x s -> returns_with (ret x : Method A) s Q.
Proof. exact id. Qed.

Lemma returns_with_raise {A} (e : exn) (s : Self) (Q : A -> Self -> Prop) :
  returns_with (raise e : Method A) s Q.
Proof. exact I. Qed.

Lemma returns_with_call {A} (r : result A) (s : Self) (Q : A -> Self -> Prop) :
  (forall x, r = Ok x -> Q x s) -> returns_with (call r : Method A) s Q.
Proof. unfold returns_with, call. destruct r; auto. Qed.

Lemma returns_with_getattr (a : attr) (s : Self) Q :
  (forall x, s a = Some x -> Q x s) -> returns_with (getattr a : Method _) s Q.
Proof. unfold returns_with, getattr. destruct (s a); auto. Qed.

Lemma returns_with_setattr (a : attr) (v : attr_type ModelObj ExplainerObj Encoder a)
    (s : Self) (Q : unit -> Self -> Prop) :
  Q tt (assign a v s) -> returns_with (setattr a v : Method unit) s Q.
Proof. exact id. Qed.

Lemma returns_with_frame {A} (m : Method A) touched (s : Self) (Q : A -> Self -> Prop) :
  assigns_only touched m ->
  (forall x s', (forall a, a ∉ touched -> s' a = s a) -> Q x s') ->
  returns_with m s Q.
Proof.
  intros Hm H. unfold returns_with. specialize (Hm s).
  destruct (m s) as [[x | e] s']; auto.
Qed.

Lemma assigns_only_for_each {A} (l : list A) (body : A -> Method unit) touched :
  (forall a, assigns_only touched (body a)) ->
  assigns_only touched (SmartExplainer.for_each l body).
Proof.
  intros Hbody. induction l as [| a l IH]; simpl.
  - apply assigns_only_ret.
  - apply assigns_only_bind; [apply Hbody | intros _; exact IH].
Qed.

Lemma assigns_only_more {A} (m : Method A) touched touched' :
  assigns_only touched m -> (forall a, a ∈ touched -> a ∈ touched') ->
  assigns_only touched' m.
Proof. intros Hm Hsub s a Ha. apply Hm. intros Hin. apply Ha, Hsub, Hin. Qed.

End ReturnsWith.

(** One step of a proof of what holds when a method returns. *)
Ltac return_step :=
  lazymatch goal with
  | |- returns_with (bind _ _) _ _ => apply returns_with_bind
  | |- returns_with (getattr ?b) _ _ => apply (returns_with_getattr b); intros ? ?
  | |- returns_with (setattr ?b ?v) _ _ => apply (returns_with_setattr b v)
  | |- returns_with (ret _) _ _ => apply returns_with_ret
  | |- returns_with (raise _) _ _ => apply returns_with_raise
  | |- returns_with (call _) _ _ => apply returns_with_call; intros ? ?
  end.

(** Forget what the steps do up to the assignment of [a]. *)
Ltac skip_to a :=
  repeat lazymatch goal with
    | |- returns_with (bind (setattr a _) _) _ _ => fail
    | |- returns_with (bind _ _) _ _ =>
        apply returns_with_bind, returns_with_any; intros ? ?
    end.

(** An attribute that is not in a list of attributes. *)
Ltac not_listed :=
  let Hin := fresh "Hin" in
  intros Hin;
  repeat (apply elem_of_cons in Hin as [Hin | Hin]; [discriminate |]);
  inversion Hin.

(** ** compile: what it leaves alone and what it resets *)

Section CompileAgain.

Context {ModelObj ExplainerObj Encoder : Type}.

Abbreviation Self := (Obj ModelObj ExplainerObj Encoder).
Abbreviation Method := (M ModelObj ExplainerObj Encoder).

Variable lib : SmartExplainer.Collaborators ModelObj ExplainerObj Encoder.
Variable masks : MaskAlgebra.

Lemma update_features_dict_frame groups :
  assigns_only [features_desc; features_dict; inv_features_dict]
    (SmartExplainer._update_features_dict_with_groups groups : Method unit).
Proof.
  unfold SmartExplainer._update_features_dict_with_groups.
  apply assigns_only_for_each. intros name. repeat frame_step.
Qed.

Lemma compile_features_groups_frame groups :
  assigns_only groups_assigned
    (SmartExplainer._compile_features_groups lib groups : Method unit).
Proof.
  unfold SmartExplainer._compile_features_groups, groups_assigned.
  repeat first
    [ apply (assigns_only_more _ _ _ (update_features_dict_frame groups));
      intros a Ha; repeat (apply elem_of_cons in Ha as [-> | Ha]);
      [ repeat constructor .. | inversion Ha ]
    | frame_step ].
Qed.

End CompileAgain.

Section CompileEffects.

Context {ModelObj ExplainerObj Encoder : Type}.

Abbreviation Self := (Obj ModelObj ExplainerObj Encoder).
Abbreviation Method := (M ModelObj ExplainerObj Encoder).

Variable lib : SmartExplainer.Collaborators ModelObj ExplainerObj Encoder.
Variable masks : MaskAlgebra.

Lemma modify_postprocessing_frame post touched :
  assigns_only touched (SmartExplainer.modify_postprocessing post : Method _).
Proof.
  unfold SmartExplainer.modify_postprocessing.
  destruct post as [[| kr rules] |]; repeat frame_step.
Qed.

Lemma compile_frame x model0 explainer0 contributions0 y_pred0 preprocessing0
    postprocessing0 title_story0 features_groups0 :
  assigns_only compile_assigned
    (SmartExplainer.compile lib x model0 explainer0 contributions0 y_pred0
       preprocessing0 postprocessing0 title_story0 features_groups0 : Method unit).
Proof.
  unfold compile_assigned, SmartExplainer.compile, SmartExplainer.check_model,
    SmartExplainer.check_label_dict, SmartExplainer.adapt_contributions,
    SmartExplainer.validate_contributions, SmartExplainer.apply_preprocessing,
    SmartExplainer.check_contributions, SmartExplainer.check_y_pred,
    SmartExplainer.check_features_dict, SmartExplainer.check_postprocessing,
    SmartExplainer.check_postprocessing_modif_strings,
    SmartExplainer.apply_postprocessing, SmartExplainer.check_features_desc.
  cbv zeta.
  repeat first
    [ apply modify_postprocessing_frame
    | apply (assigns_only_more _ _ _ (compile_features_groups_frame lib _));
      unfold groups_assigned;
      let b := fresh "b" in let Hb := fresh "Hb" in
      intros b Hb; repeat (apply elem_of_cons in Hb as [-> | Hb]);
      [ repeat constructor .. | inversion Hb ]
    | frame_step ].
Qed.

(** X4.  compile never assigns label_dict, mask, masked_contributions,
    mask_params or proba_values: whether it returns or raises, each of them
    holds (or lacks) what it did before the call, so that the mask of a filter
    made before a new compile is still there after it. *)
Theorem compile_keeps_filter_and_labels x model0 explainer0 contributions0 y_pred0
    preprocessing0 postprocessing0 title_story0 features_groups0 (self : Self) a :
  a ∈ compile_keeps ->
  (SmartExplainer.compile lib x model0 explainer0 contributions0 y_pred0
     preprocessing0 postprocessing0 title_story0 features_groups0 self).2 a
  = self a.
Proof.
  intros Ha. apply compile_frame. unfold compile_keeps in Ha.
  repeat (apply elem_of_cons in Ha as [-> | Ha]); [.. | inversion Ha];
    unfold compile_assigned; not_listed.
Qed.

End CompileEffects.

Section CompileResets.

Context {ModelObj ExplainerObj Encoder : Type}.

Abbreviation Self := (Obj ModelObj ExplainerObj Encoder).
Abbreviation Method := (M ModelObj ExplainerObj Encoder).

Variable lib : SmartExplainer.Collaborators ModelObj ExplainerObj Encoder.
Variable masks : MaskAlgebra.

Lemma compile_tail x model0 explainer0 contributions0 y_pred0 preprocessing0
    postprocessing0 title_story0 features_groups0 (self : Self) :
  returns_with
    (SmartExplainer.compile lib x model0 explainer0 contributions0 y_pred0
       preprocessing0 postprocessing0 title_story0 features_groups0 : Method unit)
    self
    (fun _ s' =>
       s' features_imp = Some None /\ s' local_neighbors = Some None /\
       s' features_stability = Some None /\ s' features_compacity = Some None /\
       s' features_groups = Some features_groups0).
Proof.
  unfold SmartExplainer.compile.
  skip_to features_imp.
  unfold SmartExplainer.check_features_desc.
  repeat (return_step; cbv beta).
  apply (returns_with_weaken _ _ (fun _ s1 => s1 features_imp = Some None)).
  { destruct title_story0; repeat (return_step; cbv beta); reflexivity. }
  intros _ s1 H1. cbv beta.
  do 3 (return_step; cbv beta).
  apply (returns_with_frame _ groups_assigned).
  { destruct (SmartExplainer.truthy_dict features_groups0); simpl.
    - apply compile_features_groups_frame.
    - apply assigns_only_ret. }
  intros _ s2 H2.
  assert (Himp : s2 features_imp = Some None).
  { rewrite H2 by (unfold groups_assigned; not_listed).
    rewrite assign_other by discriminate. exact H1. }
  assert (Hfg : s2 features_groups = Some features_groups0).
  { rewrite H2 by (unfold groups_assigned; not_listed). apply assign_same. }
  repeat (return_step; cbv beta).
  split; [| split; [| split; [| split]]]; try reflexivity.
  - rewrite !assign_other by discriminate. exact Himp.
  - rewrite !assign_other by discriminate. exact Hfg.
Qed.

(** X5.  A compile that returns has reset what the diagnostics cache:
    features_imp, local_neighbors, features_stability and features_compacity
    are None, whatever they held before, and features_groups is the argument
    of this call. *)
Theorem compile_resets_diagnostics x model0 explainer0 contributions0 y_pred0
    preprocessing0 postprocessing0 title_story0 features_groups0 (self s' : Self) :
  SmartExplainer.compile lib x model0 explainer0 contributions0 y_pred0
    preprocessing0 postprocessing0 title_story0 features_groups0 self = (Ok tt, s') ->
  s' features_imp = Some None /\ s' local_neighbors = Some None /\
  s' features_stability = Some None /\ s' features_compacity = Some None /\
  s' features_groups = Some features_groups0.
Proof.
  intros Hrun.
  exact (returns_with_run _ _ _ _ _
           (compile_tail x model0 explainer0 contributions0 y_pred0 preprocessing0
              postprocessing0 title_story0 features_groups0 self) Hrun).
Qed.

Lemma compile_frame_ungrouped x model0 explainer0 contributions0 y_pred0
    preprocessing0 postprocessing0 title_story0 features_groups0 :
  SmartExplainer.truthy_dict features_groups0 = false ->
  assigns_only compile_assigned_ungrouped
    (SmartExplainer.compile lib x model0 explainer0 contributions0 y_pred0
       preprocessing0 postprocessing0 title_story0 features_groups0 : Method unit).
Proof.
  intros Hfalsy.
  unfold compile_assigned_ungrouped, SmartExplainer.compile, SmartExplainer.check_model,
    SmartExplainer.check_label_dict, SmartExplainer.adapt_contributions,
    SmartExplainer.validate_contributions, SmartExplainer.apply_preprocessing,
    SmartExplainer.check_contributions, SmartExplainer.check_y_pred,
    SmartExplainer.check_features_dict, SmartExplainer.check_postprocessing,
    SmartExplainer.check_postprocessing_modif_strings,
    SmartExplainer.apply_postprocessing, SmartExplainer.check_features_desc.
  rewrite Hfalsy. cbv zeta.
  repeat first
    [ apply modify_postprocessing_frame
    | lazymatch goal with
      | |- assigns_only _ (SmartExplainer.when false _) => apply assigns_only_ret
      end
    | frame_step ].
Qed.

(** X6.  compile runs the grouping only for a non-empty dictionary of groups
    (if features_groups:), whereas filter and to_pandas show groups as soon as
    features_groups is not None.  So after a compile with an empty dictionary
    of groups, on an explainer that never had grouped data, filter and
    to_pandas raise AttributeError on data_groups unless they are called with
    display_groups=False (use_groups=False). *)
Theorem compile_empty_groups_then_filter_raises x model0 explainer0 contributions0
    y_pred0 preprocessing0 postprocessing0 title_story0 (self s' : Self)
    h t p k proba dg :
  self data_groups = None ->
  SmartExplainer.compile lib x model0 explainer0 contributions0 y_pred0
    preprocessing0 postprocessing0 title_story0 (Some ∅) self = (Ok tt, s') ->
  dg <> Some false ->
  (SmartExplainer.filter lib masks h t p k dg s').1
    = Raise (AttributeError "data_groups") /\
  (SmartExplainer.to_pandas lib masks h t p k proba dg s').1
    = Raise (AttributeError "data_groups").
Proof.
  intros Hnone Hrun Hdg.
  destruct (returns_with_run _ _ _ _ _
              (compile_tail x model0 explainer0 contributions0 y_pred0 preprocessing0
                 postprocessing0 title_story0 (Some ∅) self) Hrun)
    as (_ & _ & _ & _ & Hfg).
  assert (Hdata : s' data_groups = None).
  { pose proof (compile_frame_ungrouped x model0 explainer0 contributions0 y_pred0
                  preprocessing0 postprocessing0 title_story0 (Some ∅) eq_refl
                  self data_groups) as Hkeep.
    rewrite Hrun in Hkeep. simpl in Hkeep. rewrite <- Hnone. apply Hkeep.
    unfold compile_assigned_ungrouped. not_listed. }
  assert (Hshown : SmartExplainer.groups_shown dg (Some (∅ : gmap string (list string)))
                   = true).
  { unfold SmartExplainer.groups_shown. rewrite bool_decide_false by exact Hdg.
    rewrite bool_decide_true by eauto. reflexivity. }
  split.
  - unfold SmartExplainer.filter, SmartExplainer.filter_combine.
    rewrite !bind_assoc.
    rewrite (bind_getattr features_groups _ _ s' Hfg). cbv zeta. rewrite Hshown.
    cbv iota. rewrite ?bind_assoc.
    rewrite (bind_getattr_absent data_groups _ s' Hdata). reflexivity.
  - unfold SmartExplainer.to_pandas.
    rewrite (bind_getattr features_groups _ _ s' Hfg). cbv zeta. rewrite Hshown.
    cbv iota.
    rewrite (bind_getattr_absent data_groups _ s' Hdata). reflexivity.
Qed.

End CompileResets.

Lemma compile_keeps_filter_and_labels_witness :
  (SmartExplainer.compile Demo.lib Demo.x tt None (Some (One Demo.contribs))
     (Some Demo.y) None None None None DemoRuns.filtered).2 mask
  = DemoRuns.filtered mask.
Proof.
  apply (compile_keeps_filter_and_labels Demo.lib Demo.x tt None
           (Some (One Demo.contribs)) (Some Demo.y) None None None None
           DemoRuns.filtered mask).
  unfold compile_keeps. repeat constructor.
Defined.

Lemma compile_resets_diagnostics_witness :
  (SmartExplainer.compile Demo.lib Demo.x tt None (Some (One Demo.contribs))
     (Some Demo.y) None None None None
     (assign features_imp (Some (One [1%Q; 1%Q; 1%Q])) Demo.compiled)).2 features_imp
  = Some None.
Proof.
  destruct (compile_resets_diagnostics Demo.lib Demo.x tt None
              (Some (One Demo.contribs)) (Some Demo.y) None None None None
              (assign features_imp (Some (One [1%Q; 1%Q; 1%Q])) Demo.compiled)
              _ eq_refl) as [Himp _].
  exact Himp.
Defined.

Lemma compile_empty_groups_then_filter_raises_witness :
  (SmartExplainer.filter Demo.lib smart_state None None None None None
     (SmartExplainer.compile Demo.lib Demo.x tt None (Some (One Demo.contribs))
        (Some Demo.y) None None None (Some ∅)
        (SmartExplainer.init {["age" := "Age"]} None None Demo.blank).2).2).1
  = Raise (AttributeError "data_groups").
Proof.
  destruct (compile_empty_groups_then_filter_raises Demo.lib smart_state
              Demo.x tt None (Some (One Demo.contribs)) (Some Demo.y) None None None
              (SmartExplainer.init {["age" := "Age"]} None None Demo.blank).2 _
              None None None None false None eq_refl eq_refl)
    as [Hfilter _]; [discriminate |].
  exact Hfilter.
Defined.

Section ToPandasAgain.

Context {ModelObj ExplainerObj Encoder : Type}.

Abbreviation Self := (Obj ModelObj ExplainerObj Encoder).
Abbreviation Method := (M ModelObj ExplainerObj Encoder).

Variable lib : SmartExplainer.Collaborators ModelObj ExplainerObj Encoder.
Variable masks : MaskAlgebra.

Lemma mask_fits_false cs m (self : Self) :
  self mask = Some m -> other_width cs m ->
  SmartExplainer.mask_fits cs self = (Ok false, self).
Proof.
  intros Hm Hw. unfold SmartExplainer.mask_fits, other_width in *.
  destruct cs as [c | [| c l]], m as [mk | [| mk l']]; try contradiction;
    rewrite (bind_getattr mask _ _ self Hm);
    rewrite bool_decide_eq_false_2 by exact Hw; reflexivity.
Qed.

(** X7.  With y_pred set and the data to summarize there, a to_pandas call
    without any criterion runs filter without criteria when no filter was
    recorded before (mask_params is not set), and also when the mask recorded
    has not the width of contrib_sorted: mask, masked_contributions and
    mask_params are after the call what that filter left, and mask_params
    holds four None once it has returned. *)
Theorem to_pandas_without_cache (proba : bool) ug (self : Self) fg d
    (y : DataFrame cell) :
  self features_groups = Some fg ->
  shown_data ug self = Some d ->
  self y_pred = Some (Some y) ->
  self mask_params = None \/
    (exists m, self mask = Some m /\ other_width (contrib_sorted d) m) ->
  (forall a, a ∈ filter_cache ->
     (SmartExplainer.to_pandas lib masks None None None None proba ug self).2 a
     = (SmartExplainer.filter lib masks None None None None
          (Some (SmartExplainer.groups_shown ug fg)) self).2 a) /\
  ((SmartExplainer.filter lib masks None None None None
      (Some (SmartExplainer.groups_shown ug fg)) self).1 = Ok tt ->
   (SmartExplainer.to_pandas lib masks None None None None proba ug self).2 mask_params
   = Some {| p_features_to_hide := None; p_threshold := None; p_positive := None;
             p_max_contrib := None |}).
Proof.
  intros Hfg Hd Hy Hmiss.
  assert (Hrerun : forall B (next : unit -> Method B),
            bind (SmartExplainer.apply_filter_if_necessary lib masks d
                    None None None None (SmartExplainer.groups_shown ug fg)) next self
            = bind (SmartExplainer.filter lib masks None None None None
                      (Some (SmartExplainer.groups_shown ug fg))) next self).
  { intros B next. unfold SmartExplainer.apply_filter_if_necessary.
    cbn [SmartExplainer.all_none]. rewrite bind_assoc. unfold bind at 1.
    unfold hasattr.
    destruct Hmiss as [Hnone | (m & Hm & Hw)].
    - rewrite Hnone. reflexivity.
    - destruct (self mask_params); [| reflexivity].
      rewrite (mask_fits_false _ m self Hm Hw). reflexivity. }
  assert (Hcache : forall a, a ∈ filter_cache ->
            (SmartExplainer.to_pandas lib masks None None None None proba ug self).2 a
            = (SmartExplainer.filter lib masks None None None None
                 (Some (SmartExplainer.groups_shown ug fg)) self).2 a).
  { intros a Ha. rewrite (to_pandas_unfold _ _ _ _ _ _ _ _ _ fg d y Hfg Hd Hy).
    rewrite Hrerun. unfold bind.
    destruct (SmartExplainer.filter lib masks None None None None
                (Some (SmartExplainer.groups_shown ug fg)) self)
      as [[[] | e] s1]; cbn [snd]; [| reflexivity].
    apply summarize_and_join_frame, cache_outside_summary, Ha. }
  split; [exact Hcache |]. intros Hok.
  rewrite Hcache by (unfold filter_cache; repeat constructor).
  apply (filter_records_params lib masks None None None None
           (Some (SmartExplainer.groups_shown ug fg)) self).
  destruct (SmartExplainer.filter lib masks None None None None
              (Some (SmartExplainer.groups_shown ug fg)) self) as [r s1].
  cbn [fst snd] in *. subst r. reflexivity.
Qed.

End ToPandasAgain.

Lemma to_pandas_without_cache_witness :
  (SmartExplainer.to_pandas Demo.lib smart_state None None None None false None
     Demo.compiled).2 mask_params
  = Some {| p_features_to_hide := None; p_threshold := None; p_positive := None;
            p_max_contrib := None |}.
Proof.
  destruct (to_pandas_without_cache Demo.lib smart_state false None Demo.compiled
              None Demo.ranked Demo.y eq_refl eq_refl eq_refl (or_introl eq_refl))
    as [_ Hparams].
  apply Hparams. reflexivity.
Defined.

Section ToPandasSummary.

Context {ModelObj ExplainerObj Encoder : Type}.

Abbreviation Self := (Obj ModelObj ExplainerObj Encoder).
Abbreviation Method := (M ModelObj ExplainerObj Encoder).

Variable lib : SmartExplainer.Collaborators ModelObj ExplainerObj Encoder.
Variable masks : MaskAlgebra.

Lemma predict_proba_frame :
  assigns_only [proba_values] (SmartExplainer.predict_proba lib : Method unit).
Proof. unfold SmartExplainer.predict_proba. repeat frame_step. Qed.

Lemma summarize_and_join_stores d proba (ug : bool) (s1 : Self) :
  returns_with (SmartExplainer.summarize_and_join lib d proba ug : Method _) s1
    (fun _ s' =>
       exists s, (if ug then s' data_groups else s' data) = Some (set_summary s d) /\
                 (if ug then s' data else s' data_groups)
                 = (if ug then s1 data else s1 data_groups) /\
                 s' features_groups = s1 features_groups).
Proof.
  unfold SmartExplainer.summarize_and_join, SmartExplainer.predict_proba.
  destruct ug, proba; repeat (return_step; cbv beta); eexists; repeat split.
Qed.

(** X8.  A to_pandas that returns has stored a summary in the data dictionary
    it summarised (data_groups when groups are shown, data otherwise) and has
    left its ranked tables contrib_sorted, var_dict and x_sorted as they were;
    the other data dictionary is untouched. *)
Theorem to_pandas_keeps_ranks h t p k proba ug (self s' : Self) fg d out :
  self features_groups = Some fg ->
  shown_data ug self = Some d ->
  SmartExplainer.to_pandas lib masks h t p k proba ug self = (Ok out, s') ->
  (exists s, shown_data ug s' = Some (set_summary s d)) /\
  (if SmartExplainer.groups_shown ug fg then s' data = self data
   else s' data_groups = self data_groups).
Proof.
  intros Hfg Hd Hrun.
  destruct (self y_pred) as [[y |] |] eqn:Hy.
  - rewrite (to_pandas_unfold _ _ _ _ _ _ _ _ _ fg d y Hfg Hd Hy) in Hrun.
    apply bind_ok_inv in Hrun as ([] & s1 & Hfilter & Hjoin).
    pose proof (apply_filter_frame lib masks d h t p k
                  (SmartExplainer.groups_shown ug fg) self) as Hframe.
    rewrite Hfilter in Hframe. cbn [snd] in Hframe.
    destruct (returns_with_run _ _ _ _ _
                (summarize_and_join_stores d proba
                   (SmartExplainer.groups_shown ug fg) s1) Hjoin)
      as (s & Hshown & Hother & Hgroups).
    rewrite (Hframe features_groups) in Hgroups by not_cached.
    split.
    + exists s. unfold shown_data. rewrite Hgroups, Hfg.
      destruct (SmartExplainer.groups_shown ug fg); exact Hshown.
    + destruct (SmartExplainer.groups_shown ug fg); rewrite Hother;
        apply Hframe; not_cached.
  - exfalso. revert Hrun. unfold SmartExplainer.to_pandas.
    rewrite (bind_getattr features_groups fg _ self Hfg). cbv zeta.
    unfold shown_data in Hd. rewrite Hfg in Hd.
    destruct (SmartExplainer.groups_shown ug fg).
    + rewrite (bind_getattr data_groups d _ self Hd).
      rewrite (bind_getattr y_pred None _ self Hy). discriminate.
    + rewrite (bind_getattr data d _ self Hd).
      rewrite (bind_getattr y_pred None _ self Hy). discriminate.
  - exfalso. revert Hrun. unfold SmartExplainer.to_pandas.
    rewrite (bind_getattr features_groups fg _ self Hfg). cbv zeta.
    unfold shown_data in Hd. rewrite Hfg in Hd.
    destruct (SmartExplainer.groups_shown ug fg).
    + rewrite (bind_getattr data_groups d _ self Hd).
      rewrite (bind_getattr_absent y_pred _ self Hy). discriminate.
    + rewrite (bind_getattr data d _ self Hd).
      rewrite (bind_getattr_absent y_pred _ self Hy). discriminate.
Qed.

End ToPandasSummary.

Lemma to_pandas_keeps_ranks_witness :
  exists s,
    shown_data None
      (SmartExplainer.to_pandas Demo.lib smart_state None (Some (1 # 5)%Q) None (Some 1)
         false None Demo.compiled).2
    = Some (set_summary s Demo.ranked).
Proof.
  destruct (to_pandas_keeps_ranks Demo.lib smart_state None (Some (1 # 5)%Q) None
              (Some 1) false None Demo.compiled _ None Demo.ranked _
              eq_refl eq_refl eq_refl) as [Hsummary _].
  exact Hsummary.
Defined.

(** The step that reads an attribute, naming what is read. *)
Ltac return_read x H :=
  lazymatch goal with
  | |- returns_with (bind (getattr ?b) _) _ _ =>
      apply returns_with_bind, (returns_with_getattr b); intros x H; cbv beta
  end.

Section FeaturesImport.

Context {ModelObj ExplainerObj Encoder : Type}.

Abbreviation Self := (Obj ModelObj ExplainerObj Encoder).
Abbreviation Method := (M ModelObj ExplainerObj Encoder).

Variable lib : SmartExplainer.Collaborators ModelObj ExplainerObj Encoder.

Lemma compute_features_import_computed force (self : Self) :
  returns_with (SmartExplainer.compute_features_import lib force : Method unit) self
    (fun _ s' =>
       (exists fg, s' features_groups = Some fg /\
                   (is_Some fg -> exists v, s' features_imp_groups = Some (Some v))) /\
       (exists v, s' features_imp = Some (Some v))).
Proof.
  unfold SmartExplainer.compute_features_import.
  return_read fg Hfg.
  return_step.
  apply (returns_with_weaken _ _
           (fun _ s1 => s1 features_groups = Some fg /\
                        (is_Some fg -> exists v, s1 features_imp_groups = Some (Some v)))).
  { case_bool_decide as Hsome.
    - return_read fig Hfig.
      destruct fig as [v |].
      + return_step. split; [exact Hfg | intros _; exists v; exact Hfig].
      + repeat (return_step; cbv beta). split.
        * rewrite assign_other by discriminate. exact Hfg.
        * intros _. eexists. apply assign_same.
    - return_step. split; [exact Hfg | intros Hs; contradiction]. }
  intros _ s1 [Hfg1 Hfig1]. cbv beta.
  return_read fi Hfi.
  destruct (bool_decide (fi = None) || force) eqn:Hrecompute.
  - repeat (return_step; cbv beta). split.
    + exists fg. split.
      * rewrite assign_other by discriminate. exact Hfg1.
      * intros Hs. destruct (Hfig1 Hs) as [v Hv]. exists v.
        rewrite assign_other by discriminate. exact Hv.
    + eexists. apply assign_same.
  - return_step. split; [exists fg; auto |].
    apply orb_false_elim in Hrecompute as [Hset _].
    apply bool_decide_eq_false in Hset.
    destruct fi as [v |]; [exists v; exact Hfi | contradiction].
Qed.

(** X9.  compute_features_import caches: once a call has returned, a call
    with force=False returns at once and leaves the explainer as it is. *)
Theorem compute_features_import_cached force (self s1 : Self) :
  SmartExplainer.compute_features_import lib force self = (Ok tt, s1) ->
  SmartExplainer.compute_features_import lib false s1 = (Ok tt, s1).
Proof.
  intros Hrun.
  destruct (returns_with_run _ _ _ _ _
              (compute_features_import_computed force self) Hrun)
    as [(fg & Hfg & Hfig) [v Hv]].
  unfold SmartExplainer.compute_features_import.
  rewrite (bind_getattr features_groups fg _ s1 Hfg).
  assert (Hfirst : forall B (k : unit -> Method B),
            bind (if bool_decide (is_Some fg)
                  then fig <- getattr features_imp_groups ;;
                       match fig with
                       | None =>
                           st <- getattr state ;;
                           cg <- getattr contributions_groups ;;
                           imp <- call (SmartExplainer.st_compute_features_import
                                          lib st cg) ;;
                           setattr features_imp_groups (Some imp)
                       | Some _ => ret tt
                       end
                  else ret tt) k s1 = k tt s1).
  { intros B k. case_bool_decide as Hsome; [| reflexivity].
    destruct (Hfig Hsome) as [w Hw]. rewrite bind_assoc.
    rewrite (bind_getattr features_imp_groups (Some w) _ s1 Hw). reflexivity. }
  rewrite Hfirst.
  rewrite (bind_getattr features_imp (Some v) _ s1 Hv). reflexivity.
Qed.

(** X10.  force concerns features_imp alone: once the importance of the
    groups is computed, compute_features_import changes no attribute but
    features_imp, whatever force is, so that force=True does not compute the
    importance of the groups again. *)
Theorem compute_features_import_force_spares_groups force (self : Self) v :
  self features_imp_groups = Some (Some v) ->
  forall a, a <> features_imp ->
    (SmartExplainer.compute_features_import lib force self).2 a = self a.
Proof.
  intros Hv a Ha.
  assert (Hframe : assigns_only [features_imp]
            (fg <- getattr features_groups ;;
             (if bool_decide (is_Some fg) then ret tt else ret tt) ;;;
             fi <- getattr features_imp ;;
             if bool_decide (fi = None) || force then
               st <- getattr state ;;
               c <- getattr contributions ;;
               imp <- call (SmartExplainer.st_compute_features_import lib st c) ;;
               setattr features_imp (Some imp)
             else ret tt : Method unit)).
  { repeat frame_step. }
  assert (Hsame : SmartExplainer.compute_features_import lib force self
                  = (fg <- getattr features_groups ;;
                     (if bool_decide (is_Some fg) then ret tt else ret tt) ;;;
                     fi <- getattr features_imp ;;
                     if bool_decide (fi = None) || force then
                       st <- getattr state ;;
                       c <- getattr contributions ;;
                       imp <- call (SmartExplainer.st_compute_features_import lib st c) ;;
                       setattr features_imp (Some imp)
                     else ret tt) self).
  { unfold SmartExplainer.compute_features_import.
    destruct (self features_groups) as [fg |] eqn:Hfg.
    - rewrite !(bind_getattr features_groups fg _ self Hfg).
      case_bool_decide; [| reflexivity].
      rewrite bind_assoc.
      rewrite (bind_getattr features_imp_groups (Some v) _ self Hv). reflexivity.
    - rewrite !(bind_getattr_absent features_groups _ self Hfg). reflexivity. }
  rewrite Hsame. apply Hframe.
  intros [-> | Hin]%elem_of_cons; [contradiction | inversion Hin].
Qed.

End FeaturesImport.

Lemma compute_features_import_cached_witness :
  SmartExplainer.compute_features_import Demo.lib false
    (SmartExplainer.compute_features_import Demo.lib true Demo.compiled).2
  = (Ok tt, (SmartExplainer.compute_features_import Demo.lib true Demo.compiled).2).
Proof.
  apply (compute_features_import_cached Demo.lib true Demo.compiled). reflexivity.
Defined.

Lemma compute_features_import_force_spares_groups_witness :
  (SmartExplainer.compute_features_import Demo.lib true
     (assign features_imp_groups (Some (One [1%Q]))
        (assign features_groups (Some {["g" := ["age"; "fare"]]}) Demo.compiled))).2
    features_imp_groups
  = Some (Some (One [1%Q])).
Proof.
  rewrite (compute_features_import_force_spares_groups Demo.lib true
             (assign features_imp_groups (Some (One [1%Q]))
                (assign features_groups (Some {["g" := ["age"; "fare"]]}) Demo.compiled))
             (One [1%Q]) eq_refl features_imp_groups) by discriminate.
  reflexivity.
Defined.

Section CheckLabelName.

Context {ModelObj ExplainerObj Encoder : Type}.

Abbreviation Self := (Obj ModelObj ExplainerObj Encoder).
Abbreviation Method := (M ModelObj ExplainerObj Encoder).

Lemma leaves_store_ret {A} (x : A) : leaves_store (ret x : Method A).
Proof. intros self. reflexivity. Qed.

Lemma leaves_store_raise {A} (e : exn) : leaves_store (raise e : Method A).
Proof. intros self. reflexivity. Qed.

Lemma leaves_store_call {A} (r : result A) : leaves_store (call r : Method A).
Proof. intros self. reflexivity. Qed.

Lemma leaves_store_getattr (a : attr) : leaves_store (getattr a : Method _).
Proof. intros self. unfold getattr. destruct (self a); reflexivity. Qed.

Lemma leaves_store_bind {A B} (m : Method A) (k : A -> Method B) :
  leaves_store m -> (forall x, leaves_store (k x)) -> leaves_store (bind m k).
Proof.
  intros Hm Hk self. unfold bind. specialize (Hm self).
  destruct (m self) as [[x | e] s1]; simpl in *; subst s1; [apply Hk | reflexivity].
Qed.

End CheckLabelName.

(** One step of a proof that a method leaves the store as it is. *)
Ltac pure_step :=
  lazymatch goal with
  | |- leaves_store (bind _ _) => apply leaves_store_bind; [| intros ?]
  | |- leaves_store (getattr ?b) => apply (leaves_store_getattr b)
  | |- leaves_store (ret _) => apply leaves_store_ret
  | |- leaves_store (raise _) => apply leaves_store_raise
  | |- leaves_store (call _) => apply leaves_store_call
  | |- leaves_store (if ?b then _ else _) => destruct b
  | |- leaves_store (match ?x with _ => _ end) => destruct x
  end.

Section CheckLabelNameFacts.

Context {ModelObj ExplainerObj Encoder : Type}.

Abbreviation Self := (Obj ModelObj ExplainerObj Encoder).
Abbreviation Method := (M ModelObj ExplainerObj Encoder).

Lemma returns_with_pure {A} (m : Method A) (s : Self) (Q : A -> Self -> Prop) :
  leaves_store m -> returns_with m s Q ->
  returns_with m s (fun x s' => s' = s /\ Q x s').
Proof.
  intros Hm. unfold returns_with. specialize (Hm s).
  destruct (m s) as [[x | e] s1]; simpl in *; auto.
Qed.

Lemma label_value_of_pure code :
  leaves_store (SmartExplainer.label_value_of code : Method _).
Proof. unfold SmartExplainer.label_value_of. repeat pure_step. Qed.

Lemma class_position_pure code :
  leaves_store (SmartExplainer.class_position code : Method _).
Proof. unfold SmartExplainer.class_position. repeat pure_step. Qed.

Lemma guess_origin_pure l origin :
  leaves_store (SmartExplainer.guess_origin l origin : Method _).
Proof. unfold SmartExplainer.guess_origin. repeat pure_step. Qed.

Lemma py_index_getitem classes z i :
  SmartExplainer.py_index classes z = Ok i ->
  SmartExplainer.py_getitem classes (Z.of_nat i) = Ok z.
Proof.
  unfold SmartExplainer.py_index, SmartExplainer.py_getitem.
  destruct (list_find (fun c => c = z) classes) as [[j c] |] eqn:Hfind; [| discriminate].
  intros [= <-]. apply list_find_Some in Hfind as (Hj & -> & _).
  cbv zeta. destruct (Z.of_nat j <? 0) eqn:Hneg; [apply Z.ltb_lt in Hneg; lia |].
  rewrite Hneg, Nat2Z.id, Hj. reflexivity.
Qed.

Lemma label_value_of_shows l code (self : Self) :
  returns_with (SmartExplainer.label_value_of code : Method _) self
    (fun value _ => shows_class self l code value).
Proof.
  unfold SmartExplainer.label_value_of.
  return_read ld Hld.
  destruct (SmartExplainer.truthy_dict ld) eqn:Htruthy.
  - return_read ld' Hld'. rewrite Hld in Hld'. injection Hld' as <-.
    destruct ld as [d |]; [| discriminate]. simpl.
    destruct (d !! code) as [v |] eqn:Hv; return_step.
    left. exists d. auto.
  - return_step. split; [reflexivity |]. exists ld. auto.
Qed.

Lemma class_position_getitem code (self : Self) :
  returns_with (SmartExplainer.class_position code : Method _) self
    (fun num _ => exists classes z,
         code = SmartExplainer.LInt z /\ self _classes = Some (Some classes) /\
         SmartExplainer.py_index classes z = Ok (Z.to_nat num) /\ 0 <= num /\
         SmartExplainer.py_getitem classes num = Ok z).
Proof.
  unfold SmartExplainer.class_position.
  return_read cl Hcl. destruct cl as [classes |]; [| return_step].
  destruct code as [z | s]; [| return_step].
  apply returns_with_bind, returns_with_call. intros i Hi. cbv beta.
  return_step. exists classes, z. rewrite Nat2Z.id.
  repeat split; auto; [lia | apply py_index_getitem, Hi].
Qed.

Lemma read_label_sound l origin (self : Self) :
  returns_with (SmartExplainer.read_label l origin : Method _) self
    (fun found _ =>
       exists classes, self _classes = Some (Some classes) /\
         SmartExplainer.py_getitem classes found.1.1 = Ok found.1.2 /\
         shows_class self l found.1.2 found.2).
Proof.
  unfold SmartExplainer.read_label.
  repeat case_bool_decide.
  - return_read cl Hcl. destruct cl as [classes |]; [| return_step].
    destruct l as [z | s]; [| return_step].
    apply returns_with_bind, returns_with_call. intros code Hcode. cbv beta.
    apply returns_with_bind.
    apply (returns_with_weaken _ _ _ _
             (label_value_of_shows (SmartExplainer.LInt z) code self)).
    intros value s1 Hvalue. return_step. exists classes. auto.
  - apply returns_with_bind.
    apply (returns_with_weaken _ _ _ _
             (returns_with_pure _ _ _ (class_position_pure l)
                (class_position_getitem l self))).
    intros num s1 (-> & classes & z & -> & Hcl & _ & _ & Hget).
    apply returns_with_bind.
    apply (returns_with_weaken _ _ _ _
             (label_value_of_shows (SmartExplainer.LInt z) z self)).
    intros value s2 Hvalue. return_step. exists classes. auto.
  - return_read ild Hild. destruct l as [z | s]; [return_step |].
    destruct (ild !! s) as [code |] eqn:Hcode; [| return_step].
    apply returns_with_bind.
    apply (returns_with_weaken _ _ _ _
             (class_position_getitem (SmartExplainer.LInt code) self)).
    intros num s1 (classes & z & [= <-] & Hcl & _ & _ & Hget).
    return_step. exists classes. repeat split; auto.
    right. split; [reflexivity |]. exists ild. auto.
  - return_step.
Qed.

Lemma check_label_name_unfold l origin (self : Self) :
  SmartExplainer.check_label_name l origin self
  = match (SmartExplainer.guess_origin l origin self).1 with
    | Raise e => inl (SmartExplainer.Uncaught e)
    | Ok origin =>
        match (SmartExplainer.read_label l origin self).1 with
        | Ok found => inr found
        | Raise (ValueError _) => inl SmartExplainer.OriginMustBe
        | Raise _ => inl (SmartExplainer.LabelNotFound l origin)
        end
    end.
Proof.
  unfold SmartExplainer.check_label_name.
  pose proof (guess_origin_pure l origin self) as Hpure.
  destruct (SmartExplainer.guess_origin l origin self) as [[o | e] s1];
    simpl in *; [subst s1 | reflexivity].
  destruct (SmartExplainer.read_label l o self) as [[found | e] s2]; reflexivity.
Qed.

(** X11.  What check_label_name returns is consistent: the class code is the
    class at the position returned, and the value is what the explainer shows
    for this code: the code itself when label_dict is None or empty, the name
    that label_dict gives it, or the name asked for when inv_label_dict maps
    it to the code. *)
Theorem check_label_name_consistent l origin (self : Self) num code value :
  SmartExplainer.check_label_name l origin self = inr (num, code, value) ->
  exists classes,
    self _classes = Some (Some classes) /\
    SmartExplainer.py_getitem classes num = Ok code /\
    shows_class self l code value.
Proof.
  rewrite check_label_name_unfold.
  destruct (SmartExplainer.guess_origin l origin self).1 as [o | e]; [| discriminate].
  pose proof (read_label_sound l o self) as Hsound. unfold returns_with in Hsound.
  destruct (SmartExplainer.read_label l o self) as [[found | e] s2]; simpl.
  - intros [= ->]. exact Hsound.
  - destruct e; discriminate.
Qed.

(** X12.  The message of the error does not tell which argument is wrong:
    with origin='code', a label that is none of the classes raises the
    Exception "Origin must be 'num', 'code' or 'value'." (the ValueError of
    list.index is caught by the first handler), as an origin that is none of
    the three does; with origin='num', a position outside the classes raises
    the Exception "Label ... not found for origin ...". *)
Theorem check_label_name_errors l (self : Self) classes :
  self _classes = Some (Some classes) ->
  (SmartExplainer.label_in_classes l classes = false ->
   SmartExplainer.check_label_name l (Some "code") self
   = inl SmartExplainer.OriginMustBe) /\
  (forall o, o <> "num" -> o <> "code" -> o <> "value" ->
   SmartExplainer.check_label_name l (Some o) self = inl SmartExplainer.OriginMustBe) /\
  (forall z, l = SmartExplainer.LInt z ->
   z < - Z.of_nat (length classes) \/ Z.of_nat (length classes) <= z ->
   SmartExplainer.check_label_name l (Some "num") self
   = inl (SmartExplainer.LabelNotFound l (Some "num"))).
Proof.
  intros Hcl. split; [| split].
  - intros Hout. rewrite check_label_name_unfold. simpl.
    unfold SmartExplainer.read_label.
    rewrite bool_decide_false by discriminate.
    rewrite bool_decide_true by reflexivity.
    unfold SmartExplainer.class_position. rewrite bind_assoc.
    rewrite (bind_getattr _classes (Some classes) _ self Hcl).
    destruct l as [z | s]; [| reflexivity].
    unfold SmartExplainer.py_index.
    destruct (list_find (fun c => c = z) classes) as [[i c] |] eqn:Hfind.
    + apply list_find_Some in Hfind as (Hi & -> & _).
      simpl in Hout. apply bool_decide_eq_false in Hout.
      destruct Hout. eapply list_elem_of_lookup_2, Hi.
    + reflexivity.
  - intros o Hnum Hcode Hvalue. rewrite check_label_name_unfold. simpl.
    unfold SmartExplainer.read_label.
    rewrite !bool_decide_false by congruence. reflexivity.
  - intros z -> Hrange. rewrite check_label_name_unfold. simpl.
    unfold SmartExplainer.read_label.
    rewrite bool_decide_true by reflexivity.
    rewrite (bind_getattr _classes (Some classes) _ self Hcl).
    rewrite bind_call.
    assert (Hget : SmartExplainer.py_getitem classes z
                   = Raise (IndexError "list index out of range")).
    { unfold SmartExplainer.py_getitem. cbv zeta.
      destruct (z <? 0) eqn:Hneg.
      - apply Z.ltb_lt in Hneg.
        destruct (z + Z.of_nat (length classes) <? 0) eqn:Hlow; [reflexivity |].
        apply Z.ltb_ge in Hlow. lia.
      - apply Z.ltb_ge in Hneg. rewrite (proj2 (Z.ltb_ge z 0) Hneg).
        rewrite lookup_ge_None_2 by lia. reflexivity. }
    rewrite Hget. reflexivity.
Qed.

(** X13.  Without origin, a label that is one of the classes is taken as a
    class code, also when it is a valid position: the code returned is the
    label itself and the position returned is that of its first occurrence
    among the classes. *)
Theorem check_label_name_code_first z (self : Self) classes num code value :
  self _classes = Some (Some classes) ->
  z ∈ classes ->
  SmartExplainer.check_label_name (SmartExplainer.LInt z) None self
    = inr (num, code, value) ->
  code = z /\ 0 <= num /\ classes !! Z.to_nat num = Some z /\
  forall j c, classes !! j = Some c -> (j < Z.to_nat num)%nat -> c <> z.
Proof.
  intros Hcl Hin. rewrite check_label_name_unfold.
  unfold SmartExplainer.guess_origin.
  rewrite (bind_getattr _classes (Some classes) _ self Hcl).
  simpl. rewrite bool_decide_true by exact Hin. simpl.
  unfold SmartExplainer.read_label.
  rewrite bool_decide_false by discriminate.
  rewrite bool_decide_true by reflexivity.
  unfold SmartExplainer.class_position. rewrite !bind_assoc.
  rewrite (bind_getattr _classes (Some classes) _ self Hcl).
  rewrite bind_assoc, bind_call.
  unfold SmartExplainer.py_index.
  destruct (list_find (fun c => c = z) classes) as [[i c] |] eqn:Hfind;
    [| discriminate].
  apply list_find_Some in Hfind as (Hi & -> & Hfirst).
  rewrite bind_ret.
  pose proof (label_value_of_pure z self) as Hpure.
  unfold bind.
  destruct (SmartExplainer.label_value_of z self) as [[v | e] s1]; simpl.
  - intros [= <- <- <-]. rewrite Nat2Z.id.
    split; [reflexivity |]. split; [lia |]. split; [exact Hi |].
    intros j c Hj Hlt. exact (Hfirst j c Hj Hlt).
  - destruct e; discriminate.
Qed.

End CheckLabelNameFacts.

Lemma check_label_name_consistent_witness :
  exists classes,
    DemoLabels.labelled _classes = Some (Some classes) /\
    SmartExplainer.py_getitem classes 2 = Ok 1 /\
    shows_class DemoLabels.labelled (SmartExplainer.LStr "yes") 1
      (SmartExplainer.LStr "yes").
Proof.
  apply (check_label_name_consistent (SmartExplainer.LStr "yes") None
           DemoLabels.labelled 2 1 (SmartExplainer.LStr "yes")).
  vm_compute. reflexivity.
Defined.

Lemma check_label_name_errors_witness :
  SmartExplainer.check_label_name (SmartExplainer.LInt 7) (Some "code")
    DemoLabels.labelled
  = inl SmartExplainer.OriginMustBe.
Proof.
  destruct (check_label_name_errors (SmartExplainer.LInt 7) DemoLabels.labelled
              [2; 0; 1] eq_refl) as [Hcode _].
  apply Hcode. reflexivity.
Defined.

Lemma check_label_name_code_first_witness :
  0 = 0 /\ 0 <= 1 /\ [2; 0; 1] !! Z.to_nat 1 = Some 0 /\
  forall j c, [2; 0; 1] !! j = Some c -> (j < Z.to_nat 1)%nat -> c <> 0.
Proof.
  apply (check_label_name_code_first 0 DemoLabels.labelled [2; 0; 1] 1 0
           (SmartExplainer.LStr "no")).
  - reflexivity.
  - repeat constructor.
  - vm_compute. reflexivity.
Defined.

Section CompileNames.

Context {ModelObj ExplainerObj Encoder : Type}.

Abbreviation Self := (Obj ModelObj ExplainerObj Encoder).
Abbreviation Method := (M ModelObj ExplainerObj Encoder).

Variable lib : SmartExplainer.Collaborators ModelObj ExplainerObj Encoder.

Lemma keeps_bind {A B} I (m : Method A) (k : A -> Method B) :
  keeps I m -> (forall x, keeps I (k x)) -> keeps I (bind m k).
Proof.
  intros Hm Hk s Hs. apply returns_with_bind.
  apply (returns_with_weaken _ _ _ _ (Hm s Hs)).
  intros x s' Hs'. apply Hk, Hs'.
Qed.

Lemma keeps_frame {A} (I : Self -> Prop) touched (m : Method A) :
  assigns_only touched m ->
  (forall s s', (forall a, a ∉ touched -> s' a = s a) -> I s -> I s') ->
  keeps I m.
Proof.
  intros Hm Hstable s Hs. apply (returns_with_frame _ touched); [exact Hm |].
  intros x s' Hsame. exact (Hstable s s' Hsame Hs).
Qed.

Lemma keeps_for_each {A} I (l : list A) (body : A -> Method unit) :
  (forall a, keeps I (body a)) -> keeps I (SmartExplainer.for_each l body).
Proof.
  intros Hbody. induction l as [| a l IH]; simpl.
  - intros s Hs. exact Hs.
  - apply keeps_bind; [apply Hbody | intros _; exact IH].
Qed.

Lemma returns_with_keep {A B} (I : Self -> Prop) (m : Method A) (k : A -> Method B)
    (s : Self) Q :
  I s -> keeps I m ->
  (forall x s', I s' -> returns_with (k x) s' Q) ->
  returns_with (bind m k) s Q.
Proof.
  intros Hs Hm Hk. apply returns_with_bind.
  apply (returns_with_weaken _ _ _ _ (Hm s Hs)). exact Hk.
Qed.

Lemma names_kept_stable cd named (s s' : Self) :
  (forall a, a ∉ compile_assigned_last -> s' a = s a) ->
  names_kept cd named s -> names_kept cd named s'.
Proof.
  intros Hsame [Hcd (fd & Hfd & Hsub)]. split.
  - rewrite <- Hcd. apply Hsame. unfold compile_assigned_last. not_listed.
  - exists fd. split; [| exact Hsub].
    rewrite <- Hfd. apply Hsame. unfold compile_assigned_last. not_listed.
Qed.

Lemma update_features_dict_keeps cd named groups :
  keeps (names_kept cd named)
    (SmartExplainer._update_features_dict_with_groups groups : Method unit).
Proof.
  unfold SmartExplainer._update_features_dict_with_groups.
  apply keeps_for_each. intros name s [Hcd (fd & Hfd & Hsub)].
  return_read desc Hdesc.
  apply returns_with_bind. return_step. cbv beta.
  return_read fd' Hfd'.
  rewrite assign_other in Hfd' by discriminate. rewrite Hfd in Hfd'.
  injection Hfd' as <-.
  case_bool_decide as Hknown.
  - return_step. split.
    + rewrite assign_other by discriminate. exact Hcd.
    + exists fd. split; [| exact Hsub]. rewrite assign_other by discriminate. exact Hfd.
  - apply returns_with_bind. return_step. cbv beta.
    return_read ifd Hifd. return_step. split.
    + rewrite !assign_other by discriminate. exact Hcd.
    + exists (<[name := name]> (fd : gmap string string)). split.
      * rewrite assign_other by discriminate. apply assign_same.
      * etransitivity; [exact Hsub |]. apply insert_subseteq.
        apply eq_None_not_Some. exact Hknown.
Qed.

Lemma features_dict_stable (fd0 : gmap string string) (s s' : Self) :
  (forall a, a ∉ compile_assigned_first -> s' a = s a) ->
  s features_dict = Some fd0 -> s' features_dict = Some fd0.
Proof.
  intros Hsame Hfd. rewrite <- Hfd. apply Hsame.
  unfold compile_assigned_first. not_listed.
Qed.

End CompileNames.

(** One step of a proof that the rest of [compile] keeps the names. *)
Ltac keeps_step :=
  lazymatch goal with
  | |- keeps _ (bind _ _) => apply keeps_bind; [| intros ?]
  | |- keeps _ (SmartExplainer._update_features_dict_with_groups _) =>
      apply update_features_dict_keeps
  | |- keeps _ (SmartExplainer.when ?b _) => destruct b; simpl
  | |- keeps _ (SmartExplainer.modify_postprocessing _) =>
      apply (keeps_frame _ compile_assigned_last);
      [apply modify_postprocessing_frame | apply names_kept_stable]
  | |- keeps _ _ =>
      apply (keeps_frame _ compile_assigned_last);
      [unfold compile_assigned_last; solve [repeat frame_step]
      | apply names_kept_stable]
  end.

Section CompileNamesFacts.

Context {ModelObj ExplainerObj Encoder : Type}.

Abbreviation Self := (Obj ModelObj ExplainerObj Encoder).
Abbreviation Method := (M ModelObj ExplainerObj Encoder).

Variable lib : SmartExplainer.Collaborators ModelObj ExplainerObj Encoder.

Lemma compile_names x model0 explainer0 contributions0 y_pred0 preprocessing0
    postprocessing0 title_story0 features_groups0 (self : Self)
    (fd0 : gmap string string) :
  self features_dict = Some fd0 ->
  returns_with
    (SmartExplainer.compile lib x model0 explainer0 contributions0 y_pred0
       preprocessing0 postprocessing0 title_story0 features_groups0 : Method unit)
    self
    (fun _ s' =>
       exists cd : gmap nat string,
         names_kept cd
           (set_fold (fun feature d => <[feature:=feature]> d) fd0
              (map_img cd ∖ dom fd0 : gset string)) s').
Proof.
  intros Hfd0.
  unfold SmartExplainer.compile, SmartExplainer.check_model,
    SmartExplainer.check_label_dict, SmartExplainer.adapt_contributions,
    SmartExplainer.validate_contributions, SmartExplainer.apply_preprocessing,
    SmartExplainer.check_contributions, SmartExplainer.check_y_pred,
    SmartExplainer.check_postprocessing,
    SmartExplainer.check_postprocessing_modif_strings,
    SmartExplainer.apply_postprocessing, SmartExplainer.check_features_desc,
    SmartExplainer._compile_features_groups.
  repeat lazymatch goal with
    | |- returns_with (bind (setattr columns_dict _) _) _ _ => fail
    | |- returns_with (bind ?m _) ?s _ =>
        apply (returns_with_keep (fun s => s features_dict = Some fd0) m _ s);
        [ exact Hfd0
        | apply (keeps_frame _ compile_assigned_first);
          [ unfold compile_assigned_first; solve [repeat frame_step]
          | apply features_dict_stable ]
        | clear Hfd0; intros ? ? Hfd0 ]
    end.
  match goal with
  | |- returns_with (bind (setattr columns_dict (SmartExplainer.enumerate_dict ?cols)) _)
         ?s _ => set (cd0 := SmartExplainer.enumerate_dict cols); rename s into s0
  end.
  apply returns_with_bind. return_step. cbv beta.
  return_read cd Hcd. rewrite assign_same in Hcd. injection Hcd as <-.
  apply returns_with_bind. return_step. cbv beta.
  unfold SmartExplainer.check_features_dict.
  apply returns_with_bind.
  return_read cd Hcd. rewrite assign_other, assign_same in Hcd by discriminate.
  injection Hcd as <-.
  return_read fd Hfd. rewrite !assign_other in Hfd by discriminate.
  rewrite Hfd0 in Hfd. injection Hfd as <-.
  cbv zeta. return_step. cbv beta.
  set (named := set_fold (fun feature d => <[feature:=feature]> d) fd0
                  (map_img cd0 ∖ dom fd0 : gset string)).
  match goal with
  | |- returns_with ?rest ?s1 _ =>
      assert (Hkeeps : keeps (names_kept cd0 named) rest)
  end.
  { repeat keeps_step. }
  apply (returns_with_weaken _ _ (fun _ s' => names_kept cd0 named s')).
  - apply Hkeeps. split.
    + rewrite !assign_other by discriminate. apply assign_same.
    + exists named. split; [apply assign_same | reflexivity].
  - intros _ s1 Hs1. exists cd0. exact Hs1.
Qed.

(** X14.  After a compile that returns, every column name of columns_dict
    has a display name in features_dict: the one of the dictionary given to
    the explainer when it has one, the column name itself otherwise; and
    every entry of that dictionary is still there, unchanged, whatever groups
    of features were added. *)
Theorem compile_names_every_column x model0 explainer0 contributions0 y_pred0
    preprocessing0 postprocessing0 title_story0 features_groups0 (self s' : Self)
    (fd0 : gmap string string) :
  self features_dict = Some fd0 ->
  SmartExplainer.compile lib x model0 explainer0 contributions0 y_pred0
    preprocessing0 postprocessing0 title_story0 features_groups0 self = (Ok tt, s') ->
  exists (cd : gmap nat string) (fd : gmap string string),
    s' columns_dict = Some cd /\ s' features_dict = Some fd /\
    (forall i name, cd !! i = Some name ->
       fd !! name = Some (default name (fd0 !! name))) /\
    (forall k v, fd0 !! k = Some v -> fd !! k = Some v).
Proof.
  intros Hfd0 Hrun.
  destruct (returns_with_run _ _ _ _ _
              (compile_names x model0 explainer0 contributions0 y_pred0
                 preprocessing0 postprocessing0 title_story0 features_groups0
                 self fd0 Hfd0) Hrun)
    as (cd & Hcd & fd & Hfd & Hsub).
  exists cd, fd. split; [exact Hcd |]. split; [exact Hfd |]. split.
  - intros i name Hname. eapply lookup_weaken; [| exact Hsub].
    rewrite fill_missing_lookup.
    destruct (decide (name ∈ (map_img cd ∖ dom fd0 : gset string))) as [Hin | Hout].
    + apply elem_of_difference in Hin as [_ Hnew].
      apply not_elem_of_dom in Hnew. rewrite Hnew. reflexivity.
    + destruct (fd0 !! name) as [v |] eqn:Hv; [reflexivity |].
      destruct Hout. apply elem_of_difference. split.
      * apply elem_of_map_img. exists i. exact Hname.
      * apply not_elem_of_dom. exact Hv.
  - intros k v Hv. eapply lookup_weaken; [| exact Hsub].
    rewrite fill_missing_lookup.
    rewrite decide_False; [exact Hv |].
    intros [_ Hnew]%elem_of_difference. apply Hnew, elem_of_dom. eauto.
Qed.

End CompileNamesFacts.

Lemma compile_names_every_column_witness :
  exists (cd : gmap nat string) (fd : gmap string string),
    Demo.compiled columns_dict = Some cd /\ Demo.compiled features_dict = Some fd /\
    (forall i name, cd !! i = Some name ->
       fd !! name
       = Some (default name (({["age" := "Age"]} : gmap string string) !! name))) /\
    (forall k v, ({["age" := "Age"]} : gmap string string) !! k = Some v ->
                 fd !! k = Some v).
Proof.
  apply (compile_names_every_column Demo.lib Demo.x tt None (Some (One Demo.contribs))
           (Some Demo.y) None None None None
           (SmartExplainer.init {["age" := "Age"]} None None Demo.blank).2
           Demo.compiled {["age" := "Age"]}); reflexivity.
Defined.

Section InverseFacts.

Context {ModelObj ExplainerObj Encoder : Type}.

Abbreviation Self := (Obj ModelObj ExplainerObj Encoder).
Abbreviation Method := (M ModelObj ExplainerObj Encoder).

Variable lib : SmartExplainer.Collaborators ModelObj ExplainerObj Encoder.

Lemma dict_inverse_inverse `{Countable K, Countable V} (d : gmap K V) :
  inverse_of (SmartExplainer.dict_inverse d) d.
Proof.
  unfold SmartExplainer.dict_inverse.
  apply (map_fold_weak_ind (fun (inv : gmap V K) (d : gmap K V) => inverse_of inv d)).
  - split.
    + intros v k Hv. rewrite lookup_empty in Hv. discriminate.
    + intros k v Hk. rewrite lookup_empty in Hk. discriminate.
  - intros i x m r Hfresh [Hsound Hcomplete]. split.
    + intros v k Hv. destruct (decide (x = v)) as [<- | Hne].
      * rewrite lookup_insert_eq in Hv. injection Hv as <-. apply lookup_insert_eq.
      * rewrite lookup_insert_ne in Hv by exact Hne.
        pose proof (Hsound v k Hv) as Hk.
        rewrite lookup_insert_ne; [exact Hk |]. intros <-. congruence.
    + intros k v Hk. destruct (decide (x = v)) as [<- | Hne].
      * rewrite lookup_insert_eq. eauto.
      * rewrite lookup_insert_ne by exact Hne.
        destruct (decide (i = k)) as [<- | Hik].
        -- rewrite lookup_insert_eq in Hk. congruence.
        -- rewrite lookup_insert_ne in Hk by exact Hik. eapply Hcomplete, Hk.
Qed.

Lemma names_inverted_stable (s s' : Self) :
  (forall a, a ∉ compile_assigned_besides_names -> s' a = s a) ->
  names_inverted s -> names_inverted s'.
Proof.
  intros Hsame (cd & icd & fd & ifd & Hcd & Hicd & Hfd & Hifd & Hinv).
  exists cd, icd, fd, ifd.
  rewrite <- Hcd, <- Hicd, <- Hfd, <- Hifd.
  repeat split; try (apply Hsame; unfold compile_assigned_besides_names; not_listed);
    apply Hinv.
Qed.

Lemma update_features_dict_inverted groups :
  keeps names_inverted
    (SmartExplainer._update_features_dict_with_groups groups : Method unit).
Proof.
  unfold SmartExplainer._update_features_dict_with_groups.
  apply keeps_for_each.
  intros name s (cd & icd & fd & ifd & Hcd & Hicd & Hfd & Hifd & Hcols & Hsound & Hcomplete).
  return_read desc Hdesc.
  apply returns_with_bind. return_step. cbv beta.
  return_read fd' Hfd'.
  rewrite assign_other in Hfd' by discriminate. rewrite Hfd in Hfd'.
  injection Hfd' as <-.
  case_bool_decide as Hknown.
  - return_step. exists cd, icd, fd, ifd.
    rewrite !assign_other by discriminate.
    repeat split; first [assumption | apply Hcols].
  - apply eq_None_not_Some in Hknown.
    apply returns_with_bind. return_step. cbv beta.
    return_read ifd' Hifd'. rewrite !assign_other in Hifd' by discriminate.
    rewrite Hifd in Hifd'. injection Hifd' as <-.
    return_step.
    exists cd, icd, (<[name := name]> (fd : gmap string string)),
      (<[name := name]> (ifd : gmap string string)).
    split; [rewrite !assign_other by discriminate; exact Hcd |].
    split; [rewrite !assign_other by discriminate; exact Hicd |].
    split; [rewrite assign_other by discriminate; apply assign_same |].
    split; [apply assign_same |].
    split; [exact Hcols |]. split.
    + intros v k Hv. destruct (decide (name = v)) as [<- | Hne].
      * rewrite lookup_insert_eq in Hv. injection Hv as <-. apply lookup_insert_eq.
      * rewrite lookup_insert_ne in Hv by exact Hne.
        pose proof (Hsound v k Hv) as Hk.
        rewrite lookup_insert_ne; [exact Hk |].
        intros Heq. rewrite <- Heq in Hk.
        assert (Hbad : Some v = None) by (rewrite <- Hk; exact Hknown).
        discriminate.
    + intros k v Hk. destruct (decide (name = v)) as [<- | Hne].
      * rewrite lookup_insert_eq. eauto.
      * rewrite lookup_insert_ne by exact Hne.
        destruct (decide (name = k)) as [<- | Hnk].
        -- rewrite lookup_insert_eq in Hk. injection Hk as Hk. contradiction.
        -- rewrite lookup_insert_ne in Hk by exact Hnk. eapply Hcomplete, Hk.
Qed.

End InverseFacts.

(** One step of a proof that the rest of [compile] keeps the inverses. *)
Ltac inverted_step :=
  lazymatch goal with
  | |- keeps _ (bind _ _) => apply keeps_bind; [| intros ?]
  | |- keeps _ (SmartExplainer._update_features_dict_with_groups _) =>
      apply update_features_dict_inverted
  | |- keeps _ (SmartExplainer.when ?b _) => destruct b; simpl
  | |- keeps _ (SmartExplainer.modify_postprocessing _) =>
      apply (keeps_frame _ compile_assigned_besides_names);
      [apply modify_postprocessing_frame | apply names_inverted_stable]
  | |- keeps _ _ =>
      apply (keeps_frame _ compile_assigned_besides_names);
      [unfold compile_assigned_besides_names; solve [repeat frame_step]
      | apply names_inverted_stable]
  end.

Section CompileInverses.

Context {ModelObj ExplainerObj Encoder : Type}.

Abbreviation Self := (Obj ModelObj ExplainerObj Encoder).
Abbreviation Method := (M ModelObj ExplainerObj Encoder).

Variable lib : SmartExplainer.Collaborators ModelObj ExplainerObj Encoder.

Lemma compile_inverts x model0 explainer0 contributions0 y_pred0 preprocessing0
    postprocessing0 title_story0 features_groups0 (self : Self) :
  returns_with
    (SmartExplainer.compile lib x model0 explainer0 contributions0 y_pred0
       preprocessing0 postprocessing0 title_story0 features_groups0 : Method unit)
    self (fun _ s' => names_inverted s').
Proof.
  unfold SmartExplainer.compile.
  skip_to columns_dict.
  apply returns_with_bind. return_step. cbv beta.
  return_read cd Hcd. rewrite assign_same in Hcd. injection Hcd as <-.
  apply returns_with_bind. return_step. cbv beta.
  unfold SmartExplainer.check_features_dict.
  apply returns_with_bind.
  return_read cd Hcd. return_read fd Hfd. cbv zeta. return_step. cbv beta.
  return_read fd' Hfd'. rewrite assign_same in Hfd'. injection Hfd' as <-.
  apply returns_with_bind. return_step. cbv beta.
  unfold SmartExplainer.check_postprocessing,
    SmartExplainer.check_postprocessing_modif_strings,
    SmartExplainer.apply_postprocessing, SmartExplainer.check_features_desc,
    SmartExplainer._compile_features_groups.
  match goal with
  | |- returns_with ?rest ?s1 _ => assert (Hkeeps : keeps names_inverted rest)
  end.
  { repeat inverted_step. }
  apply Hkeeps.
  eexists _, _, _, _.
  split; [rewrite !assign_other by discriminate; apply assign_same |].
  split; [rewrite !assign_other by discriminate; apply assign_same |].
  split; [rewrite !assign_other by discriminate; apply assign_same |].
  split; [apply assign_same |].
  split; apply dict_inverse_inverse.
Qed.

(** X15.  After a compile that returns, inv_columns_dict and
    inv_features_dict are inverses of columns_dict and features_dict: each
    maps a name only to a key that holds this name, and every name held has
    an entry; this also holds for the group names that compile adds to both
    dictionaries. *)
Theorem compile_inverse_dictionaries x model0 explainer0 contributions0 y_pred0
    preprocessing0 postprocessing0 title_story0 features_groups0 (self s' : Self) :
  SmartExplainer.compile lib x model0 explainer0 contributions0 y_pred0
    preprocessing0 postprocessing0 title_story0 features_groups0 self = (Ok tt, s') ->
  exists cd icd fd ifd,
    s' columns_dict = Some cd /\ s' inv_columns_dict = Some icd /\
    s' features_dict = Some fd /\ s' inv_features_dict = Some ifd /\
    (forall name i, icd !! name = Some i -> cd !! i = Some name) /\
    (forall i name, cd !! i = Some name -> is_Some (icd !! name)) /\
    (forall shown name, ifd !! shown = Some name -> fd !! name = Some shown) /\
    (forall name shown, fd !! name = Some shown -> is_Some (ifd !! shown)).
Proof.
  intros Hrun.
  destruct (returns_with_run _ _ _ _ _
              (compile_inverts x model0 explainer0 contributions0 y_pred0
                 preprocessing0 postprocessing0 title_story0 features_groups0 self)
              Hrun)
    as (cd & icd & fd & ifd & Hcd & Hicd & Hfd & Hifd & [Hc1 Hc2] & [Hf1 Hf2]).
  exists cd, icd, fd, ifd. repeat split; assumption.
Qed.

End CompileInverses.

Lemma compile_inverse_dictionaries_witness :
  exists cd icd fd ifd,
    Demo.compiled columns_dict = Some cd /\ Demo.compiled inv_columns_dict = Some icd /\
    Demo.compiled features_dict = Some fd /\ Demo.compiled inv_features_dict = Some ifd /\
    (forall name i, icd !! name = Some i -> cd !! i = Some name) /\
    (forall i name, cd !! i = Some name -> is_Some (icd !! name)) /\
    (forall shown name, ifd !! shown = Some name -> fd !! name = Some shown) /\
    (forall name shown, fd !! name = Some shown -> is_Some (ifd !! shown)).
Proof.
  apply (compile_inverse_dictionaries Demo.lib Demo.x tt None (Some (One Demo.contribs))
           (Some Demo.y) None None None None
           (SmartExplainer.init {["age" := "Age"]} None None Demo.blank).2
           Demo.compiled).
  reflexivity.
Defined.

Section AddFacts.

Context {ModelObj ExplainerObj Encoder : Type}.

Abbreviation Self := (Obj ModelObj ExplainerObj Encoder).
Abbreviation Method := (M ModelObj ExplainerObj Encoder).

Variable lib : SmartExplainer.Collaborators ModelObj ExplainerObj Encoder.

(** X16.  add(features_dict=fd) replaces the display names: on an explainer
    that has its columns_dict, it returns, and features_dict is then fd
    completed with the column names it lacks, each mapped to itself.  Nothing
    of the earlier features_dict is kept: a name that is neither a key of fd
    nor a column (the name of a group that compile had added, for instance)
    has no entry any more.  inv_features_dict is rebuilt from the result, of
    which it is an inverse. *)
Theorem add_features_dict_replaces (fd : gmap string string) title (self : Self)
    (cd : gmap nat string) :
  self columns_dict = Some cd ->
  exists (s' : Self) (fd' ifd' : gmap string string),
    SmartExplainer.add lib None None (Some fd) title self = (Ok tt, s') /\
    s' features_dict = Some fd' /\
    s' inv_features_dict = Some ifd' /\
    inverse_of ifd' fd' /\
    forall k, fd' !! k = match fd !! k with
                         | Some v => Some v
                         | None => if decide (k ∈ (map_img cd : gset string))
                                   then Some k else None
                         end.
Proof.
  intros Hcd.
  set (fd' := set_fold (fun feature d => <[feature:=feature]> d) fd
                (map_img cd ∖ dom fd : gset string)).
  set (s1 := assign inv_features_dict (SmartExplainer.dict_inverse fd')
               (assign features_dict fd' (assign features_dict fd self))).
  exists (match title with Some t => assign title_story t s1 | None => s1 end), fd',
    (SmartExplainer.dict_inverse fd').
  split; [| split; [| split; [| split]]].
  - unfold SmartExplainer.add, SmartExplainer.check_features_dict.
    rewrite !bind_ret. rewrite !bind_assoc. rewrite bind_setattr.
    rewrite !bind_assoc.
    rewrite (bind_getattr columns_dict cd)
      by (rewrite assign_other by discriminate; exact Hcd).
    rewrite !bind_assoc.
    rewrite (bind_getattr features_dict fd) by apply assign_same.
    cbv zeta. rewrite bind_setattr. rewrite !bind_assoc.
    rewrite (bind_getattr features_dict fd') by apply assign_same.
    rewrite bind_setattr. fold s1. destruct title; reflexivity.
  - destruct title; subst s1; rewrite !assign_other by discriminate; apply assign_same.
  - destruct title; subst s1; rewrite ?assign_other by discriminate; apply assign_same.
  - apply dict_inverse_inverse.
  - intros k. subst fd'. rewrite fill_missing_lookup.
    destruct (fd !! k) as [v |] eqn:Hk.
    + rewrite decide_False; [reflexivity |].
      intros [_ Hnew]%elem_of_difference. apply Hnew, elem_of_dom. eauto.
    + destruct (decide (k ∈ (map_img cd : gset string))) as [Hin | Hout].
      * rewrite decide_True; [reflexivity |].
        apply elem_of_difference. split; [exact Hin | apply not_elem_of_dom, Hk].
      * rewrite decide_False; [reflexivity |].
        intros [Hin _]%elem_of_difference. contradiction.
Qed.

End AddFacts.

Lemma add_features_dict_replaces_witness :
  exists (s' : Obj unit unit unit) (fd' : gmap string string),
    SmartExplainer.add Demo.lib None None (Some {["fare" := "Fare"]}) None Demo.compiled
    = (Ok tt, s') /\
    s' features_dict = Some fd' /\ fd' !! "age" = Some "age".
Proof.
  destruct (add_features_dict_replaces Demo.lib {["fare" := "Fare"]} None
              Demo.compiled _ eq_refl)
    as (s' & fd' & ifd' & Hrun & Hfd & _ & _ & Hnames).
  exists s', fd'. split; [exact Hrun |]. split; [exact Hfd |].
  rewrite Hnames. vm_compute. reflexivity.
Defined.

Section DiagnosticsClean.

Context {ModelObj ExplainerObj Encoder : Type}.

Abbreviation Self := (Obj ModelObj ExplainerObj Encoder).
Abbreviation Method := (M ModelObj ExplainerObj Encoder).

Variable lib : SmartExplainer.Collaborators ModelObj ExplainerObj Encoder.

Lemma raises_clean_pure {A} (m : Method A) : leaves_store m -> raises_clean m.
Proof. intros Hm self e _. apply Hm. Qed.

Lemma raises_clean_setattr (a : attr) (v : attr_type ModelObj ExplainerObj Encoder a) :
  raises_clean (setattr a v : Method unit).
Proof. intros self e. discriminate. Qed.

Lemma raises_clean_bind {A B} (m : Method A) (k : A -> Method B) :
  leaves_store m -> (forall x, raises_clean (k x)) -> raises_clean (bind m k).
Proof.
  intros Hm Hk self e. unfold bind. specialize (Hm self).
  destruct (m self) as [[x | e'] s1]; simpl in *; subst s1; [apply Hk | reflexivity].
Qed.

Lemma reject_multiclass_pure :
  leaves_store (SmartExplainer.reject_multiclass : Method unit).
Proof. unfold SmartExplainer.reject_multiclass. repeat pure_step. Qed.

Lemma stability_rows_pure all_neighbors f rows v a :
  leaves_store (SmartExplainer.stability_rows lib all_neighbors f rows v a : Method _).
Proof.
  revert v a. induction rows as [| i rows IH]; intros v a; simpl.
  - apply leaves_store_ret.
  - destruct (all_neighbors !! i); [| apply leaves_store_raise].
    repeat first [apply IH | pure_step].
Qed.

End DiagnosticsClean.

(** One step of a proof that a method has assigned nothing when it raises. *)
Ltac clean_step :=
  lazymatch goal with
  | |- raises_clean (bind _ _) =>
      apply raises_clean_bind;
      [first [apply reject_multiclass_pure | apply stability_rows_pure
             | solve [repeat pure_step]]
      | intros ?]
  | |- raises_clean (setattr ?b ?v) => apply (raises_clean_setattr b v)
  | |- raises_clean (if ?b then _ else _) => destruct b
  | |- raises_clean (match ?x with _ => _ end) => destruct x
  | |- raises_clean _ => apply raises_clean_pure; solve [repeat pure_step]
  end.

Section DiagnosticsAllOrNothing.

Context {ModelObj ExplainerObj Encoder : Type}.

Abbreviation Self := (Obj ModelObj ExplainerObj Encoder).
Abbreviation Method := (M ModelObj ExplainerObj Encoder).

Variable lib : SmartExplainer.Collaborators ModelObj ExplainerObj Encoder.

Lemma stability_frame sel :
  assigns_only [local_neighbors; features_stability]
    (SmartExplainer.compute_features_stability lib sel : Method unit).
Proof.
  assert (Hrows : forall all f rows v a,
            assigns_only [local_neighbors; features_stability]
              (SmartExplainer.stability_rows lib all f rows v a : Method _)).
  { intros all f rows v a s b _. rewrite stability_rows_pure. reflexivity. }
  unfold SmartExplainer.compute_features_stability, SmartExplainer.reject_multiclass.
  cbv zeta. repeat first [apply Hrows | frame_step].
Qed.

(** X17.  The two diagnostics are all or nothing.  A
    compute_features_stability or compute_features_compacity that raises has
    assigned nothing: the explainer is as it was.  One that returns has
    assigned nothing but its own result: local_neighbors or
    features_stability for the first, features_compacity for the second. *)
Theorem diagnostics_all_or_nothing sel dist nb (self : Self) :
  (forall e,
     (SmartExplainer.compute_features_stability lib sel self).1 = Raise e ->
     (SmartExplainer.compute_features_stability lib sel self).2 = self) /\
  (forall e,
     (SmartExplainer.compute_features_compacity lib sel dist nb self).1 = Raise e ->
     (SmartExplainer.compute_features_compacity lib sel dist nb self).2 = self) /\
  (forall a, a <> local_neighbors -> a <> features_stability ->
     (SmartExplainer.compute_features_stability lib sel self).2 a = self a) /\
  (forall a, a <> features_compacity ->
     (SmartExplainer.compute_features_compacity lib sel dist nb self).2 a = self a).
Proof.
  split; [| split; [| split]].
  - intros e. revert self e.
    change (raises_clean (SmartExplainer.compute_features_stability lib sel : Method unit)).
    unfold SmartExplainer.compute_features_stability. cbv zeta.
    repeat clean_step.
  - intros e. revert self e.
    change (raises_clean
              (SmartExplainer.compute_features_compacity lib sel dist nb : Method unit)).
    unfold SmartExplainer.compute_features_compacity. cbv zeta.
    repeat clean_step.
  - intros a Hln Hfs. apply stability_frame.
    intros [-> | [-> | Hin]%elem_of_cons]%elem_of_cons;
      [contradiction | contradiction | inversion Hin].
  - intros a Hfc.
    assert (Hframe : assigns_only [features_compacity]
              (SmartExplainer.compute_features_compacity lib sel dist nb : Method unit)).
    { unfold SmartExplainer.compute_features_compacity,
        SmartExplainer.reject_multiclass.
      cbv zeta. repeat frame_step. }
    apply Hframe. intros [-> | Hin]%elem_of_cons; [contradiction | inversion Hin].
Qed.

(** X18.  With an empty selection, once the guard on the classes is passed
    and find_neighbors has returned, compute_features_stability returns
    without asking for any neighbour and stores two arrays without rows. *)
Theorem stability_of_empty_selection (self : Self) (xi xp : DataFrame cell)
    (m : ModelObj) (c : string) all :
  binary_or_regression self ->
  self x_init = Some xi -> self model = Some m -> self _case = Some c ->
  self x_pred = Some xp ->
  SmartExplainer.lib_find_neighbors lib [] xi m c = Ok all ->
  SmartExplainer.compute_features_stability lib [] self
  = (Ok tt, assign features_stability
              (Some {| variability := []; amplitude := [] |}) self).
Proof.
  intros Hguard Hxi Hm Hc Hxp Hfind.
  unfold SmartExplainer.compute_features_stability.
  rewrite (bind_ok _ _ tt self self (guard_passes self Hguard)).
  rewrite (bind_getattr x_init xi _ self Hxi).
  rewrite (bind_getattr model m _ self Hm).
  rewrite (bind_getattr _case c _ self Hc).
  rewrite bind_call, Hfind.
  rewrite bool_decide_false by discriminate. cbv zeta.
  rewrite !(bind_getattr x_pred xp _ self Hxp).
  reflexivity.
Qed.

End DiagnosticsAllOrNothing.

Lemma diagnostics_all_or_nothing_witness :
  (SmartExplainer.compute_features_stability Demo.lib [0; 1] Demo.three_classes).2
  = Demo.three_classes.
Proof.
  destruct (diagnostics_all_or_nothing Demo.lib [0; 1] 0%Q 1 Demo.three_classes)
    as [Hclean _].
  eapply Hclean. reflexivity.
Defined.

Lemma stability_of_empty_selection_witness :
  SmartExplainer.compute_features_stability Demo.lib [] Demo.compiled
  = (Ok tt, assign features_stability
              (Some {| variability := []; amplitude := [] |}) Demo.compiled).
Proof.
  apply (stability_of_empty_selection Demo.lib Demo.compiled Demo.x Demo.x tt
           "regression" []); try reflexivity.
  left. reflexivity.
Defined.

Section PostprocessingFacts.

Context {ModelObj ExplainerObj Encoder : Type}.

Abbreviation Self := (Obj ModelObj ExplainerObj Encoder).
Abbreviation Method := (M ModelObj ExplainerObj Encoder).

Lemma rename_rule_technical fd cd ifd new_dic key rule :
  SmartExplainer.rename_rule fd cd ifd new_dic key rule
  = match technical_name fd cd ifd key with
    | Some name => Ok (<[name := rule]> new_dic)
    | None =>
        Raise (ValueError
                 match key with
                 | ByName key => "Feature name '" +:+ key +:+ "' not found in the dataset."
                 | ById _ => "Feature name not found in the dataset."
                 end)
    end.
Proof.
  unfold SmartExplainer.rename_rule, technical_name.
  destruct key as [key | key].
  - case_bool_decide; [reflexivity |]. destruct (ifd !! key); reflexivity.
  - destruct (cd !! key); reflexivity.
Qed.

Lemma rename_rules_resolved fd cd ifd (rules : list (feature_ref * PostRule)) acc :
  (forall key rule, (key, rule) ∈ rules -> is_Some (technical_name fd cd ifd key)) ->
  exists r,
    foldl (fun (acc : result (gmap string PostRule)) (kr : feature_ref * PostRule) =>
             result_bind acc (fun new_dic =>
               SmartExplainer.rename_rule fd cd ifd new_dic kr.1 kr.2))
          (Ok acc) rules = Ok r /\
    (forall k rule, r !! k = Some rule ->
       acc !! k = Some rule \/
       exists key, (key, rule) ∈ rules /\ technical_name fd cd ifd key = Some k) /\
    (forall key rule name, (key, rule) ∈ rules ->
       technical_name fd cd ifd key = Some name -> is_Some (r !! name)) /\
    (forall k, is_Some (acc !! k) -> is_Some (r !! k)).
Proof.
  revert acc. induction rules as [| [key rule] rules IH]; intros acc Hall.
  - exists acc. simpl. repeat split; auto.
    intros key rule name Hin. inversion Hin.
  - destruct (Hall key rule) as [name Hname]; [left |].
    simpl. rewrite rename_rule_technical, Hname.
    destruct (IH (<[name := rule]> acc)) as (r & Hr & Hfrom & Hall_in & Hkeep).
    { intros key' rule' Hin. apply (Hall key' rule'). right. exact Hin. }
    exists r. split; [exact Hr |]. split; [| split].
    + intros k rule' Hk. destruct (Hfrom k rule' Hk) as [Hacc | (key' & Hin & Hres)].
      * destruct (decide (name = k)) as [<- | Hne].
        -- rewrite lookup_insert_eq in Hacc. injection Hacc as <-.
           right. exists key. split; [left | exact Hname].
        -- rewrite lookup_insert_ne in Hacc by exact Hne. left. exact Hacc.
      * right. exists key'. split; [right; exact Hin | exact Hres].
    + intros key' rule' name' [[= -> ->] | Hin]%elem_of_cons Hres.
      * rewrite Hname in Hres. injection Hres as <-.
        apply Hkeep. rewrite lookup_insert_eq. eauto.
      * exact (Hall_in key' rule' name' Hin Hres).
    + intros k Hk. apply Hkeep.
      destruct (decide (name = k)) as [<- | Hne].
      * rewrite lookup_insert_eq. eauto.
      * rewrite lookup_insert_ne by exact Hne. exact Hk.
Qed.

Lemma rename_rules_raised fd cd ifd (rules : list (feature_ref * PostRule)) e :
  foldl (fun (acc : result (gmap string PostRule)) (kr : feature_ref * PostRule) =>
           result_bind acc (fun new_dic =>
             SmartExplainer.rename_rule fd cd ifd new_dic kr.1 kr.2))
        (Raise e) rules = Raise e.
Proof. induction rules as [| kr rules IH]; [reflexivity | exact IH]. Qed.

Lemma rename_rules_unresolved fd cd ifd (rules : list (feature_ref * PostRule)) acc :
  (exists key rule, (key, rule) ∈ rules /\ technical_name fd cd ifd key = None) ->
  exists msg,
    foldl (fun (acc : result (gmap string PostRule)) (kr : feature_ref * PostRule) =>
             result_bind acc (fun new_dic =>
               SmartExplainer.rename_rule fd cd ifd new_dic kr.1 kr.2))
          (Ok acc) rules = Raise (ValueError msg).
Proof.
  revert acc. induction rules as [| [key rule] rules IH]; intros acc (key' & rule' & Hin & Hnone).
  - inversion Hin.
  - simpl. rewrite rename_rule_technical.
    destruct (technical_name fd cd ifd key) as [name |] eqn:Hname.
    + apply IH. exists key', rule'. split; [| exact Hnone].
      apply elem_of_cons in Hin as [[= -> ->] | Hin]; [congruence | exact Hin].
    + eexists. apply rename_rules_raised.
Qed.

(** X19.  modify_postprocessing keys the rules by technical names.  On a
    non-empty dictionary whose keys all designate a feature (as a key of
    features_dict, a column id or a display name), it returns, leaving the
    explainer as it is, a dictionary in which every key is the technical name
    of a key given, with a rule given for it, and in which every key given is
    represented; as soon as one key designates no feature, it raises
    ValueError. *)
Theorem modify_postprocessing_resolves (rules : list (feature_ref * PostRule))
    (self : Self) (fd : gmap string string) (cd : gmap nat string)
    (ifd : gmap string string) :
  self features_dict = Some fd -> self columns_dict = Some cd ->
  self inv_features_dict = Some ifd ->
  rules <> [] ->
  ((forall key rule, (key, rule) ∈ rules -> is_Some (technical_name fd cd ifd key)) ->
   exists r,
     SmartExplainer.modify_postprocessing (Some rules) self = (Ok (Some r), self) /\
     (forall k rule, r !! k = Some rule ->
        exists key, (key, rule) ∈ rules /\ technical_name fd cd ifd key = Some k) /\
     (forall key rule name, (key, rule) ∈ rules ->
        technical_name fd cd ifd key = Some name -> is_Some (r !! name))) /\
  ((exists key rule, (key, rule) ∈ rules /\ technical_name fd cd ifd key = None) ->
   exists msg,
     SmartExplainer.modify_postprocessing (Some rules) self
     = (Raise (ValueError msg), self)).
Proof.
  intros Hfd Hcd Hifd Hrules.
  assert (Hrun : SmartExplainer.modify_postprocessing (Some rules) self
                 = bind (call (foldl (fun (acc : result (gmap string PostRule))
                                          (kr : feature_ref * PostRule) =>
                                        result_bind acc (fun new_dic =>
                                          SmartExplainer.rename_rule fd cd ifd new_dic
                                            kr.1 kr.2))
                                     (Ok ∅) rules))
                        (fun r => ret (Some r)) self).
  { unfold SmartExplainer.modify_postprocessing.
    destruct rules as [| kr rules]; [contradiction |].
    rewrite (bind_getattr features_dict fd _ self Hfd).
    rewrite (bind_getattr columns_dict cd _ self Hcd).
    rewrite (bind_getattr inv_features_dict ifd _ self Hifd). reflexivity. }
  rewrite Hrun, bind_call. split.
  - intros Hall.
    destruct (rename_rules_resolved fd cd ifd rules ∅ Hall)
      as (r & -> & Hfrom & Hall_in & _).
    exists r. split; [reflexivity |]. split; [| exact Hall_in].
    intros k rule Hk. destruct (Hfrom k rule Hk) as [Hempty | Hkey]; [| exact Hkey].
    rewrite lookup_empty in Hempty. discriminate.
  - intros Hsome.
    destruct (rename_rules_unresolved fd cd ifd rules ∅ Hsome) as [msg ->].
    exists msg. reflexivity.
Qed.

End PostprocessingFacts.

Lemma modify_postprocessing_resolves_witness :
  exists r,
    SmartExplainer.modify_postprocessing
      (Some [(ByName "Age", mkPostRule "suffix" [("rule", " years")]);
             (ById 1, mkPostRule "prefix" [("rule", "$")])]) Demo.compiled
    = (Ok (Some r), Demo.compiled) /\
    is_Some (r !! "age") /\ is_Some (r !! "fare").
Proof.
  destruct (modify_postprocessing_resolves
              [(ByName "Age", mkPostRule "suffix" [("rule", " years")]);
               (ById 1, mkPostRule "prefix" [("rule", "$")])]
              Demo.compiled _ _ _ eq_refl eq_refl eq_refl) as [Hresolved _];
    [discriminate |].
  destruct Hresolved as (r & Hrun & _ & Hall).
  { intros key rule Hin.
    repeat (apply elem_of_cons in Hin as [[= -> ->] | Hin]);
      [vm_compute; eauto .. | inversion Hin]. }
  exists r. split; [exact Hrun |]. split.
  - apply (Hall (ByName "Age") (mkPostRule "suffix" [("rule", " years")]) "age");
      [left | vm_compute; reflexivity].
  - apply (Hall (ById 1) (mkPostRule "prefix" [("rule", "$")]) "fare");
      [right; left | vm_compute; reflexivity].
Defined.

Section ModifStrings.

Context {ModelObj ExplainerObj Encoder : Type}.

Abbreviation Self := (Obj ModelObj ExplainerObj Encoder).
Abbreviation Method := (M ModelObj ExplainerObj Encoder).

Lemma column_known {A} (x : DataFrame A) (key : string) :
  key ∈ columns x -> exists col, column x key = Ok col.
Proof.
  intros Hin. unfold column.
  destruct (list_find (fun c => c = key) (columns x)) as [[i c] |] eqn:Hfind; [eauto |].
  apply list_find_None in Hfind. rewrite Forall_forall in Hfind.
  destruct (Hfind key Hin). reflexivity.
Qed.

Variable lib : SmartExplainer.Collaborators ModelObj ExplainerObj Encoder.

Lemma modif_fold_known (x : DataFrame cell) (rules : list (string * PostRule)) b0 :
  (forall key rule, (key, rule) ∈ rules -> adds_text rule -> key ∈ columns x) ->
  exists b,
    foldl (fun (acc : result bool) (kr : string * PostRule) =>
             result_bind acc (fun modif =>
               if bool_decide (rule_type kr.2 ∈ ["prefix"; "suffix"]) then
                 result_bind (column x kr.1) (fun _ =>
                   Ok (if SmartExplainer.pd_is_numeric_dtype lib x kr.1
                       then true else modif))
               else Ok modif))
          (Ok b0) rules = Ok b /\
    (b = true <->
     b0 = true \/
     exists key rule, (key, rule) ∈ rules /\ adds_text rule /\
                      SmartExplainer.pd_is_numeric_dtype lib x key = true).
Proof.
  revert b0. induction rules as [| [key rule] rules IH]; intros b0 Hcols.
  - exists b0. split; [reflexivity |]. split; [auto |].
    intros [Hb | (key & rule & Hin & _)]; [exact Hb | inversion Hin].
  - assert (Htail : forall key' rule', (key', rule') ∈ rules -> adds_text rule' ->
                                       key' ∈ columns x).
    { intros key' rule' Hin. apply Hcols. right. exact Hin. }
    simpl. case_bool_decide as Htext.
    + destruct (column_known x key) as [col Hcol].
      { apply (Hcols key rule); [left | exact Htext]. }
      rewrite Hcol. simpl.
      destruct (IH (if SmartExplainer.pd_is_numeric_dtype lib x key then true else b0)
                   Htail) as (b & Hb & Hiff).
      exists b. split; [exact Hb |]. rewrite Hiff. split.
      * intros [Hnow | (key' & rule' & Hin & Hrest)].
        -- destruct (SmartExplainer.pd_is_numeric_dtype lib x key) eqn:Hnum;
             [| left; exact Hnow].
           right. exists key, rule. split; [left |]. auto.
        -- right. exists key', rule'. split; [right; exact Hin | exact Hrest].
      * intros [Hb0 | (key' & rule' & Hin & Htext' & Hnum)].
        -- left. rewrite Hb0.
           destruct (SmartExplainer.pd_is_numeric_dtype lib x key); reflexivity.
        -- apply elem_of_cons in Hin as [[= -> ->] | Hin].
           ++ left. rewrite Hnum. reflexivity.
           ++ right. exists key', rule'. auto.
    + destruct (IH b0 Htail) as (b & Hb & Hiff).
      exists b. split; [exact Hb |]. rewrite Hiff. split.
      * intros [Hb0 | (key' & rule' & Hin & Hrest)]; [left; exact Hb0 |].
        right. exists key', rule'. split; [right; exact Hin | exact Hrest].
      * intros [Hb0 | (key' & rule' & Hin & Htext' & Hrest)]; [left; exact Hb0 |].
        apply elem_of_cons in Hin as [[= -> ->] | Hin]; [contradiction |].
        right. exists key', rule'. auto.
Qed.

(** X20.  check_postprocessing_modif_strings tells whether a rule turns
    numbers into strings: when every prefix or suffix rule is on a column of
    x_pred, it returns, leaving the explainer as it is, and the value is True
    exactly when some prefix or suffix rule is on a column that
    pd.api.types.is_numeric_dtype reports as numeric; it returns False when
    no dictionary is given. *)
Theorem modif_strings_iff_numeric_text_rule (rules : gmap string PostRule)
    (self : Self) (x : DataFrame cell) :
  self x_pred = Some x ->
  (forall key rule, rules !! key = Some rule -> adds_text rule -> key ∈ columns x) ->
  SmartExplainer.check_postprocessing_modif_strings lib None self = (Ok false, self) /\
  exists b,
    SmartExplainer.check_postprocessing_modif_strings lib (Some rules) self
    = (Ok b, self) /\
    (b = true <->
     exists key rule, rules !! key = Some rule /\ adds_text rule /\
                      SmartExplainer.pd_is_numeric_dtype lib x key = true).
Proof.
  intros Hx Hcols. split; [reflexivity |].
  destruct (modif_fold_known x (map_to_list rules) false) as (b & Hb & Hiff).
  { intros key rule Hin. apply Hcols. apply elem_of_map_to_list. exact Hin. }
  exists b. split.
  - unfold SmartExplainer.check_postprocessing_modif_strings.
    rewrite (bind_getattr x_pred x _ self Hx). unfold call. rewrite Hb. reflexivity.
  - rewrite Hiff. split.
    + intros [[=] | (key & rule & Hin & Hrest)].
      exists key, rule. split; [apply elem_of_map_to_list, Hin | exact Hrest].
    + intros (key & rule & Hin & Hrest). right.
      exists key, rule. split; [apply elem_of_map_to_list, Hin | exact Hrest].
Qed.

End ModifStrings.

Lemma modif_strings_iff_numeric_text_rule_witness :
  exists b,
    SmartExplainer.check_postprocessing_modif_strings Demo.lib
      (Some {["age" := mkPostRule "suffix" [("rule", " years")]]}) Demo.compiled
    = (Ok b, Demo.compiled) /\
    (b = true <->
     exists key rule,
       ({["age" := mkPostRule "suffix" [("rule", " years")]]} : gmap string PostRule)
         !! key = Some rule /\
       adds_text rule /\ SmartExplainer.pd_is_numeric_dtype Demo.lib Demo.x key = true).
Proof.
  apply (modif_strings_iff_numeric_text_rule Demo.lib
           {["age" := mkPostRule "suffix" [("rule", " years")]]} Demo.compiled Demo.x
           eq_refl).
  intros key rule Hrule _.
  apply lookup_singleton_Some in Hrule as [<- _]. left.
Defined.
